(** * ARES GPU memory manager: reservation strategy, reclaim and node wrappers

    A shallow embedding of [nodes.py].  Python floats are IEEE-754 binary64
    values; they are modelled by the Standard Library's [spec_float] with
    [prec = 53] and [emax = 1024], so that every arithmetic step of the
    source (rounding, infinities, NaN) is the one the interpreter performs.
    Effects (logging, the externally owned reservation slot, telemetry that
    changes between two reads, exceptions) are threaded through a small
    state-and-exception monad. *)

From Stdlib Require Import ZArith Bool List String Lia.
From Stdlib Require Import Floats.SpecFloat.
Import ListNotations.

Local Open Scope Z_scope.

(* ====================================================================== *)
(** ** Python floats *)
(* ====================================================================== *)

Module PyFloat.

Definition prec : Z := 53.
Definition emax : Z := 1024.

Definition float : Type := spec_float.

Definition add : float -> float -> float := SFadd prec emax.
Definition sub : float -> float -> float := SFsub prec emax.
Definition mul : float -> float -> float := SFmul prec emax.
Definition ltb : float -> float -> bool := SFltb.
Definition leb : float -> float -> bool := SFleb.
Definition eqb : float -> float -> bool := SFeqb.

(** [x > y] and [x != y] as Python evaluates them on floats. *)
Definition gtb (x y : float) : bool := ltb y x.
Definition neqb (x y : float) : bool := negb (eqb x y).

(** [float(z)] for an integer, and the true division [z / 2**k] of two
    integers: both are the exact value rounded to nearest, ties to even. *)
Definition of_Z (z : Z) : float := binary_normalize prec emax z 0 false.
Definition of_Z_div_pow2 (z k : Z) : float :=
  binary_normalize prec emax z (- k) false.

(** A decimal literal [n/d] of the source text, e.g. [0.9] is [9/10]. *)
Definition decimal (n d : Z) : float :=
  SFdiv prec emax (of_Z n) (of_Z d).

Definition is_zero (x : float) : bool :=
  match x with S754_zero _ => true | _ => false end.

Definition is_nan (x : float) : bool :=
  match x with S754_nan => true | _ => false end.

Definition is_finite (x : float) : bool :=
  match x with
  | S754_zero _ | S754_finite _ _ _ => true
  | _ => false
  end.

(** The builtins [max(a, b)] and [min(a, b)]: the first argument is kept
    unless the second one compares strictly greater (resp. smaller), so a
    NaN in first position is returned and a NaN in second position is
    dropped. *)
Definition py_max (a b : float) : float := if gtb b a then b else a.
Definition py_min (a b : float) : float := if ltb b a then b else a.

(** The value of a finite float, truncated toward zero. *)
Definition trunc (x : float) : Z :=
  match x with
  | S754_finite s m e => cond_Zopp s (Z.shiftl (Zpos m) e)
  | _ => 0
  end.

End PyFloat.

Import PyFloat.

(* ====================================================================== *)
(** ** Exceptions, the world and the monad *)
(* ====================================================================== *)

(** The exceptions that the modelled code can meet; all of them derive from
    [Exception]. *)
Inductive exn : Type :=
| ZeroDivisionError
| OverflowError
| ValueError
| RuntimeError
| NVMLError.

Inductive Result (A : Type) : Type :=
| Ok (a : A)
| Raise (e : exn).
Arguments Ok {A} a.
Arguments Raise {A} e.

(** [int(x)]: truncation, [OverflowError] on an infinity and [ValueError] on
    NaN. *)
Definition py_int (x : float) : Result Z :=
  match x with
  | S754_nan => Raise ValueError
  | S754_infinity _ => Raise OverflowError
  | _ => Ok (trunc x)
  end.

(** [x / y] on floats: a zero divisor raises. *)
Definition py_div (x y : float) : Result float :=
  if is_zero y then Raise ZeroDivisionError else Ok (SFdiv prec emax x y).


(** Computations over a state [S] that either return or raise; the state
    reached when an exception is raised is kept, as a Python [try] block
    keeps the side effects performed before the failing statement. *)
Definition M (S A : Type) : Type := S -> Result A * S.

Definition ret {S A} (a : A) : M S A := fun s => (Ok a, s).

Definition bind {S A B} (c : M S A) (k : A -> M S B) : M S B :=
  fun s =>
    match c s with
    | (Ok a, s') => k a s'
    | (Raise e, s') => (Raise e, s')
    end.

Definition raise {S A} (e : exn) : M S A := fun s => (Raise e, s).

Definition lift_result {S A} (r : Result A) : M S A := fun s => (r, s).

(** [try: c  except Exception as e: h e]. *)
Definition try_except {S A} (c : M S A) (h : exn -> M S A) : M S A :=
  fun s =>
    match c s with
    | (Ok a, s') => (Ok a, s')
    | (Raise e, s') => h e s'
    end.

Definition get {S} : M S S := fun s => (Ok s, s).
Definition modify {S} (f : S -> S) : M S unit := fun s => (Ok tt, f s).

Declare Scope monad_scope.
Delimit Scope monad_scope with monad.
Notation "x <- c ;; k" := (bind c (fun x => k))
  (at level 61, c at next level, right associativity) : monad_scope.
Notation "' pat <- c ;; k" :=
  (bind c (fun x => match x with pat => k end))
  (at level 61, pat pattern, c at next level, right associativity)
  : monad_scope.
Notation "c ;; k" := (bind c (fun _ => k))
  (at level 61, right associativity) : monad_scope.
Local Open Scope monad_scope.

(** A mutable local object [L] (a dict or a list built inside a [try]
    block) is an extra state component next to the world. *)
Definition zoom {L W A} (c : M W A) : M (L * W) A :=
  fun lw =>
    let '(r, w') := c (snd lw) in (r, (fst lw, w')).

Definition update {L W} (f : L -> L) : M (L * W) unit :=
  fun lw => (Ok tt, (f (fst lw), snd lw)).

Definition local {L W} : M (L * W) L := fun lw => (Ok (fst lw), lw).

Definition with_local {L W A} (l0 : L) (c : M (L * W) A) : M W A :=
  fun w =>
    let '(r, lw) := c (l0, w) in (r, snd lw).

(* ====================================================================== *)
(** ** Constants *)
(* ====================================================================== *)

Definition GB_TO_BYTES : Z := 1024 * 1024 * 1024.
Definition MB_TO_BYTES : Z := 1024 * 1024.
Definition MIN_RESERVED_GB : float := Eval vm_compute in decimal 6 10.
Definition DEFAULT_RESERVED_GB : float := Eval vm_compute in decimal 1 1.
Definition MIN_SAFE_RESERVE_GB : float := Eval vm_compute in decimal 2 1.
Definition MAX_RESERVED_RATIO : float := Eval vm_compute in decimal 9 10.

Inductive Status : Type := tight | medium | loose.

(** The dictionary [MEMORY_STRATEGY]; its three keys are the only ones ever
    looked up. *)
Definition MEMORY_STRATEGY (k : Status) : float :=
  Eval vm_compute in
    match k with
    | tight => decimal 8 10
    | medium => decimal 85 100
    | loose => decimal 9 10
    end.

(** A float times one of the integer constants: the integer operand is
    converted to a float first. *)
Definition mul_int (x : float) (n : Z) : float := mul x (of_Z n).

(** True division of an integer by [GB_TO_BYTES] or [MB_TO_BYTES]; both are
    powers of two, the quotient is [z * 2^-k] correctly rounded.  Python
    raises [OverflowError] where the quotient leaves the range of a float,
    from about [2^1054] on; the byte counts of NVML are unsigned 64-bit
    integers and the byte counts that [set_memory] divides come from a
    finite float, so that no division of the code gets there. *)
Definition truediv_GB (z : Z) : float := of_Z_div_pow2 z 30.
Definition truediv_MB (z : Z) : float := of_Z_div_pow2 z 20.

(* ====================================================================== *)
(** ** Data model *)
(* ====================================================================== *)

(** [(total_gb, used_gb, free_gb)], the tuple returned by
    [get_gpu_memory_info]; [None] when telemetry is unavailable. *)
Definition MemoryInfo : Type := (float * float * float)%type.

Definition total_gb (i : MemoryInfo) : float := fst (fst i).
Definition used_gb (i : MemoryInfo) : float := snd (fst i).
Definition free_gb (i : MemoryInfo) : float := snd i.

(** The explanation strings.  Each constructor is one f-string of the
    source with the values it interpolates; the rendering of a float with
    [:.2f] is not modelled. *)
Inductive Detail : Type :=
| ManualLimited (reserved safe_reserved percent : float)
    (* manual mode: reserved -> safe_reserved (limited to percent% of total) *)
| ManualPlain (manual_reserved total used : float)
    (* manual mode: manual_reserved (total, used) *)
| ManualNoGPUInfo (manual_reserved : float)
    (* manual mode: manual_reserved (no GPU info) *)
| AutoLimited (auto_reserved safe_reserved used reserved : float)
    (* auto mode: auto_reserved -> safe_reserved (used + buffer, limited to 85%) *)
| AutoPlain (safe_reserved used reserved : float)
    (* auto mode: safe_reserved (used + buffer) *)
| SmartNoGPUInfo (default_value : float)
    (* smart mode (no GPU info): default_value *)
| SmartDetail (safe_reserved : float) (status : Status)
    (free total percent : float) (adjusted : option (float * float))
    (* smart mode: safe_reserved (status, free/total = percent%) [adjusted: a -> b] *)
| DefaultMode.
    (* the constant string "default mode" *)

(** Whether an explanation states that no device information was there. *)
Definition flags_no_gpu_info (d : Detail) : bool :=
  match d with
  | ManualNoGPUInfo _ | SmartNoGPUInfo _ => true
  | _ => false
  end.

Inductive Level : Type := DEBUG | INFO | WARNING | ERROR.

Inductive ReportLine : Type :=
| LineHeader
| LineGpuFreed (i : Z) (freed : float)
| LineTotalFreed (total_freed : float)
| LineFreed (freed : float)
| LineAggressive
| LineDone
| LineFailed (e : exn).

(** The messages handed to [logger]; one constructor per call site. *)
Inductive Message : Type :=
| MsgGpuCountFailed (e : exn)
| MsgInvalidIndex (gpu_index gpu_count : Z)
| MsgMemoryInfoFailed (gpu_index : Z) (e : exn)
| MsgNameFailed (gpu_index : Z) (e : exn)
| MsgTemperatureFailed (gpu_index : Z) (e : exn)
| MsgUtilizationFailed (gpu_index : Z) (e : exn)
| MsgCudaCacheCleared
| MsgGcDone (collected : Z)
| MsgFreed (freed_gb freed_mb : float)
| MsgNothingFreed
| MsgCleanDone
| MsgCleanFailed (e : exn)
| MsgAllCachesCleared
| MsgAllCachesFailed (e : exn)
| MsgUnknownMode (mode : string)
| MsgDetail (d : Detail)
| MsgAutoFallback
| MsgSmartFallback
| MsgIndexReset (gpu_index : Z)
| MsgGpuUnavailable (gpu_index : Z)
| MsgGpuInfo (gpu_index : Z) (name : option string)
    (memory : option (MemoryInfo * float))
    (temperature utilization : option Z)
| MsgCleanSuccess (freed_gb freed_mb : float)
| MsgApplied (d : Detail)
| MsgReservedSet (reserved_gb reserved_mb : float)
| MsgSetFailed (e : exn) (safe_default : float)
| MsgReport (lines : list ReportLine)
| MsgBatchFailed (e : exn).

(** The part of the process the code acts on: the instant at which the
    devices are observed, the externally owned slot
    [model_management.EXTRA_RESERVED_MEMORY], and what has been logged (the
    latest record first). *)
Record World : Type := {
  clock : nat;
  EXTRA_RESERVED_MEMORY : Z;
  log : list (Level * Message)
}.

Definition logger (l : Level) (m : Message) : M World unit :=
  modify (fun w => {| clock := clock w;
                      EXTRA_RESERVED_MEMORY := EXTRA_RESERVED_MEMORY w;
                      log := (l, m) :: log w |}).

(** Observing or acting on a device takes place at a fresh instant. *)
Definition tick : M World nat :=
  fun w => (Ok (clock w),
            {| clock := S (clock w);
               EXTRA_RESERVED_MEMORY := EXTRA_RESERVED_MEMORY w;
               log := log w |}).

Definition set_EXTRA_RESERVED_MEMORY (b : Z) : M World unit :=
  modify (fun w => {| clock := clock w;
                      EXTRA_RESERVED_MEMORY := b;
                      log := log w |}).

(** The collaborators: the NVML binding, the CUDA runtime, the garbage
    collector and the host's model cache.  Each answer may depend on the
    instant of the call; a call of the NVML binding or of the CUDA runtime
    may raise.  NVML reports the three byte counts of a device as unsigned
    64-bit integers. *)
Record Driver : Type := {
  pynvml_available : bool;
  nvmlDeviceGetCount : Result Z;
  nvmlDeviceGetMemoryInfo : nat -> Z -> Result (Z * Z * Z);
  nvmlDeviceGetName : Z -> Result string;
  nvmlDeviceGetTemperature : nat -> Z -> Result Z;
  nvmlDeviceGetUtilizationRates : nat -> Z -> Result Z;
  cuda_is_available : bool;
  cuda_device_count : Z;
  cuda_empty_cache : nat -> Result unit;
  cuda_empty_cache_on : nat -> Z -> Result unit;
  gc_collect : nat -> Z;
  cleanup_models : option (nat -> Result unit)
}.

(* ====================================================================== *)
(** ** class GPUManager *)
(* ====================================================================== *)

Module GPUManager.

Definition is_available (self : Driver) : bool := pynvml_available self.

Definition get_gpu_count (self : Driver) : M World Z :=
  if negb (pynvml_available self) then
    ret (if cuda_is_available self then cuda_device_count self else 0)
  else
    match nvmlDeviceGetCount self with
    | Ok n => ret n
    | Raise e => logger ERROR (MsgGpuCountFailed e) ;; ret 0
    end.

Definition validate_gpu_index (self : Driver) (gpu_index : Z) : M World bool :=
  gpu_count <- get_gpu_count self ;;
  if (gpu_index <? 0) || (gpu_index >=? gpu_count) then
    logger WARNING (MsgInvalidIndex gpu_index gpu_count) ;;
    ret false
  else ret true.

Definition get_gpu_memory_info (self : Driver) (gpu_index : Z)
  : M World (option MemoryInfo) :=
  if negb (pynvml_available self) then ret None
  else
    valid <- validate_gpu_index self gpu_index ;;
    if negb valid then ret None
    else
      t <- tick ;;
      match nvmlDeviceGetMemoryInfo self t gpu_index with
      | Ok (total, used, free) =>
          ret (Some (truediv_GB total, truediv_GB used, truediv_GB free))
      | Raise e =>
          logger ERROR (MsgMemoryInfoFailed gpu_index e) ;; ret None
      end.

Definition get_gpu_name (self : Driver) (gpu_index : Z)
  : M World (option string) :=
  if negb (pynvml_available self) then ret None
  else
    match nvmlDeviceGetName self gpu_index with
    | Ok name => ret (Some name)
    | Raise e => logger ERROR (MsgNameFailed gpu_index e) ;; ret None
    end.

Definition get_gpu_temperature (self : Driver) (gpu_index : Z)
  : M World (option Z) :=
  if negb (pynvml_available self) then ret None
  else
    w <- get ;;
    match nvmlDeviceGetTemperature self (clock w) gpu_index with
    | Ok temp => ret (Some temp)
    | Raise e => logger DEBUG (MsgTemperatureFailed gpu_index e) ;; ret None
    end.

Definition get_gpu_utilization (self : Driver) (gpu_index : Z)
  : M World (option Z) :=
  if negb (pynvml_available self) then ret None
  else
    w <- get ;;
    match nvmlDeviceGetUtilizationRates self (clock w) gpu_index with
    | Ok u => ret (Some u)
    | Raise e => logger DEBUG (MsgUtilizationFailed gpu_index e) ;; ret None
    end.

Record DetailedInfo : Type := {
  index : Z;
  available : bool;
  name : option string;
  memory : option MemoryInfo;
  temperature : option Z;
  utilization : option Z
}.

Definition get_detailed_info (self : Driver) (gpu_index : Z)
  : M World DetailedInfo :=
  valid <- validate_gpu_index self gpu_index ;;
  if negb valid then
    ret {| index := gpu_index; available := false; name := None;
           memory := None; temperature := None; utilization := None |}
  else
    n <- get_gpu_name self gpu_index ;;
    m <- get_gpu_memory_info self gpu_index ;;
    t <- get_gpu_temperature self gpu_index ;;
    u <- get_gpu_utilization self gpu_index ;;
    ret {| index := gpu_index; available := true; name := n;
           memory := m; temperature := t; utilization := u |}.

End GPUManager.

(* ====================================================================== *)
(** ** class MemoryCleaner *)
(* ====================================================================== *)

Module MemoryCleaner.

(** The dictionary returned by [clear_gpu_memory]. *)
Record CleanResult : Type := {
  success : bool;
  torch_cuda : bool;
  gc_collected : Z;
  before_memory : option MemoryInfo;
  after_memory : option MemoryInfo;
  freed_memory_gb : float;
  freed_memory_mb : float
}.

Definition initial : CleanResult :=
  {| success := false; torch_cuda := false; gc_collected := 0;
     before_memory := None; after_memory := None;
     freed_memory_gb := S754_zero false;
     freed_memory_mb := S754_zero false |}.

Definition set_success (b : bool) (r : CleanResult) : CleanResult :=
  {| success := b; torch_cuda := torch_cuda r;
     gc_collected := gc_collected r; before_memory := before_memory r;
     after_memory := after_memory r; freed_memory_gb := freed_memory_gb r;
     freed_memory_mb := freed_memory_mb r |}.

Definition set_torch_cuda (b : bool) (r : CleanResult) : CleanResult :=
  {| success := success r; torch_cuda := b;
     gc_collected := gc_collected r; before_memory := before_memory r;
     after_memory := after_memory r; freed_memory_gb := freed_memory_gb r;
     freed_memory_mb := freed_memory_mb r |}.

Definition set_gc_collected (n : Z) (r : CleanResult) : CleanResult :=
  {| success := success r; torch_cuda := torch_cuda r;
     gc_collected := n; before_memory := before_memory r;
     after_memory := after_memory r; freed_memory_gb := freed_memory_gb r;
     freed_memory_mb := freed_memory_mb r |}.

Definition set_before_memory (i : option MemoryInfo) (r : CleanResult)
  : CleanResult :=
  {| success := success r; torch_cuda := torch_cuda r;
     gc_collected := gc_collected r; before_memory := i;
     after_memory := after_memory r; freed_memory_gb := freed_memory_gb r;
     freed_memory_mb := freed_memory_mb r |}.

Definition set_after_memory (i : option MemoryInfo) (r : CleanResult)
  : CleanResult :=
  {| success := success r; torch_cuda := torch_cuda r;
     gc_collected := gc_collected r; before_memory := before_memory r;
     after_memory := i; freed_memory_gb := freed_memory_gb r;
     freed_memory_mb := freed_memory_mb r |}.

Definition set_freed (gb mb : float) (r : CleanResult) : CleanResult :=
  {| success := success r; torch_cuda := torch_cuda r;
     gc_collected := gc_collected r; before_memory := before_memory r;
     after_memory := after_memory r; freed_memory_gb := gb;
     freed_memory_mb := mb |}.

(** The body of the [try] block; the dictionary [result] is the local
    object. *)
Definition clear_body (gpu_manager : Driver) (gpu_index : Z)
  : M (CleanResult * World) unit :=
  (if cuda_is_available gpu_manager then
     (* torch.cuda.empty_cache(); torch.cuda.synchronize() *)
     t <- zoom tick ;;
     lift_result (cuda_empty_cache gpu_manager t) ;;
     update (set_torch_cuda true) ;;
     zoom (logger INFO MsgCudaCacheCleared)
   else ret tt) ;;
  w <- zoom get ;;
  let collected := gc_collect gpu_manager (clock w) in
  update (set_gc_collected collected) ;;
  zoom (logger INFO (MsgGcDone collected)) ;;
  after <- zoom (GPUManager.get_gpu_memory_info gpu_manager gpu_index) ;;
  update (set_after_memory after) ;;
  result <- local ;;
  match before_memory result, after_memory result with
  | Some before, Some after =>
      let used_before := used_gb before in
      let used_after := used_gb after in
      let freed_gb := sub used_before used_after in
      let freed_mb := mul_int freed_gb 1024 in
      update (set_freed freed_gb freed_mb) ;;
      update (set_success true) ;;
      if gtb freed_gb (of_Z 0) then
        zoom (logger INFO (MsgFreed freed_gb freed_mb))
      else
        zoom (logger INFO MsgNothingFreed)
  | _, _ =>
      update (set_success true) ;;
      zoom (logger INFO MsgCleanDone)
  end.

Definition clear_gpu_memory (gpu_manager : Driver) (gpu_index : Z)
  : M World CleanResult :=
  with_local initial
    (before <- zoom (GPUManager.get_gpu_memory_info gpu_manager gpu_index) ;;
     update (set_before_memory before) ;;
     try_except (clear_body gpu_manager gpu_index)
       (fun e =>
          zoom (logger ERROR (MsgCleanFailed e)) ;;
          update (set_success false)) ;;
     local).

Fixpoint empty_cache_each (gpu_manager : Driver) (devices : list Z)
  : M World unit :=
  match devices with
  | [] => ret tt
  | i :: rest =>
      t <- tick ;;
      lift_result (cuda_empty_cache_on gpu_manager t i) ;;
      empty_cache_each gpu_manager rest
  end.

(** [range(n)] as a list. *)
Definition range (n : Z) : list Z := map Z.of_nat (seq 0 (Z.to_nat n)).

(** The call of [gc.collect()] that ends the [try] block changes nothing
    that the model observes. *)
Definition clear_all_caches (gpu_manager : Driver) : M World unit :=
  try_except
    ((if cuda_is_available gpu_manager then
        empty_cache_each gpu_manager (range (cuda_device_count gpu_manager))
      else ret tt) ;;
     match cleanup_models gpu_manager with
     | Some f => t <- tick ;; lift_result (f t)
     | None => ret tt
     end ;;
     logger INFO MsgAllCachesCleared)
    (fun e => logger ERROR (MsgAllCachesFailed e)).

End MemoryCleaner.

(* ====================================================================== *)
(** ** class MemoryStrategyCalculator *)
(* ====================================================================== *)

(** What [calculate_reserved_memory] needs of its [gpu_manager] argument:
    an object with a [get_gpu_memory_info] method. *)
Record ManagerObject : Type := {
  obj_get_gpu_memory_info : Z -> M World (option MemoryInfo)
}.

(** The singleton [GPUManager] seen as such an object. *)
Definition manager_of (d : Driver) : ManagerObject :=
  {| obj_get_gpu_memory_info := GPUManager.get_gpu_memory_info d |}.

Module MemoryStrategyCalculator.

(** [int(value * GB_TO_BYTES)]. *)
Definition to_bytes (value : float) : Result Z :=
  py_int (mul_int value GB_TO_BYTES).

Definition _manual_mode (reserved min_safe_reserve : float)
    (memory_info : option MemoryInfo) : M World (Z * Detail) :=
  let manual_reserved := py_max reserved min_safe_reserve in
  match memory_info with
  | Some (total_gb, used_gb, free_gb) =>
      let max_allowed := mul total_gb MAX_RESERVED_RATIO in
      if gtb manual_reserved max_allowed then
        let safe_reserved := max_allowed in
        let detail :=
          ManualLimited reserved safe_reserved
            (mul_int MAX_RESERVED_RATIO 100) in
        logger WARNING (MsgDetail detail) ;;
        b <- lift_result (to_bytes safe_reserved) ;;
        ret (b, detail)
      else
        let detail := ManualPlain manual_reserved total_gb used_gb in
        b <- lift_result (to_bytes manual_reserved) ;;
        ret (b, detail)
  | None =>
      let detail := ManualNoGPUInfo manual_reserved in
      b <- lift_result (to_bytes manual_reserved) ;;
      ret (b, detail)
  end.

Definition _auto_mode (reserved min_safe_reserve : float)
    (memory_info : option MemoryInfo) : M World (Z * Detail) :=
  match memory_info with
  | None =>
      logger WARNING MsgAutoFallback ;;
      _manual_mode reserved min_safe_reserve None
  | Some (total_gb, used_gb, free_gb) =>
      let auto_reserved := add used_gb reserved in
      let auto_reserved := py_max auto_reserved min_safe_reserve in
      let max_allowed := mul total_gb (decimal 85 100) in
      let safe_reserved := py_min auto_reserved max_allowed in
      let detail :=
        if neqb auto_reserved safe_reserved then
          AutoLimited auto_reserved safe_reserved used_gb reserved
        else
          AutoPlain safe_reserved used_gb reserved in
      b <- lift_result (to_bytes safe_reserved) ;;
      ret (b, detail)
  end.

Definition _smart_mode (reserved min_safe_reserve : float)
    (memory_info : option MemoryInfo) : M World (Z * Detail) :=
  match memory_info with
  | None =>
      logger WARNING MsgSmartFallback ;;
      let default_value :=
        py_max (add reserved (decimal 1 1)) min_safe_reserve in
      b <- lift_result (to_bytes default_value) ;;
      ret (b, SmartNoGPUInfo default_value)
  | Some (total_gb, used_gb, free_gb) =>
      available_ratio <- lift_result (py_div free_gb total_gb) ;;
      let base_reserved := add used_gb reserved in
      let '(smart_reserved, status) :=
        if ltb available_ratio (decimal 2 10) then
          let strategy_ratio := MEMORY_STRATEGY tight in
          (py_max base_reserved (mul total_gb strategy_ratio), tight)
        else if ltb available_ratio (decimal 4 10) then
          (base_reserved, medium)
        else
          (py_max base_reserved min_safe_reserve, loose) in
      let smart_reserved := py_max smart_reserved min_safe_reserve in
      let max_allowed := mul total_gb MAX_RESERVED_RATIO in
      let safe_reserved := py_min smart_reserved max_allowed in
      let detail :=
        SmartDetail safe_reserved status free_gb total_gb
          (mul_int available_ratio 100)
          (if neqb smart_reserved safe_reserved
           then Some (smart_reserved, safe_reserved) else None) in
      b <- lift_result (to_bytes safe_reserved) ;;
      ret (b, detail)
  end.

Definition calculate_reserved_memory (reserved : float) (mode : string)
    (gpu_index : Z) (min_safe_reserve : float)
    (gpu_manager : ManagerObject) : M World (Z * Detail) :=
  memory_info <- obj_get_gpu_memory_info gpu_manager gpu_index ;;
  if String.eqb mode "manual" then
    _manual_mode reserved min_safe_reserve memory_info
  else if String.eqb mode "auto" then
    _auto_mode reserved min_safe_reserve memory_info
  else if String.eqb mode "smart" then
    _smart_mode reserved min_safe_reserve memory_info
  else
    logger WARNING (MsgUnknownMode mode) ;;
    b <- lift_result (to_bytes (py_max reserved min_safe_reserve)) ;;
    ret (b, DefaultMode).

End MemoryStrategyCalculator.

(* ====================================================================== *)
(** ** class ReservedMemorySetter *)
(* ====================================================================== *)

Module ReservedMemorySetter.

Definition _show_gpu_info (gpu_manager : Driver) (gpu_index : Z)
  : M World unit :=
  info <- GPUManager.get_detailed_info gpu_manager gpu_index ;;
  if negb (GPUManager.available info) then
    logger WARNING (MsgGpuUnavailable gpu_index)
  else
    mem <-
      match GPUManager.memory info with
      | Some (total_gb, used_gb, free_gb) =>
          q <- lift_result (py_div used_gb total_gb) ;;
          let usage_percent := mul_int q 100 in
          ret (Some ((total_gb, used_gb, free_gb), usage_percent))
      | None => ret None
      end ;;
    logger INFO
      (MsgGpuInfo gpu_index
         (match GPUManager.name info with
          | Some EmptyString => None
          | n => n
          end)
         mem (GPUManager.temperature info) (GPUManager.utilization info)).

(** The statements of the [try] block that follow the validation of the
    index. *)
Definition set_memory_body (gpu_manager : Driver) (reserved : float)
    (mode : string) (gpu_index : Z) (min_safe_reserve : float)
    (clear_memory show_gpu_info : bool) : M World unit :=
  (if show_gpu_info then _show_gpu_info gpu_manager gpu_index
   else ret tt) ;;
  (if clear_memory then
     clean_result <- MemoryCleaner.clear_gpu_memory gpu_manager gpu_index ;;
     if MemoryCleaner.success clean_result
        && gtb (MemoryCleaner.freed_memory_gb clean_result) (of_Z 0)
     then
       logger INFO
         (MsgCleanSuccess (MemoryCleaner.freed_memory_gb clean_result)
            (MemoryCleaner.freed_memory_mb clean_result))
     else ret tt
   else ret tt) ;;
  '(reserved_bytes, detail) <-
    MemoryStrategyCalculator.calculate_reserved_memory
      reserved mode gpu_index min_safe_reserve (manager_of gpu_manager) ;;
  set_EXTRA_RESERVED_MEMORY reserved_bytes ;;
  let reserved_gb := truediv_GB reserved_bytes in
  logger INFO (MsgApplied detail) ;;
  logger INFO (MsgReservedSet reserved_gb (truediv_MB reserved_bytes)).

(** The [except Exception as e] clause of [set_memory]. *)
Definition set_memory_except (min_safe_reserve : float) (e : exn)
  : M World unit :=
  let safe_default := py_max DEFAULT_RESERVED_GB min_safe_reserve in
  b <- lift_result (MemoryStrategyCalculator.to_bytes safe_default) ;;
  set_EXTRA_RESERVED_MEMORY b ;;
  logger ERROR (MsgSetFailed e safe_default).

Definition set_memory {A : Type} (gpu_manager : Driver) (anything : A)
    (reserved : float) (mode : string) (gpu_index : Z)
    (min_safe_reserve : float) (clear_memory show_gpu_info : bool)
  : M World A :=
  try_except
    (valid <- GPUManager.validate_gpu_index gpu_manager gpu_index ;;
     gpu_index <-
       (if negb valid then
          logger ERROR (MsgIndexReset gpu_index) ;; ret 0
        else ret gpu_index) ;;
     set_memory_body gpu_manager reserved mode gpu_index min_safe_reserve
       clear_memory show_gpu_info)
    (set_memory_except min_safe_reserve) ;;
  ret anything.

End ReservedMemorySetter.

(* ====================================================================== *)
(** ** class BatchMemoryCleaner *)
(* ====================================================================== *)

Module BatchMemoryCleaner.

Definition append (l : ReportLine) : M (list ReportLine * float * World) unit :=
  update (fun s => (fst s ++ [l], snd s)).

(** The loop [for i in range(gpu_count)]; the local objects are the list
    [report_lines] and the accumulator [total_freed]. *)
Fixpoint clean_each (gpu_manager : Driver) (devices : list Z)
  : M (list ReportLine * float * World) unit :=
  match devices with
  | [] => ret tt
  | i :: rest =>
      result <- zoom (MemoryCleaner.clear_gpu_memory gpu_manager i) ;;
      (if MemoryCleaner.success result then
         let freed := MemoryCleaner.freed_memory_gb result in
         update (fun s => (fst s, add (snd s) freed)) ;;
         append (LineGpuFreed i freed)
       else ret tt) ;;
      clean_each gpu_manager rest
  end.

Definition clean {A : Type} (gpu_manager : Driver) (anything : A)
    (clear_all_gpus aggressive : bool) : M World (A * list ReportLine) :=
  with_local ([LineHeader], S754_zero false)
    (try_except
       ((if clear_all_gpus then
           let gpu_count :=
             if cuda_is_available gpu_manager
             then cuda_device_count gpu_manager else 0 in
           clean_each gpu_manager (MemoryCleaner.range gpu_count) ;;
           s <- local ;;
           append (LineTotalFreed (snd s))
         else
           result <- zoom (MemoryCleaner.clear_gpu_memory gpu_manager 0) ;;
           if MemoryCleaner.success result then
             append (LineFreed (MemoryCleaner.freed_memory_gb result))
           else ret tt) ;;
        (if aggressive then
           zoom (MemoryCleaner.clear_all_caches gpu_manager) ;;
           append LineAggressive
         else ret tt) ;;
        append LineDone ;;
        s <- local ;;
        zoom (logger INFO (MsgReport (fst s))))
       (fun e =>
          append (LineFailed e) ;;
          zoom (logger ERROR (MsgBatchFailed e))) ;;
     s <- local ;;
     ret (anything, fst s)).

End BatchMemoryCleaner.

(* ====================================================================== *)
(** ** Vocabulary of the specification *)
(* ====================================================================== *)

(** A float of the binary64 format ([spec_float] also holds mantissas and
    exponents that no Python float has). *)
Definition valid (x : float) : bool := valid_binary prec emax x.

Definition zero : float := S754_zero false.

(** [0.0 <= x]: not NaN and not negative. *)
Definition nonneg (x : float) : bool := leb zero x.

(** A well-formed GB quantity: a non-negative float. *)
Definition wf (x : float) : bool := valid x && nonneg x.

Definition wf_snapshot (s : option MemoryInfo) : bool :=
  match s with
  | None => true
  | Some (total, used, free) => wf total && wf used && wf free
  end.

(** The byte count of a result, without its explanation. *)
Definition result_bytes (r : Result (Z * Detail)) : Result Z :=
  match r with
  | Ok (b, _) => Ok b
  | Raise e => Raise e
  end.

Definition result_detail (r : Result (Z * Detail)) : option Detail :=
  match r with
  | Ok (_, d) => Some d
  | Raise _ => None
  end.

(** A manager whose telemetry answer is fixed: a test double. *)
Definition constant_manager (s : option MemoryInfo) : ManagerObject :=
  {| obj_get_gpu_memory_info := fun _ => ret s |}.

Definition known_mode (mode : string) : bool :=
  String.eqb mode "manual" || String.eqb mode "auto" || String.eqb mode "smart".

(** The ceiling that a mode applies to the reservation, as a fraction of
    the total. *)
Definition ceiling_ratio (mode : string) : float :=
  if String.eqb mode "auto" then decimal 85 100 else MAX_RESERVED_RATIO.

(** The floor survives the ceiling of a recognised mode only when it lies
    under that ceiling. *)
Definition floor_applies (mode : string) (min_safe_reserve : float)
    (snapshot : option MemoryInfo) : bool :=
  match snapshot with
  | None => true
  | Some (total, _, _) =>
      if known_mode mode then
        leb min_safe_reserve (mul total (ceiling_ratio mode))
      else true
  end.

(** Manual mode leaves [max(target, min_safe)] as it is. *)
Definition manual_unclamped (reserved min_safe_reserve : float)
    (snapshot : option MemoryInfo) : bool :=
  match snapshot with
  | None => true
  | Some (total, _, _) =>
      negb (gtb (py_max reserved min_safe_reserve)
              (mul total MAX_RESERVED_RATIO))
  end.

(** The three bands of smart mode as the specification words them. *)
Definition band_of (available_ratio : float) : option Status :=
  if ltb available_ratio (decimal 2 10) then Some tight
  else if leb (decimal 2 10) available_ratio
          && ltb available_ratio (decimal 4 10) then Some medium
  else if leb (decimal 4 10) available_ratio then Some loose
  else None.

Definition smart_value_spec (target_gb min_safe_gb : float) (i : MemoryInfo)
  : option float :=
  let available_ratio := SFdiv prec emax (free_gb i) (total_gb i) in
  match band_of available_ratio with
  | None => None
  | Some b =>
      let value :=
        match b with
        | tight => py_max (add (used_gb i) target_gb)
                     (mul (total_gb i) (decimal 80 100))
        | medium => add (used_gb i) target_gb
        | loose => py_max (add (used_gb i) target_gb) min_safe_gb
        end in
      let value := py_max value min_safe_gb in
      Some (py_min value (mul (total_gb i) (decimal 9 10)))
  end.

(** The auto-mode value as the specification words it. *)
Definition auto_value_spec (target_gb min_safe_gb : float) (i : MemoryInfo)
  : float :=
  py_min (py_max (add (used_gb i) target_gb) min_safe_gb)
    (mul (total_gb i) (decimal 85 100)).

(** The [except] clause of [set_memory] can itself convert its default. *)
Definition fallback_defined (min_safe_reserve : float) : bool :=
  match MemoryStrategyCalculator.to_bytes
          (py_max DEFAULT_RESERVED_GB min_safe_reserve) with
  | Ok _ => true
  | Raise _ => false
  end.

(** The release step of a reclaim does not raise at instant [t]. *)
Definition release_ok (d : Driver) (t : nat) : bool :=
  if cuda_is_available d then
    match cuda_empty_cache d t with Ok _ => true | Raise _ => false end
  else true.

(** The last statement of every branch of the calculator:
    [return int(value * GB_TO_BYTES), detail]. *)
Definition convert (value : float) (detail : Detail) : Result (Z * Detail) :=
  match MemoryStrategyCalculator.to_bytes value with
  | Ok b => Ok (b, detail)
  | Raise e => Raise e
  end.

(** What a call of the calculator may end in: a byte count with the stated
    property, or the failure of a division by a zero total or of the
    conversion of a value too large for an integer. *)
Definition outcome_satisfies (P : Z -> Prop) (r : Result (Z * Detail)) : Prop :=
  match r with
  | Ok (b, _) => P b
  | Raise e => e = OverflowError \/ e = ZeroDivisionError
  end.

(** The byte count is at least the converted floor. *)
Definition floor_holds (min_safe_reserve : float) (r : Result (Z * Detail))
  : Prop :=
  outcome_satisfies
    (fun b =>
       exists fl,
         MemoryStrategyCalculator.to_bytes min_safe_reserve = Ok fl /\ fl <= b)
    r.

(** The byte count is at most the converted ceiling; a ceiling too large
    to be converted bounds nothing. *)
Definition ceiling_holds (cap : float) (r : Result (Z * Detail)) : Prop :=
  outcome_satisfies
    (fun b => forall c, MemoryStrategyCalculator.to_bytes cap = Ok c -> b <= c)
    r.

Definition nonneg_holds (r : Result (Z * Detail)) : Prop :=
  outcome_satisfies (fun b => 0 <= b) r.

(** The explanation of a result does not report missing device
    information. *)
Definition never_fallback (r : Result (Z * Detail)) : Prop :=
  match result_detail r with
  | Some d => flags_no_gpu_info d = false
  | None => True
  end.

(** A value that [to_bytes] converts. *)
Definition convertible (x : float) : bool :=
  match MemoryStrategyCalculator.to_bytes x with
  | Ok _ => true
  | Raise _ => false
  end.

(** The value that the calculator settles on when there is no snapshot. *)
Definition value_without_snapshot (reserved : float) (mode : string)
    (min_safe_reserve : float) : float :=
  if String.eqb mode "smart" then
    py_max (add reserved (decimal 1 1)) min_safe_reserve
  else py_max reserved min_safe_reserve.

(** The value that the calculator settles on with the snapshot [i], each
    field of [i] taken as it is; smart mode divides by the total. *)
Definition value_with_snapshot (reserved : float) (mode : string)
    (min_safe_reserve : float) (i : MemoryInfo) : Result float :=
  if String.eqb mode "manual" then
    let manual_reserved := py_max reserved min_safe_reserve in
    let max_allowed := mul (total_gb i) MAX_RESERVED_RATIO in
    Ok (if gtb manual_reserved max_allowed then max_allowed
        else manual_reserved)
  else if String.eqb mode "auto" then
    Ok (py_min (py_max (add (used_gb i) reserved) min_safe_reserve)
          (mul (total_gb i) (decimal 85 100)))
  else if String.eqb mode "smart" then
    match py_div (free_gb i) (total_gb i) with
    | Raise e => Raise e
    | Ok available_ratio =>
        let base_reserved := add (used_gb i) reserved in
        let smart_reserved :=
          if ltb available_ratio (decimal 2 10) then
            py_max base_reserved (mul (total_gb i) (MEMORY_STRATEGY tight))
          else if ltb available_ratio (decimal 4 10) then base_reserved
          else py_max base_reserved min_safe_reserve in
        Ok (py_min (py_max smart_reserved min_safe_reserve)
              (mul (total_gb i) MAX_RESERVED_RATIO))
    end
  else Ok (py_max reserved min_safe_reserve).

Definition settled_value (reserved : float) (mode : string)
    (min_safe_reserve : float) (snapshot : option MemoryInfo)
  : Result float :=
  match snapshot with
  | Some i => value_with_snapshot reserved mode min_safe_reserve i
  | None => Ok (value_without_snapshot reserved mode min_safe_reserve)
  end.

(** [int(value * GB_TO_BYTES)] of a settled value. *)
Definition settled_bytes (settled : Result float) : Result Z :=
  match settled with
  | Ok v => MemoryStrategyCalculator.to_bytes v
  | Raise e => Raise e
  end.

(** A snapshot whose total is zero. *)
Definition zero_total (snapshot : option MemoryInfo) : bool :=
  match snapshot with
  | Some (total, _, _) => is_zero total
  | None => false
  end.

(** How a call of the calculator ends: with a byte count that has the
    stated property; with [ZeroDivisionError], in smart mode on a snapshot
    whose total is zero; or with [OverflowError], when the settled value is
    too large to be converted. *)
Definition ends_as_claimed (P : Z -> Prop) (mode : string)
    (snapshot : option MemoryInfo) (settled : Result float)
    (r : Result (Z * Detail)) : Prop :=
  match r with
  | Ok (b, _) => P b
  | Raise e =>
      (e = ZeroDivisionError /\ mode = "smart"%string /\
       zero_total snapshot = true) \/
      (e = OverflowError /\
       exists v, settled = Ok v /\ convertible v = false)
  end.

(** The world after one more log record. *)
Definition log_record (l : Level) (m : Message) (w : World) : World :=
  {| clock := clock w;
     EXTRA_RESERVED_MEMORY := EXTRA_RESERVED_MEMORY w;
     log := (l, m) :: log w |}.

(** What telemetry answers in a given world. *)
Definition telemetry (d : Driver) (idx : Z) (w : World) : option MemoryInfo :=
  match fst (GPUManager.get_gpu_memory_info d idx w) with
  | Ok o => o
  | Raise _ => None
  end.

(** *** Rounding, as the proofs see it *)

(** A mantissa shifted right by [n] bits, with the two bits that record
    what was shifted out, and the same rounded to nearest, ties to even. *)
Definition shifted (m : Z) (n : nat) : shr_record :=
  Nat.iter n shr_1 (Build_shr_record m false false).

Definition rnd (m : Z) (n : nat) : Z :=
  round_nearest_even (shr_m (shifted m n)) (loc_of_shr_record (shifted m n)).

(** The value of a non-negative float in units of [2^-1074], the infinity
    counting as [2^1024]. *)
Definition val (x : float) : Z :=
  match x with
  | S754_finite _ m e => Zpos m * 2 ^ (e + 1074)
  | S754_infinity _ => 2 ^ 2098
  | _ => 0
  end.

(** *** Sample worlds and collaborators *)

Definition w0 : World :=
  {| clock := 0; EXTRA_RESERVED_MEMORY := 0; log := [] |}.

(** A host without NVML and without CUDA. *)
Definition no_gpu : Driver :=
  {| pynvml_available := false;
     nvmlDeviceGetCount := Raise NVMLError;
     nvmlDeviceGetMemoryInfo := fun _ _ => Raise NVMLError;
     nvmlDeviceGetName := fun _ => Raise NVMLError;
     nvmlDeviceGetTemperature := fun _ _ => Raise NVMLError;
     nvmlDeviceGetUtilizationRates := fun _ _ => Raise NVMLError;
     cuda_is_available := false;
     cuda_device_count := 0;
     cuda_empty_cache := fun _ => Ok tt;
     cuda_empty_cache_on := fun _ _ => Ok tt;
     gc_collect := fun _ => 0;
     cleanup_models := None |}.

(** A host without NVML whose CUDA runtime fails when asked to release its
    cache. *)
Definition broken_cuda : Driver :=
  {| pynvml_available := false;
     nvmlDeviceGetCount := Raise NVMLError;
     nvmlDeviceGetMemoryInfo := fun _ _ => Raise NVMLError;
     nvmlDeviceGetName := fun _ => Raise NVMLError;
     nvmlDeviceGetTemperature := fun _ _ => Raise NVMLError;
     nvmlDeviceGetUtilizationRates := fun _ _ => Raise NVMLError;
     cuda_is_available := true;
     cuda_device_count := 1;
     cuda_empty_cache := fun _ => Raise RuntimeError;
     cuda_empty_cache_on := fun _ _ => Raise RuntimeError;
     gc_collect := fun _ => 0;
     cleanup_models := None |}.

(** One 24 GB device; 10 GB are in use at every instant but the first,
    where 8 GB are. *)
Definition one_gpu : Driver :=
  {| pynvml_available := true;
     nvmlDeviceGetCount := Ok 1;
     nvmlDeviceGetMemoryInfo := fun t _ =>
       match t with
       | O => Ok (24 * GB_TO_BYTES, 8 * GB_TO_BYTES, 16 * GB_TO_BYTES)
       | _ => Ok (24 * GB_TO_BYTES, 10 * GB_TO_BYTES, 14 * GB_TO_BYTES)
       end;
     nvmlDeviceGetName := fun _ => Ok "GPU"%string;
     nvmlDeviceGetTemperature := fun _ _ => Ok 40;
     nvmlDeviceGetUtilizationRates := fun _ _ => Ok 0;
     cuda_is_available := true;
     cuda_device_count := 1;
     cuda_empty_cache := fun _ => Ok tt;
     cuda_empty_cache_on := fun _ _ => Ok tt;
     gc_collect := fun _ => 0;
     cleanup_models := None |}.

(* ====================================================================== *)
(** ** class GPUMemoryMonitor *)
(* ====================================================================== *)

Module GPUMemoryMonitor.

(** The lines that [monitor] joins into its text, one constructor per
    f-string of the source; [LineModel None] stands for the line that shows
    the placeholder of a missing name. *)
Inductive Line : Type :=
| LineStatus (gpu_index : Z)
| LineModel (name : option string)
| LineTotal (total_gb : float)
| LineUsed (used_gb usage_percent : float)
| LineFree (free_gb : float)
| LineTemperature (temperature : Z)
| LineUtilization (utilization : Z).

(** The three texts that [monitor] can return. *)
Inductive Text : Type :=
| Paused
| Unavailable (gpu_index : Z)
| Joined (lines : list Line).

(** What the node hands to [logger]; these records are kept in a journal
    of their own, beside the world. *)
Definition Journal : Type := list (Level * Text).

Definition monitor (gpu_manager : Driver) (gpu_index : Z) (refresh : bool)
  : M (Journal * World) Text :=
  if negb refresh then ret Paused
  else
    info <- zoom (GPUManager.get_detailed_info gpu_manager gpu_index) ;;
    if negb (GPUManager.available info) then ret (Unavailable gpu_index)
    else
      let lines :=
        [LineStatus gpu_index;
         LineModel (match GPUManager.name info with
                    | Some EmptyString => None
                    | n => n
                    end)] in
      lines <-
        match GPUManager.memory info with
        | Some (total_gb, used_gb, free_gb) =>
            q <- lift_result (py_div used_gb total_gb) ;;
            let usage_percent := mul_int q 100 in
            ret (lines ++ [LineTotal total_gb;
                           LineUsed used_gb usage_percent;
                           LineFree free_gb])
        | None => ret lines
        end ;;
      let lines :=
        match GPUManager.temperature info with
        | Some t => lines ++ [LineTemperature t]
        | None => lines
        end in
      let lines :=
        match GPUManager.utilization info with
        | Some u => lines ++ [LineUtilization u]
        | None => lines
        end in
      let info_text := Joined lines in
      update (cons (INFO, info_text)) ;;
      ret info_text.

End GPUMemoryMonitor.

(* ====================================================================== *)
(** ** The singleton: construction of [GPUManager] and [cleanup] *)
(* ====================================================================== *)

Module Singleton.

(** What [import pynvml] does: the first [except] clause of
    [_initialize_pynvml] takes an [ImportError], the second one anything
    else. *)
Inductive ImportOutcome : Type :=
| Imported
| RaisesImportError
| RaisesOther (e : exn).

(** The NVML binding as the life cycle meets it.  The outcome of a
    shutdown may depend on the calls made before it. *)
Record Library : Type := {
  import_pynvml : ImportOutcome;
  nvmlInit : Result unit;
  nvmlShutdown : nat -> Result unit
}.

Inductive Call : Type := CallInit | CallShutdown.

Inductive Notice : Type :=
| NoticeInitialized
| NoticeNotInstalled
| NoticeInitFailed (e : exn)
| NoticeClosed
| NoticeCloseFailed (e : exn)
| NoticeCleanupFailed (e : exn).

(** The class attributes [_instance] and [_initialized], the attributes
    [pynvml] and [_pynvml_available] of the one instance (both read only
    after [__init__] has set them), the calls made to NVML and the log
    records, the latest first.  The locks are not modelled: the calls of a
    run follow one another. *)
Record Process : Type := {
  _instance : bool;
  _initialized : bool;
  pynvml : bool;
  _pynvml_available : bool;
  calls : list Call;
  notices : list (Level * Notice)
}.

Definition start : Process :=
  {| _instance := false; _initialized := false; pynvml := false;
     _pynvml_available := false; calls := []; notices := [] |}.

Definition set_instance (b : bool) (p : Process) : Process :=
  {| _instance := b; _initialized := _initialized p; pynvml := pynvml p;
     _pynvml_available := _pynvml_available p; calls := calls p;
     notices := notices p |}.

Definition set_initialized (b : bool) (p : Process) : Process :=
  {| _instance := _instance p; _initialized := b; pynvml := pynvml p;
     _pynvml_available := _pynvml_available p; calls := calls p;
     notices := notices p |}.

Definition set_pynvml (b : bool) (p : Process) : Process :=
  {| _instance := _instance p; _initialized := _initialized p; pynvml := b;
     _pynvml_available := _pynvml_available p; calls := calls p;
     notices := notices p |}.

Definition set_pynvml_available (b : bool) (p : Process) : Process :=
  {| _instance := _instance p; _initialized := _initialized p;
     pynvml := pynvml p; _pynvml_available := b; calls := calls p;
     notices := notices p |}.

Definition call (c : Call) : M Process unit :=
  modify (fun p =>
    {| _instance := _instance p; _initialized := _initialized p;
       pynvml := pynvml p; _pynvml_available := _pynvml_available p;
       calls := c :: calls p; notices := notices p |}).

Definition notice (l : Level) (n : Notice) : M Process unit :=
  modify (fun p =>
    {| _instance := _instance p; _initialized := _initialized p;
       pynvml := pynvml p; _pynvml_available := _pynvml_available p;
       calls := calls p; notices := (l, n) :: notices p |}).

Definition __new__ : M Process unit :=
  p <- get ;;
  if negb (_instance p) then modify (set_instance true) else ret tt.

Definition _initialize_pynvml (lib : Library) : M Process unit :=
  match import_pynvml lib with
  | Imported =>
      modify (set_pynvml true) ;;
      call CallInit ;;
      match nvmlInit lib with
      | Ok _ =>
          modify (set_pynvml_available true) ;;
          notice INFO NoticeInitialized
      | Raise e =>
          modify (set_pynvml_available false) ;;
          notice ERROR (NoticeInitFailed e)
      end
  | RaisesImportError =>
      modify (set_pynvml_available false) ;;
      notice WARNING NoticeNotInstalled
  | RaisesOther e =>
      modify (set_pynvml_available false) ;;
      notice ERROR (NoticeInitFailed e)
  end.

Definition __init__ (lib : Library) : M Process unit :=
  p <- get ;;
  if negb (_initialized p) then
    modify (set_pynvml false) ;;
    modify (set_pynvml_available false) ;;
    _initialize_pynvml lib ;;
    modify (set_initialized true)
  else ret tt.

(** The expression [GPUManager()]. *)
Definition GPUManager (lib : Library) : M Process unit :=
  __new__ ;; __init__ lib.

Definition is_available : M Process bool :=
  p <- get ;; ret (_pynvml_available p).

(** The method [GPUManager.cleanup]. *)
Definition cleanup (lib : Library) : M Process unit :=
  p <- get ;;
  if _pynvml_available p && pynvml p then
    call CallShutdown ;;
    match nvmlShutdown lib (List.length (calls p)) with
    | Ok _ => notice INFO NoticeClosed
    | Raise e => notice ERROR (NoticeCloseFailed e)
    end
  else ret tt.

End Singleton.

(** The function [cleanup] of the module, registered with [atexit]. *)
Definition cleanup (lib : Singleton.Library) : M Singleton.Process unit :=
  try_except
    (Singleton.GPUManager lib ;; Singleton.cleanup lib)
    (fun e => Singleton.notice ERROR (Singleton.NoticeCleanupFailed e)).

(** What a program does with the singleton: it builds the manager (every
    node constructor does) or runs the module's [cleanup]. *)
Inductive Op : Type := OpGPUManager | OpCleanup.

Definition run_op (lib : Singleton.Library) (o : Op)
  : M Singleton.Process unit :=
  match o with
  | OpGPUManager => Singleton.GPUManager lib
  | OpCleanup => cleanup lib
  end.

Fixpoint run_ops (lib : Singleton.Library) (ops : list Op)
  : M Singleton.Process unit :=
  match ops with
  | [] => ret tt
  | o :: rest => run_op lib o ;; run_ops lib rest
  end.

(* ====================================================================== *)
(** ** The declared inputs of [ReservedMemorySetter] *)
(* ====================================================================== *)

Module Widget.

(** A [FLOAT] entry of [INPUT_TYPES]. *)
Record Float : Type := {
  default : float;
  min : float;
  max : float;
  step : float
}.

(** An [INT] entry of [INPUT_TYPES]. *)
Record Int : Type := {
  int_default : Z;
  int_min : Z;
  int_max : Z;
  int_step : Z
}.

(** The host only passes values inside the declared bounds. *)
Definition admits (w : Float) (x : float) : bool :=
  leb (min w) x && leb x (max w).

Definition admits_int (w : Int) (z : Z) : bool :=
  (int_min w <=? z) && (z <=? int_max w).

End Widget.

Definition INPUT_TYPES_reserved : Widget.Float :=
  {| Widget.default := DEFAULT_RESERVED_GB;
     Widget.min := MIN_RESERVED_GB;
     Widget.max := decimal 32 1;
     Widget.step := decimal 1 10 |}.

Definition INPUT_TYPES_min_safe_reserve : Widget.Float :=
  {| Widget.default := MIN_SAFE_RESERVE_GB;
     Widget.min := decimal 5 10;
     Widget.max := decimal 8 1;
     Widget.step := decimal 5 10 |}.

Definition INPUT_TYPES_gpu_index : Widget.Int :=
  {| Widget.int_default := 0; Widget.int_min := 0;
     Widget.int_max := 7; Widget.int_step := 1 |}.

Definition INPUT_TYPES_mode : list string :=
  ["smart"; "auto"; "manual"]%string.

(* ====================================================================== *)
(** ** Vocabulary of the further properties *)
(* ====================================================================== *)

(** [w'] is [w] after observations and log records only: the reservation
    slot is untouched, the clock has not gone back and no log record was
    removed. *)
Definition extends (w w' : World) : Prop :=
  EXTRA_RESERVED_MEMORY w' = EXTRA_RESERVED_MEMORY w /\
  (clock w <= clock w')%nat /\
  exists records, log w' = records ++ log w.

(** The device count that [get_gpu_count] arrives at. *)
Definition device_count (d : Driver) : Z :=
  if pynvml_available d then
    match nvmlDeviceGetCount d with
    | Ok n => n
    | Raise _ => 0
    end
  else if cuda_is_available d then cuda_device_count d else 0.

Definition index_in_range (d : Driver) (gpu_index : Z) : bool :=
  (0 <=? gpu_index) && (gpu_index <? device_count d).

(** The snapshot of device [gpu_index] taken at instant [t].  The byte
    counts of NVML are unsigned 64-bit integers, far below the integers
    whose division by [2^30] leaves the range of a float. *)
Definition reading (d : Driver) (t : nat) (gpu_index : Z)
  : option MemoryInfo :=
  if pynvml_available d && index_in_range d gpu_index then
    match nvmlDeviceGetMemoryInfo d t gpu_index with
    | Ok (total, used, free) =>
        Some (truediv_GB total, truediv_GB used, truediv_GB free)
    | Raise _ => None
    end
  else None.

(** The world after [get_gpu_count]. *)
Definition counted (d : Driver) (w : World) : World :=
  if pynvml_available d then
    match nvmlDeviceGetCount d with
    | Ok _ => w
    | Raise e => log_record ERROR (MsgGpuCountFailed e) w
    end
  else w.

(** The world after [validate_gpu_index]. *)
Definition validated (d : Driver) (gpu_index : Z) (w : World) : World :=
  if index_in_range d gpu_index then counted d w
  else log_record WARNING (MsgInvalidIndex gpu_index (device_count d))
         (counted d w).

(** NVML reports byte counts that are not negative. *)
Definition byte_counts (d : Driver) : Prop :=
  forall t i total used free,
    nvmlDeviceGetMemoryInfo d t i = Ok (total, used, free) ->
    0 <= total /\ 0 <= used /\ 0 <= free.

(** NVML reports unsigned 64-bit byte counts. *)
Definition unsigned64 (d : Driver) : Prop :=
  forall t i total used free,
    nvmlDeviceGetMemoryInfo d t i = Ok (total, used, free) ->
    0 <= total < 2 ^ 64 /\ 0 <= used < 2 ^ 64 /\ 0 <= free < 2 ^ 64.

(** NVML reports unsigned 64-bit byte counts, and no device without
    memory. *)
Definition plausible (d : Driver) : Prop :=
  forall t i total used free,
    nvmlDeviceGetMemoryInfo d t i = Ok (total, used, free) ->
    0 < total < 2 ^ 64 /\ 0 <= used < 2 ^ 64 /\ 0 <= free < 2 ^ 64.

(** The amounts shown by the per-device lines of a report. *)
Definition freed_amounts (lines : list ReportLine) : list float :=
  flat_map (fun l => match l with
                     | LineGpuFreed _ freed => [freed]
                     | _ => []
                     end) lines.

Definition is_gpu_line (gpu_count : Z) (l : ReportLine) : bool :=
  match l with
  | LineGpuFreed i _ => (0 <=? i) && (i <? gpu_count)
  | _ => false
  end.

Definition is_failure_line (l : ReportLine) : bool :=
  match l with
  | LineFailed _ => true
  | _ => false
  end.

(** The reclaims of a sweep over [devices]: one after the other, each in
    the world that the one before has left. *)
Fixpoint reclaims (d : Driver) (devices : list Z) (w : World)
  : list (Z * Result MemoryCleaner.CleanResult) :=
  match devices with
  | [] => []
  | i :: rest =>
      let out := MemoryCleaner.clear_gpu_memory d i w in
      (i, fst out) :: reclaims d rest (snd out)
  end.

(** The line that a reclaim leaves in the report: its amount when it was
    marked successful, nothing otherwise. *)
Definition line_of (reclaim : Z * Result MemoryCleaner.CleanResult)
  : list ReportLine :=
  match snd reclaim with
  | Ok r =>
      if MemoryCleaner.success r
      then [LineGpuFreed (fst reclaim) (MemoryCleaner.freed_memory_gb r)]
      else []
  | Raise _ => []
  end.

(** The device count that the batch cleaner asks the CUDA runtime for. *)
Definition cuda_count (d : Driver) : Z :=
  if cuda_is_available d then cuda_device_count d else 0.

(** The initialisation of NVML succeeds. *)
Definition init_succeeds (lib : Singleton.Library) : bool :=
  match Singleton.import_pynvml lib, Singleton.nvmlInit lib with
  | Singleton.Imported, Ok _ => true
  | _, _ => false
  end.

Definition count_cleanups (ops : list Op) : nat :=
  List.length (filter (fun o => match o with OpCleanup => true | _ => false end)
            ops).

(** The calls that a run makes to NVML, the latest first. *)
Definition expected_calls (lib : Singleton.Library) (ops : list Op)
  : list Singleton.Call :=
  match ops with
  | [] => []
  | _ :: _ =>
      match Singleton.import_pynvml lib with
      | Singleton.Imported =>
          (if init_succeeds lib
           then repeat Singleton.CallShutdown (count_cleanups ops)
           else []) ++ [Singleton.CallInit]
      | _ => []
      end
  end.

(** The magnitude of a float: [x < 2^B], in units of [2^-1074]. *)
Definition below (B : Z) (x : float) : Prop :=
  wf x = true /\ val x <= 2 ^ (B + 1074).

(** *** More sample collaborators *)

(** One device that NVML reports with no memory at all. *)
Definition empty_gpu : Driver :=
  {| pynvml_available := true;
     nvmlDeviceGetCount := Ok 1;
     nvmlDeviceGetMemoryInfo := fun _ _ => Ok (0, 0, 0);
     nvmlDeviceGetName := fun _ => Ok "GPU"%string;
     nvmlDeviceGetTemperature := fun _ _ => Ok 40;
     nvmlDeviceGetUtilizationRates := fun _ _ => Ok 0;
     cuda_is_available := true;
     cuda_device_count := 1;
     cuda_empty_cache := fun _ => Ok tt;
     cuda_empty_cache_on := fun _ _ => Ok tt;
     gc_collect := fun _ => 0;
     cleanup_models := None |}.

(** An NVML binding that loads and initialises, and one that is not
    installed. *)
Definition working_library : Singleton.Library :=
  {| Singleton.import_pynvml := Singleton.Imported;
     Singleton.nvmlInit := Ok tt;
     Singleton.nvmlShutdown := fun _ => Ok tt |}.

Definition missing_library : Singleton.Library :=
  {| Singleton.import_pynvml := Singleton.RaisesImportError;
     Singleton.nvmlInit := Raise NVMLError;
     Singleton.nvmlShutdown := fun _ => Raise NVMLError |}.

(** *** Computations that only observe, and computations that return *)

(** [c] leaves the world it runs in (the part [proj] of its state) as it
    was but for observations and log records. *)
Definition observes {S A : Type} (proj : S -> World) (c : M S A) : Prop :=
  forall s, extends (proj s) (proj (snd (c s))).

(** [c] never raises. *)
Definition returns {S A : Type} (c : M S A) : Prop :=
  forall s, exists a, fst (c s) = Ok a.

(** *** The text of the monitor *)

(** The name that the monitor shows: a missing or empty name gives way to
    the placeholder. *)
Definition shown_name (info : GPUManager.DetailedInfo) : option string :=
  match GPUManager.name info with
  | Some EmptyString => None
  | n => n
  end.

(** The lines of the sensors that answered. *)
Definition sensor_lines (info : GPUManager.DetailedInfo)
  : list GPUMemoryMonitor.Line :=
  match GPUManager.temperature info with
  | Some t => [GPUMemoryMonitor.LineTemperature t]
  | None => []
  end ++
  match GPUManager.utilization info with
  | Some u => [GPUMemoryMonitor.LineUtilization u]
  | None => []
  end.

(** The lines of a snapshot, with the percentage in use. *)
Definition memory_lines (snapshot : option MemoryInfo)
  : list GPUMemoryMonitor.Line :=
  match snapshot with
  | Some (total_gb, used_gb, free_gb) =>
      [GPUMemoryMonitor.LineTotal total_gb;
       GPUMemoryMonitor.LineUsed used_gb
         (mul_int (SFdiv prec emax used_gb total_gb) 100);
       GPUMemoryMonitor.LineFree free_gb]
  | None => []
  end.

(** NVML reports a device without memory. *)
Definition reports_no_memory (d : Driver) (t : nat) (gpu_index : Z) : Prop :=
  pynvml_available d = true /\ index_in_range d gpu_index = true /\
  exists used free,
    nvmlDeviceGetMemoryInfo d t gpu_index = Ok (0, used, free).

(** *** The steps of [set_memory] *)

(** The index that [set_memory] goes on with. *)
Definition effective_index (d : Driver) (gpu_index : Z) : Z :=
  if index_in_range d gpu_index then gpu_index else 0.

(** The world after the validation of the index by [set_memory]. *)
Definition indexed (d : Driver) (gpu_index : Z) (w : World) : World :=
  if index_in_range d gpu_index then validated d gpu_index w
  else log_record ERROR (MsgIndexReset gpu_index) (validated d gpu_index w).

(** The world with [b] in the reservation slot. *)
Definition with_reservation (b : Z) (w : World) : World :=
  {| clock := clock w; EXTRA_RESERVED_MEMORY := b; log := log w |}.

(** The world after [set_memory] has applied [b] and said so. *)
Definition applied (b : Z) (detail : Detail) (w : World) : World :=
  log_record INFO (MsgReservedSet (truediv_GB b) (truediv_MB b))
    (log_record INFO (MsgApplied detail) (with_reservation b w)).

(** *** The singleton once it is built *)

(** The state of the class after the first construction: the instance is
    there and initialised, and its two attributes tell how the
    initialisation of NVML went. *)
Definition built (lib : Singleton.Library) (p : Singleton.Process) : Prop :=
  Singleton._instance p = true /\
  Singleton._initialized p = true /\
  Singleton.pynvml p
  = match Singleton.import_pynvml lib with
    | Singleton.Imported => true
    | _ => false
    end /\
  Singleton._pynvml_available p = init_succeeds lib.

(* ====================================================================== *)
(** * Facts about binary64 arithmetic *)
(* ====================================================================== *)

Import MemoryStrategyCalculator.

Arguments mul : simpl never.
Arguments add : simpl never.
Arguments sub : simpl never.
Arguments decimal : simpl never.
Arguments of_Z : simpl never.
Arguments mul_int : simpl never.
Arguments truediv_GB : simpl never.
Arguments to_bytes : simpl never.
Arguments py_max : simpl never.
Arguments py_min : simpl never.
Arguments leb : simpl never.
Arguments ltb : simpl never.
Arguments gtb : simpl never.
Arguments neqb : simpl never.
Arguments py_div : simpl never.
Arguments MAX_RESERVED_RATIO : simpl never.
Arguments MEMORY_STRATEGY : simpl never.

(** ** The order of floats *)

Lemma SFcompare_swap (x y : float) :
  SFcompare y x = option_map CompOpp (SFcompare x y).
Proof.
  destruct x as [sx|sx| |sx mx ex], y as [sy|sy| |sy my ey]; simpl;
    try reflexivity;
    try (destruct sx; reflexivity);
    try (destruct sy; reflexivity);
    try (destruct sx, sy; reflexivity).
  destruct sx, sy; simpl; try reflexivity.
  - rewrite (Z.compare_antisym ex ey).
    destruct (ex ?= ey); simpl; try reflexivity.
    rewrite CompOpp_involutive. f_equal. symmetry. apply ZC4.
  - rewrite (Z.compare_antisym ex ey).
    destruct (ex ?= ey); simpl; try reflexivity.
    f_equal. apply ZC4.
Qed.

Lemma SFcompare_refl (x : float) :
  is_nan x = false -> SFcompare x x = Some Eq.
Proof.
  destruct x as [s|s| |s m e]; simpl; intros H; try discriminate;
    try (destruct s; reflexivity).
  destruct s; rewrite Z.compare_refl; fold (Pos.compare m m);
    now rewrite Pos.compare_refl.
Qed.

Lemma SFcompare_some (x y : float) :
  is_nan x = false -> is_nan y = false -> exists c, SFcompare x y = Some c.
Proof.
  destruct x, y; simpl; intros; try discriminate; eauto.
Qed.

Lemma leb_refl x : is_nan x = false -> leb x x = true.
Proof. intros H. unfold leb, SFleb. now rewrite SFcompare_refl. Qed.

Lemma ltb_false_leb x y :
  is_nan x = false -> is_nan y = false -> ltb x y = false -> leb y x = true.
Proof.
  intros Hx Hy. unfold ltb, leb, SFltb, SFleb.
  rewrite (SFcompare_swap x y).
  destruct (SFcompare_some x y Hx Hy) as [c ->]. simpl.
  destruct c; simpl; congruence.
Qed.

Lemma ltb_leb x y : ltb x y = true -> leb x y = true.
Proof.
  unfold ltb, leb, SFltb, SFleb. destruct (SFcompare x y) as [[]|]; congruence.
Qed.

Lemma leb_ltb_false x y : leb x y = true -> ltb y x = false.
Proof.
  unfold ltb, leb, SFltb, SFleb. rewrite (SFcompare_swap x y).
  destruct (SFcompare x y) as [[]|]; simpl; congruence.
Qed.

Lemma leb_not_nan x y : leb x y = true -> is_nan x = false /\ is_nan y = false.
Proof.
  unfold leb, SFleb. destruct x, y; simpl; intros; try discriminate; auto.
Qed.

(** ** Digits of a mantissa *)
Lemma digits2_pos_size p : digits2_pos p = Pos.size p.
Proof. induction p; simpl; congruence. Qed.

Lemma Zdigits2_log2 p : Zdigits2 (Zpos p) = Z.log2 (Zpos p) + 1.
Proof.
  simpl. rewrite digits2_pos_size. destruct p; simpl; lia.
Qed.

Lemma Zdigits2_nonneg m : 0 <= m -> 0 <= Zdigits2 m.
Proof. destruct m; simpl; lia. Qed.

(** ** Shifting a mantissa to the right *)
Lemma iter_pos_nat {A} (f : A -> A) n x :
  iter_pos f n x = Nat.iter (Pos.to_nat n) f x.
Proof.
  revert x. induction n as [n IH|n IH|]; intros x; cbn [iter_pos].
  - rewrite !IH, Pos2Nat.inj_xI, Nat.iter_succ_r.
    replace (2 * Pos.to_nat n)%nat with (Pos.to_nat n + Pos.to_nat n)%nat by lia.
    now rewrite Nat.iter_add.
  - rewrite !IH, Pos2Nat.inj_xO.
    replace (2 * Pos.to_nat n)%nat with (Pos.to_nat n + Pos.to_nat n)%nat by lia.
    now rewrite Nat.iter_add.
  - reflexivity.
Qed.

Lemma shr_1_m mrs : 0 <= shr_m mrs -> shr_m (shr_1 mrs) = shr_m mrs / 2.
Proof.
  destruct mrs as [m r s]. simpl. intros H. rewrite <- Z.div2_div.
  destruct m as [|[p|p|]|p]; try reflexivity; lia.
Qed.

Lemma shr_iter_m k mrs :
  0 <= shr_m mrs ->
  shr_m (Nat.iter k shr_1 mrs) = shr_m mrs / 2 ^ Z.of_nat k.
Proof.
  revert mrs. induction k as [|k IH]; intros mrs H.
  - simpl. now rewrite Z.div_1_r.
  - rewrite Nat.iter_succ_r, IH.
    + rewrite shr_1_m by assumption.
      rewrite Nat2Z.inj_succ, Z.pow_succ_r by lia.
      rewrite Z.div_div by lia. reflexivity.
    + rewrite shr_1_m by assumption. apply Z.div_pos; lia.
Qed.

Lemma shr_1_exact m :
  0 <= m -> Z.even m = true ->
  shr_1 (Build_shr_record m false false) = Build_shr_record (m / 2) false false.
Proof.
  intros H E. rewrite <- Z.div2_div.
  destruct m as [|[p|p|]|p]; try discriminate; try reflexivity; lia.
Qed.

Lemma shr_iter_exact k m :
  0 <= m ->
  Nat.iter k shr_1 (Build_shr_record (m * 2 ^ Z.of_nat k) false false)
  = Build_shr_record m false false.
Proof.
  intros H. induction k as [|k IH].
  - simpl. f_equal. lia.
  - rewrite Nat.iter_succ_r, shr_1_exact.
    + rewrite Nat2Z.inj_succ, Z.pow_succ_r by lia.
      replace (m * (2 * 2 ^ Z.of_nat k) / 2) with (m * 2 ^ Z.of_nat k).
      * exact IH.
      * apply Z.div_unique with 0; lia.
    + apply Z.mul_nonneg_nonneg; [lia | apply Z.pow_nonneg; lia].
    + rewrite Nat2Z.inj_succ, Z.pow_succ_r by lia.
      rewrite Z.even_mul, (Z.even_mul 2). simpl. now rewrite orb_true_r.
Qed.

Lemma Zdigits2_pos_log2 m : 0 < m -> Zdigits2 m = Z.log2 m + 1.
Proof. destruct m as [|p|p]; try lia. intros _. apply Zdigits2_log2. Qed.

Lemma Zdigits2_mono a b : 0 < a -> a <= b -> Zdigits2 a <= Zdigits2 b.
Proof.
  intros Ha Hab. rewrite !Zdigits2_pos_log2 by lia.
  pose proof (Z.log2_le_mono a b Hab). lia.
Qed.

Lemma Zdigits2_shiftr m n :
  0 < m -> 0 <= n -> 0 < m / 2 ^ n -> Zdigits2 (m / 2 ^ n) = Zdigits2 m - n.
Proof.
  intros Hm Hn Hq. rewrite <- Z.shiftr_div_pow2 in * by assumption.
  rewrite !Zdigits2_pos_log2 by assumption.
  rewrite Z.log2_shiftr by assumption.
  destruct (Z.lt_ge_cases (Z.log2 m) n) as [Hlt|Hge]; [|lia].
  rewrite (Z.shiftr_eq_0 m n) in Hq by lia. lia.
Qed.

Lemma shr_record_of_loc_m m l : shr_m (shr_record_of_loc m l) = m.
Proof. destruct l as [|[]]; reflexivity. Qed.

(** [shr_fexp] when the target exponent is not below the current one. *)
Lemma shr_fexp_spec m e l :
  0 <= m ->
  e <= fexp prec emax (Zdigits2 m + e) ->
  snd (shr_fexp prec emax m e l) = fexp prec emax (Zdigits2 m + e) /\
  shr_m (fst (shr_fexp prec emax m e l))
  = m / 2 ^ (fexp prec emax (Zdigits2 m + e) - e).
Proof.
  intros Hm Hle. unfold shr_fexp, shr.
  destruct (fexp prec emax (Zdigits2 m + e) - e) as [|p|p] eqn:En; simpl.
  - rewrite shr_record_of_loc_m, Z.div_1_r. split; lia.
  - rewrite iter_pos_nat, shr_iter_m, shr_record_of_loc_m,
      positive_nat_Z by (rewrite shr_record_of_loc_m; lia).
    split; [lia | reflexivity].
  - lia.
Qed.

Lemma shr_fexp_nonneg m e l :
  0 <= m -> 0 <= shr_m (fst (shr_fexp prec emax m e l)).
Proof.
  intros Hm. unfold shr_fexp, shr.
  destruct (fexp prec emax (Zdigits2 m + e) - e) as [|p|p]; simpl;
    try (rewrite shr_record_of_loc_m; lia).
  rewrite iter_pos_nat, shr_iter_m, shr_record_of_loc_m
    by (rewrite shr_record_of_loc_m; lia).
  apply Z.div_pos; [lia | apply Z.pow_pos_nonneg; lia].
Qed.

Lemma shr_fexp_canonical m e l :
  0 < m ->
  e <= fexp prec emax (Zdigits2 m + e) ->
  0 < shr_m (fst (shr_fexp prec emax m e l)) ->
  fexp prec emax
    (Zdigits2 (shr_m (fst (shr_fexp prec emax m e l)))
     + snd (shr_fexp prec emax m e l))
  = snd (shr_fexp prec emax m e l).
Proof.
  intros Hm Hle Hpos.
  destruct (shr_fexp_spec m e l) as [He Hq]; [lia | assumption |].
  rewrite He, Hq in *.
  rewrite Zdigits2_shiftr by (assumption || lia).
  f_equal. lia.
Qed.

Lemma round_nearest_even_cases m l :
  round_nearest_even m l = m \/ round_nearest_even m l = m + 1.
Proof.
  destruct l as [|[]]; simpl; auto. destruct (Z.even m); auto.
Qed.

(** The shape of a rounded result: never NaN, and with the given sign. *)
Lemma binary_round_aux_shape s m e l :
  0 <= m ->
  binary_round_aux prec emax s m e l = S754_zero s \/
  binary_round_aux prec emax s m e l = S754_infinity s \/
  exists m' e', binary_round_aux prec emax s m e l = S754_finite s m' e'.
Proof.
  intros Hm. unfold binary_round_aux.
  destruct (shr_fexp prec emax m e l) as [mrs1 e1] eqn:E1.
  pose proof (shr_fexp_nonneg m e l Hm) as H1. rewrite E1 in H1. simpl in H1.
  set (m2 := round_nearest_even (shr_m mrs1) (loc_of_shr_record mrs1)).
  assert (H2 : 0 <= m2).
  { unfold m2.
    destruct (round_nearest_even_cases (shr_m mrs1) (loc_of_shr_record mrs1))
      as [-> | ->]; lia. }
  destruct (shr_fexp prec emax m2 e1 loc_Exact) as [mrs2 e2] eqn:E2.
  pose proof (shr_fexp_nonneg m2 e1 loc_Exact H2) as H3.
  rewrite E2 in H3. simpl in H3.
  destruct (shr_m mrs2) as [|p|p]; [auto | | lia].
  destruct (e2 <=? emax - prec); eauto.
Qed.

(** Rounding produces a number of the format. *)
Lemma binary_round_aux_valid s m e l :
  0 < m ->
  e <= fexp prec emax (Zdigits2 m + e) ->
  valid_binary prec emax (binary_round_aux prec emax s m e l) = true.
Proof.
  intros Hm Hle. unfold binary_round_aux.
  destruct (shr_fexp_spec m e l) as [He1 Hq1]; [lia | assumption |].
  pose proof (shr_fexp_nonneg m e l (Z.lt_le_incl _ _ Hm)) as Hn1.
  pose proof (shr_fexp_canonical m e l Hm Hle) as Hc1.
  destruct (shr_fexp prec emax m e l) as [mrs1 e1]. simpl in *.
  set (m1 := shr_m mrs1) in *.
  set (m2 := round_nearest_even m1 (loc_of_shr_record mrs1)).
  assert (Hm2 : m2 = m1 \/ m2 = m1 + 1) by apply round_nearest_even_cases.
  destruct (Z.eq_dec m2 0) as [Z2|NZ2].
  { (* the rounded mantissa vanishes *)
    rewrite Z2.
    pose proof (shr_fexp_nonneg 0 e1 loc_Exact (Z.le_refl 0)) as Hn.
    assert (Hz : shr_m (fst (shr_fexp prec emax 0 e1 loc_Exact)) = 0).
    { unfold shr_fexp, shr.
      destruct (fexp prec emax (Zdigits2 0 + e1) - e1) as [|p|p]; simpl;
        try reflexivity.
      rewrite iter_pos_nat, shr_iter_m by (simpl; lia). reflexivity. }
    destruct (shr_fexp prec emax 0 e1 loc_Exact) as [mrs2 e2]. simpl in Hz.
    rewrite Hz. reflexivity. }
  assert (Hpos2 : 0 < m2) by lia.
  assert (Hle2 : e1 <= fexp prec emax (Zdigits2 m2 + e1)).
  { destruct (Z.eq_dec m1 0) as [Z1|NZ1].
    - (* everything was shifted out and the result rounded up to one *)
      assert (m2 = 1) by lia. subst m2. rewrite H.
      fold m1 in Hq1. rewrite Z1 in Hq1. symmetry in Hq1.
      rewrite <- Z.shiftr_div_pow2 in Hq1 by lia.
      apply Z.shiftr_eq_0_iff in Hq1. destruct Hq1 as [?|[_ Hlog]]; [lia|].
      rewrite (Zdigits2_pos_log2 m) in * by assumption.
      revert He1 Hlog Hle. unfold fexp, emin, prec, emax. simpl Zdigits2. lia.
    - assert (Hp1 : 0 < m1) by lia. specialize (Hc1 Hp1).
      assert (Zdigits2 m1 <= Zdigits2 m2) by (apply Zdigits2_mono; lia).
      revert Hc1 H. unfold fexp, emin, prec, emax. lia. }
  destruct (shr_fexp_spec m2 e1 loc_Exact) as [He2 Hq2]; [lia | assumption |].
  pose proof (shr_fexp_nonneg m2 e1 loc_Exact (Z.lt_le_incl _ _ Hpos2)) as Hn2.
  pose proof (shr_fexp_canonical m2 e1 loc_Exact Hpos2 Hle2) as Hc2.
  destruct (shr_fexp prec emax m2 e1 loc_Exact) as [mrs2 e2]. simpl in *.
  destruct (shr_m mrs2) as [|p|p] eqn:Em; [reflexivity | | lia].
  change (emax - prec) with 971.
  destruct (e2 <=? 971) eqn:Eb; [|reflexivity].
  cbn [valid_binary]. unfold bounded, canonical_mantissa.
  change (emax - prec) with 971. rewrite Eb, andb_true_r.
  apply Z.eqb_eq. apply Hc2. lia.
Qed.

(** ** Non-negative floats are closed under the operations of the calculator *)

Lemma nonneg_cases x :
  nonneg x = true ->
  (exists s, x = S754_zero s) \/ x = S754_infinity false \/
  exists m e, x = S754_finite false m e.
Proof.
  destruct x as [s|[]| |[] m e]; cbn; intros H; try discriminate; eauto.
Qed.

Lemma nonneg_not_nan x : nonneg x = true -> is_nan x = false.
Proof. destruct x; intros H; try discriminate; reflexivity. Qed.

Lemma pos_iter_xO m d : Zpos (Pos.iter xO m d) = Zpos m * 2 ^ Zpos d.
Proof.
  rewrite <- Z.shiftl_mul_pow2 by lia. cbn [Z.shiftl].
  apply (Pos.iter_swap_gen _ _ Zpos xO (Z.mul 2)). reflexivity.
Qed.

Lemma binary_round_ready mx ex :
  let '(mz, ez) := shl_align mx ex (fexp prec emax (Zpos (digits2_pos mx) + ex)) in
  ez <= fexp prec emax (Zdigits2 (Zpos mz) + ez).
Proof.
  unfold shl_align.
  change (Zpos (digits2_pos mx)) with (Zdigits2 (Zpos mx)).
  destruct (fexp prec emax (Zdigits2 (Zpos mx) + ex) - ex) as [|p|p] eqn:E;
    try lia.
  rewrite (Zdigits2_pos_log2 (Zpos (Pos.iter xO mx p))) by lia.
  rewrite pos_iter_xO, Z.log2_mul_pow2 by lia.
  rewrite (Zdigits2_pos_log2 (Zpos mx)) in * by lia.
  revert E. unfold fexp, emin, prec, emax. lia.
Qed.

Lemma binary_round_valid s mx ex :
  valid (binary_round prec emax s mx ex) = true.
Proof.
  unfold binary_round. pose proof (binary_round_ready mx ex) as H.
  destruct (shl_align mx ex _) as [mz ez].
  apply binary_round_aux_valid; [lia | exact H].
Qed.

Lemma binary_round_shape s mx ex :
  binary_round prec emax s mx ex = S754_zero s \/
  binary_round prec emax s mx ex = S754_infinity s \/
  exists m' e', binary_round prec emax s mx ex = S754_finite s m' e'.
Proof.
  unfold binary_round. destruct (shl_align mx ex _) as [mz ez].
  apply binary_round_aux_shape. lia.
Qed.

Lemma shape_nonneg x :
  x = S754_zero false \/ x = S754_infinity false \/
  (exists m e, x = S754_finite false m e) -> nonneg x = true.
Proof. intros [->|[->|(m & e & ->)]]; reflexivity. Qed.

Lemma wf_split x : wf x = true <-> valid x = true /\ nonneg x = true.
Proof. unfold wf. apply andb_true_iff. Qed.

Lemma wf_not_nan x : wf x = true -> is_nan x = false.
Proof. intros H. apply wf_split in H. now apply nonneg_not_nan. Qed.

(** Sums of non-negative numbers of the format. *)
Lemma wf_add x y : wf x = true -> wf y = true -> wf (add x y) = true.
Proof.
  rewrite !wf_split. intros [Vx Nx] [Vy Ny].
  destruct (nonneg_cases x Nx) as [[sx ->]|[->|(mx & ex & ->)]];
  destruct (nonneg_cases y Ny) as [[sy ->]|[->|(my & ey & ->)]];
    try (split; [assumption || reflexivity | assumption || reflexivity]).
  - destruct sx, sy; split; reflexivity.
  - unfold add, SFadd. cbn [cond_Zopp]. 
    destruct (shl_align mx ex (Z.min ex ey)) as [ax ?].
    destruct (shl_align my ey (Z.min ex ey)) as [ay ?]. cbn [fst].
    cbn [Z.add binary_normalize]. split.
    + apply binary_round_valid.
    + apply shape_nonneg, binary_round_shape.
Qed.

Lemma canonical_facts s m e :
  valid (S754_finite s m e) = true ->
  1 <= Zdigits2 (Zpos m) <= 53 /\ -1074 <= e <= 971 /\
  (Zdigits2 (Zpos m) = 53 \/ e = -1074).
Proof.
  unfold valid. cbn [valid_binary]. unfold bounded, canonical_mantissa.
  rewrite andb_true_iff, Z.eqb_eq, Z.leb_le.
  change (Zpos (digits2_pos m)) with (Zdigits2 (Zpos m)).
  pose proof (Z.log2_nonneg (Zpos m)).
  rewrite (Zdigits2_pos_log2 (Zpos m)) by lia.
  unfold fexp, emin, prec, emax. lia.
Qed.

Lemma mul_ready sx mx ex sc mc ec :
  valid (S754_finite sx mx ex) = true ->
  valid (S754_finite sc mc ec) = true ->
  ex + ec <= fexp prec emax (Zdigits2 (Zpos (mx * mc)) + (ex + ec)).
Proof.
  intros Vx Vc.
  pose proof (canonical_facts sx mx ex Vx) as Fx.
  pose proof (canonical_facts sc mc ec Vc) as Fc.
  rewrite (Zdigits2_pos_log2 (Zpos (mx * mc))) by lia.
  rewrite (Zdigits2_pos_log2 (Zpos mx)) in Fx by lia.
  rewrite (Zdigits2_pos_log2 (Zpos mc)) in Fc by lia.
  pose proof (Z.log2_mul_below (Zpos mx) (Zpos mc)) as Hb.
  rewrite Pos2Z.inj_mul.
  unfold fexp, emin, prec, emax. lia.
Qed.

(** Products of non-negative numbers of the format, one of them finite and
    not zero. *)
Lemma wf_mul x mc ec :
  wf x = true -> valid (S754_finite false mc ec) = true ->
  wf (mul x (S754_finite false mc ec)) = true.
Proof.
  rewrite !wf_split. intros [Vx Nx] Vc.
  destruct (nonneg_cases x Nx) as [[sx ->]|[->|(mx & ex & ->)]].
  - destruct sx; split; reflexivity.
  - split; reflexivity.
  - unfold mul, SFmul. cbn [xorb]. split.
    + apply binary_round_aux_valid; [lia|].
      eapply mul_ready; eassumption.
    + apply shape_nonneg, binary_round_aux_shape. lia.
Qed.

(** A quotient is a number unless an operand is NaN, the divisor is zero
    or both operands are infinite. *)
Lemma div_not_nan x y :
  is_nan x = false -> is_nan y = false -> is_zero y = false ->
  is_finite x || is_finite y = true ->
  is_nan (SFdiv prec emax x y) = false.
Proof.
  destruct x as [sx|sx| |sx mx ex], y as [sy|sy| |sy my ey];
    intros Nx Ny Zy Fin; try discriminate; try reflexivity.
  unfold SFdiv, SFdiv_core_binary.
  set (m' := match _ with Z0 => Zpos mx | Zpos _ => _ | Zneg _ => 0 end).
  assert (Hm' : 0 <= m').
  { unfold m'. destruct (_ - _ - _) as [|p|p]; try lia.
    rewrite Z.shiftl_mul_pow2 by lia.
    apply Z.mul_nonneg_nonneg; [lia | apply Z.pow_nonneg; lia]. }
  pose proof (Z_div_mod m' (Zpos my) ltac:(lia)) as Hd.
  destruct (Z.div_eucl m' (Zpos my)) as [q r].
  assert (Hq : 0 <= q) by nia.
  match goal with
  | |- context [binary_round_aux _ _ ?s ?q ?e ?l] =>
      destruct (binary_round_aux_shape s q e l Hq) as [E|[E|(m1 & e1 & E)]]
  end; rewrite E; reflexivity.
Qed.

(** ** Conversion to bytes *)

Lemma shr_fexp_exact m k e :
  0 < m -> 0 <= k ->
  fexp prec emax (Zdigits2 (m * 2 ^ k) + e) - e = k ->
  shr_fexp prec emax (m * 2 ^ k) e loc_Exact
  = (Build_shr_record m false false, e + k).
Proof.
  intros Hm Hk E. unfold shr_fexp. rewrite E. unfold shr.
  destruct k as [|p|p]; try lia.
  - cbn [shr_record_of_loc]. rewrite Z.pow_0_r, Z.mul_1_r, Z.add_0_r.
    reflexivity.
  - cbn [shr_record_of_loc]. rewrite iter_pos_nat.
    rewrite <- (positive_nat_Z p) at 1.
    rewrite shr_iter_exact by lia. reflexivity.
Qed.

Lemma GB_float : of_Z GB_TO_BYTES = S754_finite false 4503599627370496 (-22).
Proof. vm_compute. reflexivity. Qed.

Lemma Zdigits2_mul_pow2 m k :
  0 < m -> 0 <= k -> Zdigits2 (m * 2 ^ k) = Zdigits2 m + k.
Proof.
  intros Hm Hk.
  assert (0 < m * 2 ^ k) by (apply Z.mul_pos_pos; [lia | apply Z.pow_pos_nonneg; lia]).
  rewrite !Zdigits2_pos_log2, Z.log2_mul_pow2 by lia. lia.
Qed.

(** Scaling by [2^30] is exact; it overflows for the largest exponents. *)
Lemma mul_GB_finite s m e :
  valid (S754_finite s m e) = true ->
  exists m1 e1,
    Zpos m1 = Zpos m * 2 ^ (e + 30 - e1) /\ 0 <= e + 30 - e1 /\
    mul_int (S754_finite s m e) GB_TO_BYTES
    = if e <=? 941 then S754_finite s m1 e1 else S754_infinity s.
Proof.
  intros V. destruct (canonical_facts s m e V) as (Hd & He & Hc).
  set (d := Zdigits2 (Zpos m)) in *.
  set (e1 := fexp prec emax (d + e + 30)).
  assert (He1 : e1 = Z.max (d + e - 23) (-1074))
    by (unfold e1, fexp, emin, prec, emax; lia).
  set (k := e1 - e + 22).
  assert (Hk : 0 <= k <= 52) by lia.
  set (m1 := Zpos m * 2 ^ (52 - k)).
  assert (Hm1 : 0 < m1)
    by (apply Z.mul_pos_pos; [lia | apply Z.pow_pos_nonneg; lia]).
  exists (Z.to_pos m1), e1.
  rewrite Z2Pos.id by assumption.
  replace (e + 30 - e1) with (52 - k) by lia.
  split; [reflexivity | split; [lia|]].
  unfold mul_int. rewrite GB_float. unfold mul, SFmul. rewrite xorb_false_r.
  unfold binary_round_aux.
  assert (Hprod : Zpos (m * 4503599627370496) = m1 * 2 ^ k).
  { rewrite Pos2Z.inj_mul. change (Zpos 4503599627370496) with (2 ^ 52).
    unfold m1. rewrite <- Z.mul_assoc, <- Z.pow_add_r by lia.
    do 2 f_equal. lia. }
  rewrite Hprod.
  rewrite (shr_fexp_exact m1 k (e + -22)); try lia.
  2:{ rewrite Zdigits2_mul_pow2 by lia. unfold m1.
      rewrite Zdigits2_mul_pow2 by lia. fold d.
      unfold fexp, emin, prec, emax. lia. }
  cbn [shr_m loc_of_shr_record round_nearest_even].
  replace m1 with (m1 * 2 ^ 0) at 1 by (rewrite Z.pow_0_r; lia).
  rewrite (shr_fexp_exact m1 0 (e + -22 + k)); try lia.
  2:{ rewrite Z.pow_0_r, Z.mul_1_r. unfold m1.
      rewrite Zdigits2_mul_pow2 by lia. fold d.
      unfold fexp, emin, prec, emax. lia. }
  cbn [shr_m]. destruct m1 as [|p1|p1] eqn:Ep; try lia.
  replace (e + -22 + k + 0) with e1 by lia.
  change (emax - prec) with 971. rewrite Pos2Z.id.
  destruct (e1 <=? 971) eqn:B1, (e <=? 941) eqn:B2; try reflexivity;
    apply Z.leb_le in B1 || apply Z.leb_gt in B1;
    apply Z.leb_le in B2 || apply Z.leb_gt in B2; lia.
Qed.

Lemma to_bytes_finite s m e :
  valid (S754_finite s m e) = true ->
  to_bytes (S754_finite s m e)
  = if e <=? 941 then Ok (cond_Zopp s (Z.shiftl (Zpos m) (e + 30)))
    else Raise OverflowError.
Proof.
  intros V. unfold to_bytes.
  destruct (mul_GB_finite s m e V) as (m1 & e1 & Hm1 & Hk & ->).
  destruct (e <=? 941); [|reflexivity].
  cbn [py_int trunc]. rewrite Hm1, <- Z.shiftl_mul_pow2 by assumption.
  rewrite Z.shiftl_shiftl by assumption. do 3 f_equal. lia.
Qed.

Lemma to_bytes_zero s : to_bytes (S754_zero s) = Ok 0.
Proof. destruct s; reflexivity. Qed.

Lemma to_bytes_infinity s : to_bytes (S754_infinity s) = Raise OverflowError.
Proof. destruct s; reflexivity. Qed.

Lemma shiftl_pos_nonneg m n : 0 <= Z.shiftl (Zpos m) n.
Proof. apply Z.shiftl_nonneg. lia. Qed.

(** A non-negative value converts to a non-negative byte count, and the
    conversion fails by overflow only. *)
Lemma to_bytes_nonneg x b :
  wf x = true -> to_bytes x = Ok b -> 0 <= b.
Proof.
  rewrite wf_split. intros [V N].
  destruct (nonneg_cases x N) as [[s ->]|[->|(m & e & ->)]].
  - rewrite to_bytes_zero. intros [= <-]. lia.
  - discriminate.
  - rewrite to_bytes_finite by assumption.
    destruct (e <=? 941); [|discriminate].
    intros [= <-]. apply shiftl_pos_nonneg.
Qed.

Lemma to_bytes_raise x e :
  wf x = true -> to_bytes x = Raise e -> e = OverflowError.
Proof.
  rewrite wf_split. intros [V N].
  destruct (nonneg_cases x N) as [[s ->]|[->|(m & ex & ->)]].
  - rewrite to_bytes_zero. discriminate.
  - rewrite to_bytes_infinity. congruence.
  - rewrite to_bytes_finite by assumption.
    destruct (ex <=? 941); congruence.
Qed.

Lemma pos_compare_cont_le m1 m2 :
  Pos.compare_cont Eq m1 m2 <> Gt -> Zpos m1 <= Zpos m2.
Proof. fold (Pos.compare m1 m2). intros H. apply Pos2Z.pos_le_pos. exact H. Qed.

(** On numbers of the format, the exact values are ordered as [SFleb]
    orders them; here after scaling and truncation. *)
Lemma shiftl_le_canonical m1 e1 m2 e2 n :
  valid (S754_finite false m1 e1) = true ->
  valid (S754_finite false m2 e2) = true ->
  leb (S754_finite false m1 e1) (S754_finite false m2 e2) = true ->
  Z.shiftl (Zpos m1) (e1 + n) <= Z.shiftl (Zpos m2) (e2 + n).
Proof.
  intros V1 V2 L.
  destruct (canonical_facts _ _ _ V1) as (Hd1 & He1 & Hc1).
  destruct (canonical_facts _ _ _ V2) as (Hd2 & He2 & Hc2).
  rewrite (Zdigits2_pos_log2 (Zpos m1)) in * by lia.
  rewrite (Zdigits2_pos_log2 (Zpos m2)) in * by lia.
  pose proof (Z.log2_spec (Zpos m1) ltac:(lia)) as S1.
  pose proof (Z.log2_spec (Zpos m2) ltac:(lia)) as S2.
  (* the values in units of 2^-1074 *)
  assert (Hv : Zpos m1 * 2 ^ (e1 + 1074) <= Zpos m2 * 2 ^ (e2 + 1074)).
  { unfold leb, SFleb in L. cbn [SFcompare] in L.
    destruct (e1 ?= e2) eqn:C.
    - apply Z.compare_eq in C. subst e2.
      apply Z.mul_le_mono_nonneg_r; [apply Z.pow_nonneg; lia|].
      apply pos_compare_cont_le. intros G. rewrite G in L. discriminate.
    - assert (C' : e1 < e2) by (apply Z.compare_lt_iff; exact C).
      assert (Z.log2 (Zpos m2) = 52) by (clear S1 S2; lia).
      assert (B1 : Zpos m1 < 2 ^ 53).
      { eapply Z.lt_le_trans; [apply S1|]. apply Z.pow_le_mono_r; lia. }
      assert (B2 : 2 ^ 52 <= Zpos m2) by (rewrite <- H; apply S2).
      replace (e2 + 1074) with ((e2 - e1 - 1) + 1 + (e1 + 1074)) by ring.
      rewrite (Z.pow_add_r 2 (e2 - e1 - 1 + 1) (e1 + 1074)),
        (Z.pow_add_r 2 (e2 - e1 - 1) 1) by lia.
      assert (0 < 2 ^ (e2 - e1 - 1)) by (apply Z.pow_pos_nonneg; lia).
      assert (0 < 2 ^ (e1 + 1074)) by (apply Z.pow_pos_nonneg; lia).
      change (2 ^ 1) with 2.
      change (2 ^ 53) with 9007199254740992 in B1.
      change (2 ^ 52) with 4503599627370496 in B2.
      set (P := 2 ^ (e1 + 1074)) in *. set (Q := 2 ^ (e2 - e1 - 1)) in *.
      apply Z.le_trans with (2 * Zpos m2 * P).
      + apply Z.mul_le_mono_nonneg_r; lia.
      + replace (Zpos m2 * (Q * 2 * P)) with (2 * Zpos m2 * P * Q) by ring.
        assert (0 <= 2 * Zpos m2 * P) by (apply Z.mul_nonneg_nonneg; lia).
        nia.
    - discriminate. }
  destruct (Z.le_gt_cases 1074 n) as [Hn|Hn].
  - (* scaling up from the unit *)
    replace (e1 + n) with (e1 + 1074 + (n - 1074)) by ring.
    replace (e2 + n) with (e2 + 1074 + (n - 1074)) by ring.
    rewrite <- (Z.shiftl_shiftl (Zpos m1)), <- (Z.shiftl_shiftl (Zpos m2)) by lia.
    rewrite !(Z.shiftl_mul_pow2 _ (n - 1074)) by lia.
    apply Z.mul_le_mono_nonneg_r; [apply Z.pow_nonneg; lia|].
    rewrite !Z.shiftl_mul_pow2 by lia. exact Hv.
  - replace (e1 + n) with (e1 + 1074 - (1074 - n)) by ring.
    replace (e2 + n) with (e2 + 1074 - (1074 - n)) by ring.
    rewrite <- (Z.shiftr_shiftl_l (Zpos m1)), <- (Z.shiftr_shiftl_l (Zpos m2)) by lia.
    rewrite !(Z.shiftr_div_pow2 _ (1074 - n)) by lia.
    apply Z.div_le_mono; [apply Z.pow_pos_nonneg; lia|].
    rewrite !Z.shiftl_mul_pow2 by lia. exact Hv.
Qed.

Lemma leb_finite_exponent m1 e1 m2 e2 :
  leb (S754_finite false m1 e1) (S754_finite false m2 e2) = true -> e1 <= e2.
Proof.
  unfold leb, SFleb. cbn [SFcompare]. destruct (e1 ?= e2) eqn:C; intros L.
  - apply Z.compare_eq in C. subst. apply Z.le_refl.
  - apply Z.lt_le_incl, Z.compare_lt_iff. exact C.
  - discriminate.
Qed.

(** The conversion to bytes is monotone. *)
Lemma to_bytes_mono x y by_ :
  wf x = true -> wf y = true -> leb x y = true ->
  to_bytes y = Ok by_ ->
  exists bx, to_bytes x = Ok bx /\ bx <= by_.
Proof.
  intros Wx Wy L Hy. pose proof (to_bytes_nonneg y by_ Wy Hy) as Hpos.
  apply wf_split in Wx, Wy. destruct Wx as [Vx Nx], Wy as [Vy Ny].
  destruct (nonneg_cases x Nx) as [[sx ->]|[->|(mx & ex & ->)]].
  - exists 0. rewrite to_bytes_zero. auto.
  - destruct (nonneg_cases y Ny) as [[sy ->]|[->|(my & ey & ->)]];
      try discriminate.
  - destruct (nonneg_cases y Ny) as [[sy ->]|[->|(my & ey & ->)]];
      try discriminate.
    pose proof (leb_finite_exponent _ _ _ _ L) as He.
    rewrite to_bytes_finite in * by assumption.
    destruct (ey <=? 941) eqn:By; [|discriminate].
    apply Z.leb_le in By. injection Hy as <-.
    replace (ex <=? 941) with true by (symmetry; apply Z.leb_le; lia).
    eexists. split; [reflexivity|]. cbn [cond_Zopp].
    now apply shiftl_le_canonical.
Qed.

(** ** Rounding is monotone *)

Lemma shr_1_bits mrs :
  0 <= shr_m mrs ->
  shr_r (shr_1 mrs) = Z.odd (shr_m mrs) /\
  shr_s (shr_1 mrs) = shr_r mrs || shr_s mrs.
Proof.
  destruct mrs as [m r s]. cbn [shr_m shr_r shr_s]. intros H.
  destruct m as [|[p|p|]|p]; try lia; split; reflexivity.
Qed.

(** The two bits kept while shifting: the last bit shifted out and whether
    anything below it was not zero. *)
Lemma shr_iter_bits k m :
  0 <= m ->
  let mrs := Nat.iter (S k) shr_1 (Build_shr_record m false false) in
  shr_r mrs = Z.odd (m / 2 ^ Z.of_nat k) /\
  shr_s mrs = negb (m mod 2 ^ Z.of_nat k =? 0).
Proof.
  intros Hm. induction k as [|k IH].
  - cbn [Nat.iter nat_rect]. 
    destruct (shr_1_bits (Build_shr_record m false false) Hm) as [Hr Hs].
    cbv zeta. rewrite Hr, Hs. cbn [shr_m shr_r shr_s orb Z.of_nat].
    rewrite Z.pow_0_r, Z.div_1_r, Z.mod_1_r. split; reflexivity.
  - cbv zeta in IH |- *. destruct IH as [IHr IHs].
    rewrite Nat.iter_succ.
    set (prev := Nat.iter (S k) shr_1 (Build_shr_record m false false)) in *.
    assert (Hprev : shr_m prev = m / 2 ^ Z.of_nat (S k)).
    { unfold prev. rewrite shr_iter_m by (cbn; lia). reflexivity. }
    assert (Hpos : 0 <= shr_m prev).
    { rewrite Hprev. apply Z.div_pos; [lia | apply Z.pow_pos_nonneg; lia]. }
    destruct (shr_1_bits prev Hpos) as [Hr Hs].
    rewrite Hr, Hs, Hprev, IHr, IHs. split; [reflexivity|].
    rewrite (Nat2Z.inj_succ k), Z.pow_succ_r by lia.
    set (P := 2 ^ Z.of_nat k).
    assert (HP : 0 < P) by (apply Z.pow_pos_nonneg; lia).
    rewrite (Z.mul_comm 2 P), Z.rem_mul_r by lia.
    pose proof (Z.mod_pos_bound m P HP) as Hb.
    pose proof (Z.mod_pos_bound (m / P) 2 ltac:(lia)) as Hc.
    pose proof (Z.div_mod (m / P) 2 ltac:(lia)) as Hd.
    destruct (Z.odd (m / P)) eqn:O; cbn [orb].
    + apply Z.odd_spec in O. destruct O as [b Hb2].
      symmetry. apply negb_true_iff, Z.eqb_neq. nia.
    + rewrite <- Z.negb_even in O. apply negb_false_iff, Z.even_spec in O.
      destruct O as [b Hb2].
      assert (E0 : (m / P) mod 2 = 0) by lia.
      rewrite E0. f_equal. f_equal. lia.
Qed.

Lemma round_up_spec mrs :
  round_nearest_even (shr_m mrs) (loc_of_shr_record mrs)
  = shr_m mrs
    + (if shr_r mrs && (shr_s mrs || Z.odd (shr_m mrs)) then 1 else 0).
Proof.
  destruct mrs as [m r s]. destruct r, s; cbn; try lia.
  rewrite <- Z.negb_even. destruct (Z.even m); cbn; lia.
Qed.

Lemma odd_mod2 a : Z.odd a = true -> a mod 2 = 1.
Proof.
  intros O. apply Z.odd_spec in O. destruct O as [b Hb].
  pose proof (Z.div_mod a 2 ltac:(lia)).
  pose proof (Z.mod_pos_bound a 2 ltac:(lia)). lia.
Qed.

Lemma even_mod2 a : Z.odd a = false -> a mod 2 = 0.
Proof.
  intros O. rewrite <- Z.negb_even in O.
  apply negb_false_iff, Z.even_spec in O. destruct O as [b Hb].
  pose proof (Z.div_mod a 2 ltac:(lia)).
  pose proof (Z.mod_pos_bound a 2 ltac:(lia)). lia.
Qed.

Lemma rnd_0 m : rnd m 0 = m.
Proof. reflexivity. Qed.

Lemma rnd_S m k :
  0 <= m ->
  rnd m (S k)
  = m / 2 ^ Z.of_nat k / 2
    + (if Z.odd (m / 2 ^ Z.of_nat k)
          && (negb (m mod 2 ^ Z.of_nat k =? 0)
              || Z.odd (m / 2 ^ Z.of_nat k / 2))
       then 1 else 0).
Proof.
  intros Hm. unfold rnd. rewrite round_up_spec.
  destruct (shr_iter_bits k m Hm) as [Hr Hs]. cbv zeta in Hr, Hs.
  unfold shifted. rewrite Hr, Hs.
  rewrite shr_iter_m by (cbn; lia). cbn [shr_m].
  rewrite Nat2Z.inj_succ, Z.pow_succ_r by lia.
  rewrite (Z.mul_comm 2), <- Z.div_div by (try apply Z.pow_pos_nonneg; lia).
  reflexivity.
Qed.

Lemma rnd_bounds m n :
  0 <= m -> m / 2 ^ Z.of_nat n <= rnd m n <= m / 2 ^ Z.of_nat n + 1.
Proof.
  intros Hm. unfold rnd. rewrite round_up_spec. unfold shifted.
  rewrite shr_iter_m by (cbn; lia). cbn [shr_m].
  destruct (_ && _); lia.
Qed.

(** Rounding after a shift is monotone. *)
Lemma rnd_mono m m' n : 0 <= m <= m' -> rnd m n <= rnd m' n.
Proof.
  intros Hm. destruct n as [|k]; [rewrite !rnd_0; lia|].
  rewrite !rnd_S by lia.
  set (P := 2 ^ Z.of_nat k).
  assert (HP : 0 < P) by (apply Z.pow_pos_nonneg; lia).
  pose proof (Z.div_mod m P ltac:(lia)) as D.
  pose proof (Z.div_mod m' P ltac:(lia)) as D'.
  pose proof (Z.mod_pos_bound m P HP) as B.
  pose proof (Z.mod_pos_bound m' P HP) as B'.
  assert (Ha : m / P <= m' / P) by (apply Z.div_le_mono; lia).
  set (a := m / P) in *. set (a' := m' / P) in *.
  set (b := m mod P) in *. set (b' := m' mod P) in *.
  pose proof (Z.div_mod a 2 ltac:(lia)) as A.
  pose proof (Z.div_mod a' 2 ltac:(lia)) as A'.
  pose proof (Z.mod_pos_bound a 2 ltac:(lia)) as C.
  pose proof (Z.mod_pos_bound a' 2 ltac:(lia)) as C'.
  destruct (Z.eq_dec (a / 2) (a' / 2)) as [Eq|Ne].
  - rewrite <- Eq.
    destruct (Z.odd a) eqn:O; cbn [andb]; [|destruct (_ && _); lia].
    apply odd_mod2 in O.
    assert (Ea : a' = a) by lia.
    assert (O' : Z.odd a' = true) by (rewrite Ea; apply Z.odd_spec; exists (a / 2); lia).
    rewrite O'. cbn [andb].
    destruct (Z.odd (a / 2)).
    + rewrite !orb_true_r. lia.
    + rewrite !orb_false_r.
      destruct (b =? 0) eqn:Zb; cbn [negb]; [destruct (negb _); lia|].
      apply Z.eqb_neq in Zb.
      assert (Zb' : b' <> 0) by nia.
      apply Z.eqb_neq in Zb'. rewrite Zb'. cbn. lia.
  - assert (a / 2 < a' / 2) by lia.
    destruct (_ && _), (_ && _); lia.
Qed.

Lemma Zdigits2_bounds m :
  0 < m -> 2 ^ (Zdigits2 m - 1) <= m < 2 ^ Zdigits2 m.
Proof.
  intros Hm. rewrite Zdigits2_pos_log2 by assumption.
  pose proof (Z.log2_spec m Hm) as S.
  replace (Z.log2 m + 1 - 1) with (Z.log2 m) by lia.
  replace (Z.log2 m + 1) with (Z.succ (Z.log2 m)) by lia. exact S.
Qed.

Lemma Zdigits2_succ q :
  0 < q ->
  Zdigits2 (q + 1) = Zdigits2 q \/
  (Zdigits2 (q + 1) = Zdigits2 q + 1 /\ q + 1 = 2 ^ Zdigits2 q).
Proof.
  intros Hq. rewrite !Zdigits2_pos_log2 by lia.
  pose proof (Z.log2_spec q Hq) as S.
  destruct (Z.log2_succ_or q) as [E|E]; change (Z.succ q) with (q + 1) in E.
  - right. split; [lia|].
    pose proof (Z.log2_spec (q + 1) ltac:(lia)) as S'.
    rewrite E in S'.
    replace (Z.log2 q + 1) with (Z.succ (Z.log2 q)) by lia. lia.
  - left. lia.
Qed.

Lemma shr_fexp_shifted m e :
  0 <= m -> e <= fexp prec emax (Zdigits2 m + e) ->
  shr_fexp prec emax m e loc_Exact
  = (shifted m (Z.to_nat (fexp prec emax (Zdigits2 m + e) - e)),
     fexp prec emax (Zdigits2 m + e)).
Proof.
  intros Hm Hle. unfold shr_fexp, shr, shifted.
  destruct (fexp prec emax (Zdigits2 m + e) - e) as [|p|p] eqn:En; try lia.
  - cbn. f_equal. lia.
  - rewrite iter_pos_nat. cbn [Z.to_nat shr_record_of_loc]. f_equal. lia.
Qed.

(** The exponent is ready for the second normalisation. *)
Lemma rounded_ready m e :
  0 < m -> e <= fexp prec emax (Zdigits2 m + e) ->
  let E := fexp prec emax (Zdigits2 m + e) in
  let q := rnd m (Z.to_nat (E - e)) in
  0 < q ->
  E <= fexp prec emax (Zdigits2 q + E) <= E + 1 /\
  (fexp prec emax (Zdigits2 q + E) = E + 1 -> q = 2 ^ 53).
Proof.
  intros Hm Hle E q Hq.
  pose proof (rnd_bounds m (Z.to_nat (E - e)) ltac:(lia)) as B. fold q in B.
  rewrite Z2Nat.id in B by (unfold E; lia).
  set (q0 := m / 2 ^ (E - e)) in *.
  assert (H0 : 0 <= q0)
    by (apply Z.div_pos; [lia | apply Z.pow_pos_nonneg; unfold E; lia]).
  destruct (Z.eq_dec q0 0) as [Z0|NZ0].
  - (* everything was shifted out and the result rounded up to one *)
    assert (q = 1) by lia.
    unfold q0 in Z0. rewrite <- Z.shiftr_div_pow2 in Z0 by (unfold E; lia).
    apply Z.shiftr_eq_0_iff in Z0. destruct Z0 as [?|[_ Hlog]]; [lia|].
    rewrite H. change (Zdigits2 1) with 1.
    pose proof (Zdigits2_pos_log2 m Hm) as Dm.
    revert Hlog Hle Dm. unfold E, fexp, emin, prec, emax. lia.
  - assert (Hq0 : 0 < q0) by lia.
    assert (Hc : fexp prec emax (Zdigits2 q0 + E) = E).
    { unfold q0. rewrite Zdigits2_shiftr by (unfold E; lia || assumption).
      unfold E. f_equal. lia. }
    assert (Hd : Zdigits2 q0 <= 53).
    { unfold q0. rewrite Zdigits2_shiftr by (unfold E; lia || assumption).
      unfold E, fexp, emin, prec, emax. lia. }
    destruct (Z.eq_dec q q0) as [->|Nq]; [rewrite Hc; lia|].
    assert (Eq : q = q0 + 1) by lia. rewrite Eq.
    destruct (Zdigits2_succ q0 Hq0) as [D|[D P]]; rewrite D.
    + rewrite Hc. lia.
    + split.
      * revert Hc. unfold fexp, emin, prec, emax. lia.
      * intros H1. rewrite P. f_equal.
        revert Hc H1 Hd. unfold fexp, emin, prec, emax. lia.
Qed.

Lemma pow2_mul_lt p a b c :
  0 <= a -> 0 <= b -> p < 2 ^ a -> a + b <= c -> p * 2 ^ b < 2 ^ c.
Proof.
  intros Ha Hb Hp Hc.
  assert (0 < 2 ^ b) by (apply Z.pow_pos_nonneg; lia).
  apply Z.lt_le_trans with (2 ^ a * 2 ^ b).
  - apply Z.mul_lt_mono_pos_r; assumption.
  - rewrite <- Z.pow_add_r by lia. apply Z.pow_le_mono_r; lia.
Qed.

Lemma pow2_mul_ge p a b c :
  0 <= a -> 0 <= b -> 2 ^ a <= p -> c <= a + b -> 2 ^ c <= p * 2 ^ b.
Proof.
  intros Ha Hb Hp Hc.
  assert (0 < 2 ^ b) by (apply Z.pow_pos_nonneg; lia).
  apply Z.le_trans with (2 ^ a * 2 ^ b).
  - rewrite <- Z.pow_add_r by lia.
    destruct (Z.le_gt_cases 0 c).
    + apply Z.pow_le_mono_r; lia.
    + rewrite (Z.pow_neg_r 2 c) by lia. apply Z.pow_nonneg. lia.
  - apply Z.mul_le_mono_nonneg_r; lia.
Qed.

Lemma shifted_m q k : 0 <= q -> shr_m (shifted q k) = q / 2 ^ Z.of_nat k.
Proof. intros H. unfold shifted. now rewrite shr_iter_m. Qed.

(** The value of a rounded result is the rounded mantissa at the rounding
    exponent, unless that overflows. *)
Lemma val_round m e :
  0 < m -> e <= fexp prec emax (Zdigits2 m + e) ->
  let E := fexp prec emax (Zdigits2 m + e) in
  val (binary_round_aux prec emax false m e loc_Exact)
  = Z.min (rnd m (Z.to_nat (E - e)) * 2 ^ (E + 1074)) (2 ^ 2098).
Proof.
  intros Hm Hle E.
  assert (HE : -1074 <= E) by (unfold E, fexp, emin, prec, emax; lia).
  unfold binary_round_aux. rewrite shr_fexp_shifted by (lia || assumption).
  fold E. change (round_nearest_even _ _) with (rnd m (Z.to_nat (E - e))).
  pose proof (rnd_bounds m (Z.to_nat (E - e)) ltac:(lia)) as B.
  pose proof (rounded_ready m e Hm Hle) as R. cbv zeta in R. fold E in R.
  set (q := rnd m (Z.to_nat (E - e))) in *.
  assert (Hq0 : 0 <= q).
  { destruct B as [B _]. eapply Z.le_trans; [|exact B].
    apply Z.div_pos; [lia | apply Z.pow_pos_nonneg; lia]. }
  assert (P2098 : 0 < 2 ^ 2098) by (apply Z.pow_pos_nonneg; lia).
  destruct (Z.eq_dec q 0) as [Zq|NZq].
  { rewrite Zq.
    assert (Hz : shr_m (fst (shr_fexp prec emax 0 E loc_Exact)) = 0).
    { unfold shr_fexp, shr.
      destruct (fexp prec emax (Zdigits2 0 + E) - E) as [|p|p]; cbn [fst];
        try reflexivity.
      rewrite iter_pos_nat, shr_iter_m by (cbn; lia). reflexivity. }
    destruct (shr_fexp prec emax 0 E loc_Exact) as [mrs2 e2]. cbn [fst] in Hz.
    rewrite Hz. cbn [val]. lia. }
  assert (Hq : 0 < q) by lia. destruct (R Hq) as [[R1 R2] R3]. clear R.
  rewrite shr_fexp_shifted by lia.
  set (E2 := fexp prec emax (Zdigits2 q + E)) in *.
  rewrite shifted_m by lia. rewrite Z2Nat.id by lia.
  change (emax - prec) with 971.
  pose proof (Zdigits2_bounds q Hq) as Dq.
  pose proof (Zdigits2_nonneg q Hq0) as Dn.
  destruct (Z.eq_dec E2 E) as [E0|E1].
  - (* no second shift *)
    rewrite E0, Z.sub_diag, Z.pow_0_r, Z.div_1_r.
    destruct q as [|p|p] eqn:Ep; try lia.
    assert (Hdig : Zdigits2 (Zpos p) <= 53 /\
                   (971 < E -> Zdigits2 (Zpos p) = 53)).
    { revert E0. unfold E2, fexp, emin, prec, emax. lia. }
    destruct Hdig as [Hd53 HdN].
    destruct (E <=? 971) eqn:Le; cbn [val].
    + apply Z.leb_le in Le. symmetry. apply Z.min_l, Z.lt_le_incl.
      apply (pow2_mul_lt _ (Zdigits2 (Zpos p))); lia.
    + apply Z.leb_gt in Le. symmetry. apply Z.min_r.
      apply (pow2_mul_ge _ (Zdigits2 (Zpos p) - 1)); lia.
  - (* the mantissa was rounded up to a power of two *)
    assert (E21 : E2 = E + 1) by lia. rewrite (R3 E21), E21.
    replace (E + 1 - E) with 1 by lia.
    change (2 ^ 53 / 2 ^ 1) with (Zpos 4503599627370496).
    destruct (E + 1 <=? 971) eqn:Le; cbn [val].
    + apply Z.leb_le in Le.
      change (Zpos 4503599627370496) with (2 ^ 52).
      rewrite <- !Z.pow_add_r by lia.
      replace (52 + (E + 1 + 1074)) with (53 + (E + 1074)) by lia.
      symmetry. apply Z.min_l. apply Z.pow_le_mono_r; lia.
    + apply Z.leb_gt in Le. rewrite <- Z.pow_add_r by lia.
      symmetry. apply Z.min_r. apply Z.pow_le_mono_r; lia.
Qed.

(** A larger mantissa at the same exponent rounds to a larger value. *)
Lemma rounded_value_mono m m' e :
  0 < m <= m' -> e <= fexp prec emax (Zdigits2 m + e) ->
  let E := fexp prec emax (Zdigits2 m + e) in
  let E' := fexp prec emax (Zdigits2 m' + e) in
  rnd m (Z.to_nat (E - e)) * 2 ^ (E + 1074)
  <= rnd m' (Z.to_nat (E' - e)) * 2 ^ (E' + 1074).
Proof.
  intros Hm Hle E E'.
  pose proof (Zdigits2_mono m m' ltac:(lia) ltac:(lia)) as Hd.
  assert (HE : -1074 <= E <= E')
    by (unfold E, E', fexp, emin, prec, emax; lia).
  destruct (Z.eq_dec E E') as [Eq|Ne].
  - rewrite <- Eq. apply Z.mul_le_mono_nonneg_r; [apply Z.pow_nonneg; lia|].
    apply rnd_mono. lia.
  - assert (Hlt : E < E') by lia.
    assert (HE' : E' = Zdigits2 m' + e - 53 /\ Zdigits2 m < Zdigits2 m').
    { revert Hlt. unfold E, E', fexp, emin, prec, emax. lia. }
    destruct HE' as [HE' Hdd].
    pose proof (Zdigits2_bounds m ltac:(lia)) as Bm.
    pose proof (Zdigits2_bounds m' ltac:(lia)) as Bm'.
    pose proof (Zdigits2_nonneg m ltac:(lia)) as Dn.
    pose proof (rnd_bounds m (Z.to_nat (E - e)) ltac:(lia)) as B.
    pose proof (rnd_bounds m' (Z.to_nat (E' - e)) ltac:(lia)) as B'.
    rewrite Z2Nat.id in B, B' by lia.
    set (r := rnd m (Z.to_nat (E - e))) in *.
    set (r' := rnd m' (Z.to_nat (E' - e))) in *.
    (* below: the larger mantissa keeps all of its 53 leading bits *)
    assert (L : 2 ^ 52 <= r').
    { eapply Z.le_trans; [|apply B'].
      apply Z.div_le_lower_bound; [apply Z.pow_pos_nonneg; lia|].
      rewrite <- Z.pow_add_r by lia.
      eapply Z.le_trans; [|apply Bm']. apply Z.pow_le_mono_r; lia. }
    assert (P' : 0 < 2 ^ (E' + 1074)) by (apply Z.pow_pos_nonneg; lia).
    apply Z.le_trans with (2 ^ (52 + (E' + 1074))).
    2:{ rewrite Z.pow_add_r by lia. apply Z.mul_le_mono_nonneg_r; lia. }
    assert (P : 0 < 2 ^ (E + 1074)) by (apply Z.pow_pos_nonneg; lia).
    destruct (Z.le_gt_cases (E - e) (Zdigits2 m)) as [Hn|Hn].
    + (* above: the smaller mantissa has fewer digits *)
      assert (U : r <= 2 ^ (Zdigits2 m - (E - e))).
      { eapply Z.le_trans; [apply B|].
        assert (m / 2 ^ (E - e) < 2 ^ (Zdigits2 m - (E - e))); [|lia].
        apply Z.div_lt_upper_bound; [apply Z.pow_pos_nonneg; lia|].
        rewrite <- Z.pow_add_r by lia.
        replace (E - e + (Zdigits2 m - (E - e))) with (Zdigits2 m) by lia.
        apply Bm. }
      apply Z.le_trans with (2 ^ (Zdigits2 m - (E - e)) * 2 ^ (E + 1074)).
      * apply Z.mul_le_mono_nonneg_r; lia.
      * rewrite <- Z.pow_add_r by lia. apply Z.pow_le_mono_r; lia.
    + assert (U : r <= 1).
      { eapply Z.le_trans; [apply B|].
        rewrite Z.div_small; [lia|]. split; [lia|].
        eapply Z.lt_le_trans; [apply Bm|]. apply Z.pow_le_mono_r; lia. }
      apply Z.le_trans with (1 * 2 ^ (E + 1074)).
      * apply Z.mul_le_mono_nonneg_r; lia.
      * rewrite Z.mul_1_l. apply Z.pow_le_mono_r; lia.
Qed.

Lemma leb_false_ltb x y :
  is_nan x = false -> is_nan y = false -> leb x y = false -> ltb y x = true.
Proof.
  intros Hx Hy. unfold ltb, leb, SFltb, SFleb.
  rewrite (SFcompare_swap x y).
  destruct (SFcompare_some x y Hx Hy) as [c ->]. cbn.
  destruct c; cbn; congruence.
Qed.

Lemma val_lt_finite m1 e1 m2 e2 :
  valid (S754_finite false m1 e1) = true ->
  valid (S754_finite false m2 e2) = true ->
  ltb (S754_finite false m1 e1) (S754_finite false m2 e2) = true ->
  Zpos m1 * 2 ^ (e1 + 1074) < Zpos m2 * 2 ^ (e2 + 1074).
Proof.
  intros V1 V2 L.
  destruct (canonical_facts _ _ _ V1) as (Hd1 & He1 & Hc1).
  destruct (canonical_facts _ _ _ V2) as (Hd2 & He2 & Hc2).
  unfold ltb, SFltb in L. cbn [SFcompare] in L.
  destruct (e1 ?= e2) eqn:C; try discriminate.
  - apply Z.compare_eq in C. subst e2.
    apply Z.mul_lt_mono_pos_r; [apply Z.pow_pos_nonneg; lia|].
    apply Pos2Z.pos_lt_pos. fold (Pos.compare m1 m2) in L.
    destruct (Pos.compare m1 m2) eqn:Cm; try discriminate.
    apply Pos.compare_lt_iff. exact Cm.
  - assert (C' : e1 < e2) by (apply Z.compare_lt_iff; exact C).
    destruct Hc2 as [D2|?]; [|lia].
    pose proof (Zdigits2_bounds (Zpos m1) ltac:(lia)) as B1.
    pose proof (Zdigits2_bounds (Zpos m2) ltac:(lia)) as B2.
    apply Z.lt_le_trans with (2 ^ (53 + (e1 + 1074))).
    + rewrite (Z.pow_add_r 2 53 (e1 + 1074)) by lia.
      apply Z.mul_lt_mono_pos_r; [apply Z.pow_pos_nonneg; lia|].
      eapply Z.lt_le_trans; [apply B1|]. apply Z.pow_le_mono_r; lia.
    + apply (pow2_mul_ge _ 52); try lia. rewrite D2 in B2. apply B2.
Qed.

(** On non-negative floats of the format, [SFleb] is the order of the
    values. *)
Lemma val_le_leb x y :
  wf x = true -> wf y = true -> val x <= val y -> leb x y = true.
Proof.
  intros Wx Wy H.
  destruct (leb x y) eqn:L; [reflexivity|exfalso].
  apply leb_false_ltb in L; auto using wf_not_nan.
  apply wf_split in Wx, Wy. destruct Wx as [Vx Nx], Wy as [Vy Ny].
  assert (P : 0 < 2 ^ 2098) by (apply Z.pow_pos_nonneg; lia).
  destruct (nonneg_cases x Nx) as [[sx ->]|[->|(mx & ex & ->)]];
  destruct (nonneg_cases y Ny) as [[sy ->]|[->|(my & ey & ->)]];
    try (unfold ltb, SFltb in L; cbn in L; discriminate); cbn [val] in H.
  - lia.
  - destruct (canonical_facts _ _ _ Vy) as (Hd & He & Hc).
    pose proof (Zdigits2_bounds (Zpos my) ltac:(lia)) as B.
    assert (Zpos my * 2 ^ (ey + 1074) < 2 ^ 2098); [|lia].
    apply (pow2_mul_lt _ (Zdigits2 (Zpos my))); lia.
  - destruct (canonical_facts _ _ _ Vx) as (Hd & He & Hc).
    assert (0 < Zpos mx * 2 ^ (ex + 1074)); [|lia].
    apply Z.mul_pos_pos; [lia | apply Z.pow_pos_nonneg; lia].
  - pose proof (val_lt_finite _ _ _ _ Vy Vx L). lia.
Qed.

(** A product grows with the mantissa of its second factor. *)
Lemma mul_mono_mantissa t m1 m2 ec :
  wf t = true ->
  valid (S754_finite false m1 ec) = true ->
  valid (S754_finite false m2 ec) = true ->
  (m1 <= m2)%positive ->
  leb (mul t (S754_finite false m1 ec)) (mul t (S754_finite false m2 ec))
  = true.
Proof.
  intros Wt V1 V2 Hm.
  apply val_le_leb; try (apply wf_mul; assumption).
  apply wf_split in Wt. destruct Wt as [Vt Nt].
  destruct (nonneg_cases t Nt) as [[s ->]|[->|(mt & et & ->)]].
  - apply Z.le_refl.
  - apply Z.le_refl.
  - unfold mul, SFmul. cbn [xorb].
    rewrite !val_round by (lia || (eapply mul_ready; eassumption)).
    apply Z.min_le_compat_r.
    apply rounded_value_mono.
    + rewrite !Pos2Z.inj_mul. split; [lia|].
      apply Z.mul_le_mono_nonneg_l; [lia|]. apply Pos2Z.pos_le_pos. exact Hm.
    + eapply mul_ready; eassumption.
Qed.


(* ====================================================================== *)
(** * Facts about the calculator *)
(* ====================================================================== *)

(** ** The builtins [max] and [min] *)

Lemma py_max_cases a b : py_max a b = a \/ py_max a b = b.
Proof. unfold py_max. destruct (gtb b a); auto. Qed.

Lemma py_min_cases a b : py_min a b = a \/ py_min a b = b.
Proof. unfold py_min. destruct (ltb b a); auto. Qed.

Lemma wf_py_max a b : wf a = true -> wf b = true -> wf (py_max a b) = true.
Proof. intros. destruct (py_max_cases a b) as [-> | ->]; assumption. Qed.

Lemma wf_py_min a b : wf a = true -> wf b = true -> wf (py_min a b) = true.
Proof. intros. destruct (py_min_cases a b) as [-> | ->]; assumption. Qed.

Lemma py_max_ge_r a b :
  is_nan a = false -> is_nan b = false -> leb b (py_max a b) = true.
Proof.
  intros Ha Hb. unfold py_max, gtb. destruct (ltb a b) eqn:E.
  - now apply leb_refl.
  - now apply ltb_false_leb.
Qed.

Lemma py_max_ge_l a b :
  is_nan a = false -> is_nan b = false -> leb a (py_max a b) = true.
Proof.
  intros Ha Hb. unfold py_max, gtb. destruct (ltb a b) eqn:E.
  - now apply ltb_leb.
  - now apply leb_refl.
Qed.

Lemma py_min_le_r a b :
  is_nan a = false -> is_nan b = false -> leb (py_min a b) b = true.
Proof.
  intros Ha Hb. unfold py_min. destruct (ltb b a) eqn:E.
  - now apply leb_refl.
  - now apply ltb_false_leb.
Qed.

(** ** The constants *)

Lemma decimal_85 : decimal 85 100 = S754_finite false 7656119366529843 (-53).
Proof. vm_compute. reflexivity. Qed.

Lemma decimal_1 : decimal 1 1 = S754_finite false 4503599627370496 (-52).
Proof. vm_compute. reflexivity. Qed.

Lemma wf_mul_ratio t mode : wf t = true -> wf (mul t (ceiling_ratio mode)) = true.
Proof.
  intros H. unfold ceiling_ratio. destruct (String.eqb mode "auto").
  - rewrite decimal_85. now apply wf_mul.
  - now apply wf_mul.
Qed.

Lemma wf_mul_strategy t k : wf t = true -> wf (mul t (MEMORY_STRATEGY k)) = true.
Proof. intros H. destruct k; now apply wf_mul. Qed.

Lemma wf_add_one r : wf r = true -> wf (add r (decimal 1 1)) = true.
Proof. intros H. rewrite decimal_1. now apply wf_add. Qed.

Lemma strategy_tight : MEMORY_STRATEGY tight = decimal 80 100.
Proof. vm_compute. reflexivity. Qed.

Lemma max_ratio_decimal : MAX_RESERVED_RATIO = decimal 9 10.
Proof. vm_compute. reflexivity. Qed.

(** ** The outcome of each mode, free of effects *)

Lemma fst_convert v (d : Detail) (w : World) :
  fst ((b <- lift_result (to_bytes v) ;; ret (b, d)) w) = convert v d.
Proof.
  unfold bind, lift_result, ret, convert. destruct (to_bytes v); reflexivity.
Qed.

Lemma fst_logger {A} l msg (c : M World A) w :
  exists w', (logger l msg ;; c) w = c w'.
Proof. unfold bind, logger, modify. eauto. Qed.

Lemma result_bytes_convert v d : result_bytes (convert v d) = to_bytes v.
Proof. unfold convert. destruct (to_bytes v); reflexivity. Qed.

Lemma convert_detail v d :
  result_detail (convert v d) = None \/ result_detail (convert v d) = Some d.
Proof. unfold convert. destruct (to_bytes v); cbn; auto. Qed.

Lemma never_fallback_convert v d :
  flags_no_gpu_info d = false -> never_fallback (convert v d).
Proof.
  intros H. unfold never_fallback.
  destruct (convert_detail v d) as [-> | ->]; auto.
Qed.

Lemma manual_outcome r m snap w :
  fst (_manual_mode r m snap w)
  = match snap with
    | Some (total, used, _) =>
        if gtb (py_max r m) (mul total MAX_RESERVED_RATIO) then
          convert (mul total MAX_RESERVED_RATIO)
            (ManualLimited r (mul total MAX_RESERVED_RATIO)
               (mul_int MAX_RESERVED_RATIO 100))
        else convert (py_max r m) (ManualPlain (py_max r m) total used)
    | None => convert (py_max r m) (ManualNoGPUInfo (py_max r m))
    end.
Proof.
  unfold _manual_mode. destruct snap as [[[t u] f]|].
  - destruct (gtb (py_max r m) (mul t MAX_RESERVED_RATIO)).
    + match goal with
      | |- fst ((logger ?l ?msg ;; ?c) w) = _ =>
          destruct (fst_logger l msg c w) as [w' ->]
      end. apply fst_convert.
    + apply fst_convert.
  - apply fst_convert.
Qed.

Lemma auto_outcome r m snap w :
  fst (_auto_mode r m snap w)
  = match snap with
    | Some (total, used, _) =>
        let auto_reserved := py_max (add used r) m in
        let safe_reserved := py_min auto_reserved (mul total (decimal 85 100)) in
        convert safe_reserved
          (if neqb auto_reserved safe_reserved
           then AutoLimited auto_reserved safe_reserved used r
           else AutoPlain safe_reserved used r)
    | None => convert (py_max r m) (ManualNoGPUInfo (py_max r m))
    end.
Proof.
  unfold _auto_mode. destruct snap as [[[t u] f]|].
  - apply fst_convert.
  - destruct (fst_logger WARNING MsgAutoFallback (_manual_mode r m None) w)
      as [w' ->].
    apply (manual_outcome r m None).
Qed.

Lemma smart_outcome r m snap w :
  fst (_smart_mode r m snap w)
  = match snap with
    | Some (total, used, free) =>
        match py_div free total with
        | Raise e => Raise e
        | Ok available_ratio =>
            let base_reserved := add used r in
            let '(smart_reserved, status) :=
              if ltb available_ratio (decimal 2 10) then
                (py_max base_reserved (mul total (MEMORY_STRATEGY tight)), tight)
              else if ltb available_ratio (decimal 4 10) then
                (base_reserved, medium)
              else (py_max base_reserved m, loose) in
            let smart_reserved := py_max smart_reserved m in
            let safe_reserved :=
              py_min smart_reserved (mul total MAX_RESERVED_RATIO) in
            convert safe_reserved
              (SmartDetail safe_reserved status free total
                 (mul_int available_ratio 100)
                 (if neqb smart_reserved safe_reserved
                  then Some (smart_reserved, safe_reserved) else None))
        end
    | None =>
        convert (py_max (add r (decimal 1 1)) m)
          (SmartNoGPUInfo (py_max (add r (decimal 1 1)) m))
    end.
Proof.
  unfold _smart_mode. destruct snap as [[[t u] f]|].
  - unfold bind at 1, lift_result at 1.
    destruct (py_div f t) as [ratio|e]; [|reflexivity].
    destruct (ltb ratio (decimal 2 10)); [apply fst_convert|].
    destruct (ltb ratio (decimal 4 10)); apply fst_convert.
  - match goal with
    | |- fst ((logger ?l ?msg ;; ?c) w) = _ =>
        destruct (fst_logger l msg c w) as [w' ->]
    end. apply fst_convert.
Qed.

Lemma calculate_manual r m snap gm idx w w1 :
  obj_get_gpu_memory_info gm idx w = (Ok snap, w1) ->
  fst (calculate_reserved_memory r "manual" idx m gm w)
  = fst (_manual_mode r m snap w1).
Proof.
  intros H. unfold calculate_reserved_memory, bind at 1. rewrite H. reflexivity.
Qed.

Lemma calculate_auto r m snap gm idx w w1 :
  obj_get_gpu_memory_info gm idx w = (Ok snap, w1) ->
  fst (calculate_reserved_memory r "auto" idx m gm w)
  = fst (_auto_mode r m snap w1).
Proof.
  intros H. unfold calculate_reserved_memory, bind at 1. rewrite H. reflexivity.
Qed.

Lemma calculate_smart r m snap gm idx w w1 :
  obj_get_gpu_memory_info gm idx w = (Ok snap, w1) ->
  fst (calculate_reserved_memory r "smart" idx m gm w)
  = fst (_smart_mode r m snap w1).
Proof.
  intros H. unfold calculate_reserved_memory, bind at 1. rewrite H. reflexivity.
Qed.

Lemma calculate_unknown r mode m snap gm idx w w1 :
  known_mode mode = false ->
  obj_get_gpu_memory_info gm idx w = (Ok snap, w1) ->
  calculate_reserved_memory r mode idx m gm w
  = (convert (py_max r m) DefaultMode,
     {| clock := clock w1;
        EXTRA_RESERVED_MEMORY := EXTRA_RESERVED_MEMORY w1;
        log := (WARNING, MsgUnknownMode mode) :: log w1 |}).
Proof.
  intros Hk H. unfold known_mode in Hk.
  apply orb_false_iff in Hk. destruct Hk as [Hk E3].
  apply orb_false_iff in Hk. destruct Hk as [E1 E2].
  unfold calculate_reserved_memory, bind at 1. rewrite H, E1, E2, E3.
  unfold bind, logger, modify, lift_result, ret, convert.
  destruct (to_bytes (py_max r m)); reflexivity.
Qed.

Lemma modes_dispatch r mode idx m gm w snap w1 :
  obj_get_gpu_memory_info gm idx w = (Ok snap, w1) ->
  forall Q : Result (Z * Detail) -> Prop,
  (mode = "manual"%string -> Q (fst (_manual_mode r m snap w1))) ->
  (mode = "auto"%string -> Q (fst (_auto_mode r m snap w1))) ->
  (mode = "smart"%string -> Q (fst (_smart_mode r m snap w1))) ->
  (known_mode mode = false ->
   Q (convert (py_max r m) DefaultMode)) ->
  Q (fst (calculate_reserved_memory r mode idx m gm w)).
Proof.
  intros Hget Q Hman Hauto Hsmart Hother.
  unfold calculate_reserved_memory, bind at 1. rewrite Hget.
  unfold known_mode in Hother.
  destruct (String.eqb mode "manual") eqn:E1.
  { apply String.eqb_eq in E1. auto. }
  destruct (String.eqb mode "auto") eqn:E2.
  { apply String.eqb_eq in E2. auto. }
  destruct (String.eqb mode "smart") eqn:E3.
  { apply String.eqb_eq in E3. auto. }
  destruct (fst_logger WARNING (MsgUnknownMode mode)
              (b <- lift_result (to_bytes (py_max r m)) ;; ret (b, DefaultMode)) w1)
    as [w' ->].
  rewrite fst_convert. auto.
Qed.

(** ** Bounds on the converted value *)

Lemma ceiling_convert cap v d :
  wf v = true -> wf cap = true -> leb v cap = true ->
  ceiling_holds cap (convert v d).
Proof.
  intros Wv Wc L. unfold convert, ceiling_holds.
  destruct (to_bytes v) as [b|e] eqn:E.
  - intros c Hc. destruct (to_bytes_mono v cap c Wv Wc L Hc) as (bx & Hx & Hle).
    congruence.
  - left. exact (to_bytes_raise v e Wv E).
Qed.

Lemma nonneg_convert v d : wf v = true -> nonneg_holds (convert v d).
Proof.
  intros Wv. unfold convert, nonneg_holds.
  destruct (to_bytes v) as [b|e] eqn:E.
  - exact (to_bytes_nonneg v b Wv E).
  - left. exact (to_bytes_raise v e Wv E).
Qed.

Lemma py_div_raise x y e : py_div x y = Raise e -> e = ZeroDivisionError.
Proof. unfold py_div. destruct (is_zero y); congruence. Qed.

Lemma wf_snapshot_some t u f :
  wf_snapshot (Some (t, u, f)) = true ->
  wf t = true /\ wf u = true /\ wf f = true.
Proof. cbn. rewrite !andb_true_iff. tauto. Qed.

(** The value smart mode settles on with a snapshot, whatever the band. *)
Lemma smart_value_wf r m t u ratio :
  wf r = true -> wf m = true -> wf t = true -> wf u = true ->
  let '(smart_reserved, status) :=
    if ltb ratio (decimal 2 10) then
      (py_max (add u r) (mul t (MEMORY_STRATEGY tight)), tight)
    else if ltb ratio (decimal 4 10) then (add u r, medium)
    else (py_max (add u r) m, loose) in
  wf smart_reserved = true.
Proof.
  intros Wr Wm Wt Wu.
  destruct (ltb ratio (decimal 2 10)); [|destruct (ltb ratio (decimal 4 10))].
  - apply wf_py_max; [now apply wf_add | now apply wf_mul_strategy].
  - now apply wf_add.
  - apply wf_py_max; [now apply wf_add | assumption].
Qed.

(** The ceiling of auto mode lies under the ceiling of the other modes. *)
Lemma auto_ceiling_below t :
  wf t = true ->
  leb (mul t (decimal 85 100)) (mul t MAX_RESERVED_RATIO) = true.
Proof.
  intros Wt. rewrite decimal_85. unfold MAX_RESERVED_RATIO.
  apply mul_mono_mantissa; try assumption; try reflexivity.
  discriminate.
Qed.

Lemma ceiling_weaken cap cap' r :
  wf cap = true -> wf cap' = true -> leb cap cap' = true ->
  ceiling_holds cap r -> ceiling_holds cap' r.
Proof.
  intros Wc Wc' L. unfold ceiling_holds, outcome_satisfies.
  destruct r as [[b d]|e]; [|auto].
  intros H c' Hc'.
  destruct (to_bytes_mono cap cap' c' Wc Wc' L Hc') as (c & Hc & Hle).
  specialize (H c Hc). lia.
Qed.

(** ** When the calculator returns *)

Lemma convertible_convert v d :
  convertible v = true -> exists b, convert v d = Ok (b, d).
Proof.
  unfold convertible, convert. destruct (to_bytes v); [eauto | discriminate].
Qed.

Lemma convertible_below x y :
  wf x = true -> wf y = true -> leb x y = true ->
  convertible y = true -> convertible x = true.
Proof.
  intros Wx Wy L. unfold convertible.
  destruct (to_bytes y) as [b|e] eqn:E; [|discriminate]. intros _.
  destruct (to_bytes_mono x y b Wx Wy L E) as (bx & -> & _). reflexivity.
Qed.

(** The calculator returns a byte count whenever the values it may settle
    on are convertible and, with a snapshot, the total is not zero. *)
Lemma calculate_returns r mode m snap gm idx w w1 :
  wf r = true -> wf m = true -> wf_snapshot snap = true ->
  obj_get_gpu_memory_info gm idx w = (Ok snap, w1) ->
  convertible (py_max r m) = true ->
  convertible (py_max (add r (decimal 1 1)) m) = true ->
  match snap with
  | Some (total, _, _) =>
      is_zero total = false /\
      convertible (mul total (ceiling_ratio mode)) = true
  | None => True
  end ->
  exists b d, fst (calculate_reserved_memory r mode idx m gm w) = Ok (b, d).
Proof.
  intros Wr Wm Ws Hget C1 C2 Hs.
  apply (modes_dispatch r mode idx m gm w snap w1 Hget).
  - intros ->. rewrite manual_outcome.
    destruct snap as [[[t u] f]|].
    + destruct Hs as [_ Hc]. cbn in Hc.
      destruct (gtb _ _);
        [destruct (convertible_convert _ (ManualLimited r (mul t MAX_RESERVED_RATIO) (mul_int MAX_RESERVED_RATIO 100)) Hc)
        |destruct (convertible_convert _ (ManualPlain (py_max r m) t u) C1)];
        eauto.
    + destruct (convertible_convert _ (ManualNoGPUInfo (py_max r m)) C1); eauto.
  - intros ->. rewrite auto_outcome.
    destruct snap as [[[t u] f]|].
    + apply wf_snapshot_some in Ws. destruct Ws as (Wt & Wu & Wf).
      destruct Hs as [_ Hc]. cbn in Hc. cbv zeta.
      pose proof (wf_add u r Wu Wr) as Wa.
      pose proof (wf_mul_ratio t "auto" Wt) as Wc. cbn in Wc.
      match goal with
      | |- exists b d, convert ?v ?dd = _ =>
          assert (Cv : convertible v = true);
          [|destruct (convertible_convert v dd Cv); eauto]
      end.
      apply (convertible_below _ (mul t (decimal 85 100)));
        auto using wf_py_max, wf_py_min.
      apply py_min_le_r; auto using wf_not_nan, wf_py_max.
    + destruct (convertible_convert _ (ManualNoGPUInfo (py_max r m)) C1); eauto.
  - intros ->. rewrite smart_outcome.
    destruct snap as [[[t u] f]|].
    + apply wf_snapshot_some in Ws. destruct Ws as (Wt & Wu & Wf).
      destruct Hs as [Zt Hc]. cbn in Hc.
      unfold py_div. rewrite Zt. cbv zeta.
      pose proof (smart_value_wf r m t u (SFdiv prec emax f t) Wr Wm Wt Wu)
        as Wv.
      destruct (if ltb _ (decimal 2 10) then _ else _) as [v status].
      pose proof (wf_mul_ratio t "smart" Wt) as Wc. cbn in Wc.
      match goal with
      | |- exists b d, convert ?v ?dd = _ =>
          assert (Cv : convertible v = true);
          [|destruct (convertible_convert v dd Cv); eauto]
      end.
      apply (convertible_below _ (mul t MAX_RESERVED_RATIO));
        auto using wf_py_max, wf_py_min.
      apply py_min_le_r; auto using wf_not_nan, wf_py_max.
    + match goal with
      | |- exists b d, convert ?v ?dd = _ =>
          destruct (convertible_convert v dd C2); eauto
      end.
  - intros _. destruct (convertible_convert _ DefaultMode C1); eauto.
Qed.

(** ** The value that the calculator settles on *)

(** The calculator converts the settled value, and with a snapshot its
    explanation never reports missing device information. *)
Lemma calculate_settled r mode m snap gm idx w w1 :
  obj_get_gpu_memory_info gm idx w = (Ok snap, w1) ->
  match settled_value r mode m snap with
  | Ok v =>
      exists d,
        fst (calculate_reserved_memory r mode idx m gm w) = convert v d /\
        (snap <> None -> flags_no_gpu_info d = false)
  | Raise e => fst (calculate_reserved_memory r mode idx m gm w) = Raise e
  end.
Proof.
  intros Hget.
  apply (modes_dispatch r mode idx m gm w snap w1 Hget
           (fun res =>
              match settled_value r mode m snap with
              | Ok v =>
                  exists d,
                    res = convert v d /\
                    (snap <> None -> flags_no_gpu_info d = false)
              | Raise e => res = Raise e
              end)).
  - intros ->. rewrite manual_outcome.
    unfold settled_value, value_with_snapshot, value_without_snapshot.
    cbn [String.eqb Ascii.eqb Bool.eqb].
    destruct snap as [[[t u] f]|]; cbn [total_gb used_gb free_gb fst snd].
    + destruct (gtb (py_max r m) (mul t MAX_RESERVED_RATIO));
        eexists; split; reflexivity.
    + eexists. split; [reflexivity|congruence].
  - intros ->. rewrite auto_outcome.
    unfold settled_value, value_with_snapshot, value_without_snapshot.
    cbn [String.eqb Ascii.eqb Bool.eqb].
    destruct snap as [[[t u] f]|]; cbn [total_gb used_gb free_gb fst snd].
    + cbv zeta. eexists. split; [reflexivity|].
      intros _. destruct (neqb _ _); reflexivity.
    + eexists. split; [reflexivity|congruence].
  - intros ->. rewrite smart_outcome.
    unfold settled_value, value_with_snapshot, value_without_snapshot.
    cbn [String.eqb Ascii.eqb Bool.eqb].
    destruct snap as [[[t u] f]|]; cbn [total_gb used_gb free_gb fst snd].
    + destruct (py_div f t) as [ratio|e]; [|reflexivity]. cbv zeta.
      destruct (ltb ratio (decimal 2 10));
        [|destruct (ltb ratio (decimal 4 10))];
        eexists; split; reflexivity.
    + eexists. split; [reflexivity|congruence].
  - intros Hk. unfold known_mode in Hk.
    apply orb_false_iff in Hk. destruct Hk as [Hk E3].
    apply orb_false_iff in Hk. destruct Hk as [E1 E2].
    unfold settled_value, value_with_snapshot, value_without_snapshot.
    rewrite E1, E2, E3.
    destruct snap as [i|]; exists DefaultMode; split; reflexivity.
Qed.


(** On well-formed inputs the settled value is well formed and, where the
    floor applies, not under the floor; no value is settled on only in
    smart mode on a snapshot whose total is zero. *)
Lemma settled_well_formed r mode m snap :
  wf r = true -> wf m = true -> wf_snapshot snap = true ->
  match settled_value r mode m snap with
  | Ok v =>
      wf v = true /\ (floor_applies mode m snap = true -> leb m v = true)
  | Raise e =>
      e = ZeroDivisionError /\ mode = "smart"%string /\
      zero_total snap = true
  end.
Proof.
  intros Wr Wm Ws.
  pose proof (wf_not_nan m Wm) as Nm.
  unfold settled_value, value_with_snapshot, value_without_snapshot,
    floor_applies, known_mode, ceiling_ratio.
  destruct snap as [[[t u] f]|]; cbn [total_gb used_gb free_gb fst snd].
  - apply wf_snapshot_some in Ws. destruct Ws as (Wt & Wu & Wf).
    pose proof (wf_add u r Wu Wr) as Wa.
    destruct (String.eqb mode "manual") eqn:E1.
    { apply String.eqb_eq in E1. subst mode.
      cbn [String.eqb Ascii.eqb Bool.eqb orb].
      pose proof (wf_mul_ratio t "manual" Wt) as Wc. cbn in Wc.
      destruct (gtb (py_max r m) (mul t MAX_RESERVED_RATIO)).
      - split; [assumption|auto].
      - split; [auto using wf_py_max|]. intros _.
        apply py_max_ge_r; auto using wf_not_nan. }
    destruct (String.eqb mode "auto") eqn:E2.
    { apply String.eqb_eq in E2. subst mode.
      cbn [String.eqb Ascii.eqb Bool.eqb orb].
      pose proof (wf_mul_ratio t "auto" Wt) as Wc. cbn in Wc.
      split; [auto using wf_py_max, wf_py_min|]. intros Hfloor.
      destruct (py_min_cases (py_max (add u r) m) (mul t (decimal 85 100)))
        as [-> | ->]; [|assumption].
      apply py_max_ge_r; auto using wf_not_nan. }
    destruct (String.eqb mode "smart") eqn:E3.
    { apply String.eqb_eq in E3. subst mode.
      cbn [String.eqb Ascii.eqb Bool.eqb orb zero_total].
      unfold py_div. destruct (is_zero t) eqn:Zt; [auto|].
      pose proof (smart_value_wf r m t u (SFdiv prec emax f t) Wr Wm Wt Wu)
        as Wv.
      pose proof (wf_mul_ratio t "smart" Wt) as Wc. cbn in Wc.
      match goal with
      | |- wf (py_min (py_max ?x m) _) = true /\ _ =>
          assert (Wx : wf x = true)
      end.
      { destruct (ltb _ (decimal 2 10)); [exact Wv|].
        destruct (ltb _ (decimal 4 10)); exact Wv. }
      split; [auto using wf_py_max, wf_py_min|]. intros Hfloor.
      match goal with
      | |- leb m (py_min ?a ?b) = true =>
          destruct (py_min_cases a b) as [-> | ->]; [|assumption]
      end.
      apply py_max_ge_r; auto using wf_not_nan. }
    cbn [orb]. split; [auto using wf_py_max|]. intros _.
    apply py_max_ge_r; auto using wf_not_nan.
  - destruct (String.eqb mode "smart").
    + split; [auto using wf_py_max, wf_add_one|]. intros _.
      apply py_max_ge_r; auto using wf_not_nan, wf_add_one.
    + split; [auto using wf_py_max|]. intros _.
      apply py_max_ge_r; auto using wf_not_nan.
Qed.

(** The conversion of a well-formed value ends as claimed. *)
Lemma ends_convert (P : Z -> Prop) mode snap v d :
  wf v = true ->
  (forall b, to_bytes v = Ok b -> P b) ->
  ends_as_claimed P mode snap (Ok v) (convert v d).
Proof.
  intros Wv HP. unfold convert, ends_as_claimed.
  destruct (to_bytes v) as [b|e] eqn:E; [auto|].
  right. split; [exact (to_bytes_raise v e Wv E)|].
  exists v. split; [reflexivity|]. unfold convertible. now rewrite E.
Qed.

(** The calculator on well-formed inputs: a property of every byte count
    that the conversion of a well-formed value not under the floor can
    give is a property of the outcome. *)
Lemma calculate_ends (P : Z -> Prop) r mode m snap gm idx w w1 :
  wf r = true -> wf m = true -> wf_snapshot snap = true ->
  obj_get_gpu_memory_info gm idx w = (Ok snap, w1) ->
  (forall v b,
     wf v = true ->
     (floor_applies mode m snap = true -> leb m v = true) ->
     to_bytes v = Ok b -> P b) ->
  ends_as_claimed P mode snap (settled_value r mode m snap)
    (fst (calculate_reserved_memory r mode idx m gm w)).
Proof.
  intros Wr Wm Ws Hget HP.
  pose proof (calculate_settled r mode m snap gm idx w w1 Hget) as Hc.
  pose proof (settled_well_formed r mode m snap Wr Wm Ws) as Hf.
  destruct (settled_value r mode m snap) as [v|e].
  - destruct Hc as (d & -> & _). destruct Hf as (Wv & Hl).
    apply ends_convert; [assumption|]. intros b. now apply HP.
  - rewrite Hc. left. exact Hf.
Qed.

(** ** The smart-mode bands *)

Lemma gtb_zero_not_zero t :
  gtb t zero = true -> is_zero t = false /\ is_nan t = false.
Proof.
  unfold gtb, ltb, SFltb. destruct t as [s|s| |s m e]; cbn; split; congruence.
Qed.

(** The band that the code picks is the band that the specification
    names. *)
Lemma band_of_code ratio :
  is_nan ratio = false ->
  band_of ratio
  = Some (if ltb ratio (decimal 2 10) then tight
          else if ltb ratio (decimal 4 10) then medium else loose).
Proof.
  intros N. unfold band_of.
  assert (N2 : is_nan (decimal 2 10) = false) by (vm_compute; reflexivity).
  assert (N4 : is_nan (decimal 4 10) = false) by (vm_compute; reflexivity).
  destruct (ltb ratio (decimal 2 10)) eqn:L2; [reflexivity|].
  rewrite (ltb_false_leb ratio (decimal 2 10) N N2 L2). cbn [andb].
  destruct (ltb ratio (decimal 4 10)) eqn:L4; [reflexivity|].
  now rewrite (ltb_false_leb ratio (decimal 4 10) N N4 L4).
Qed.

(** ** The default of the [except] clause of [set_memory] *)

Lemma to_bytes_small mm e :
  valid (S754_finite false mm e) = true -> e <= 941 ->
  exists b, to_bytes (S754_finite false mm e) = Ok b.
Proof.
  intros V H. rewrite to_bytes_finite by assumption.
  replace (e <=? 941) with true by (symmetry; apply Z.leb_le; lia). eauto.
Qed.

Lemma fallback_in_range m :
  valid m = true -> leb m (of_Z 8) = true -> fallback_defined m = true.
Proof.
  intros V L. unfold fallback_defined, py_max.
  destruct (gtb m DEFAULT_RESERVED_GB) eqn:G; [|vm_compute; reflexivity].
  replace (of_Z 8) with (S754_finite false 4503599627370496 (-49)) in L
    by (vm_compute; reflexivity).
  unfold gtb, ltb, SFltb, DEFAULT_RESERVED_GB in G. unfold leb, SFleb in L.
  destruct m as [s|s| |s mm e]; cbn [SFcompare] in G, L;
    try discriminate; destruct s; try discriminate.
  assert (He : e <= -49).
  { destruct (e ?= -49) eqn:C; try discriminate.
    - apply Z.compare_eq in C. lia.
    - apply Z.lt_le_incl, Z.compare_lt_iff. exact C. }
  destruct (to_bytes_small mm e V ltac:(lia)) as [b ->]. reflexivity.
Qed.

Lemma set_memory_except_ok m e w :
  fallback_defined m = true ->
  exists w', ReservedMemorySetter.set_memory_except m e w = (Ok tt, w').
Proof.
  unfold fallback_defined, ReservedMemorySetter.set_memory_except.
  destruct (to_bytes (py_max DEFAULT_RESERVED_GB m)) as [b|e'] eqn:E;
    [|discriminate].
  intros _. unfold bind, lift_result.
  unfold set_EXTRA_RESERVED_MEMORY, logger, modify. eauto.
Qed.


(* ====================================================================== *)
(** * Frames, closed forms and the steps of the nodes *)
(* ====================================================================== *)

Import MemoryCleaner.

(** ** Running the monad *)

Ltac run :=
  cbv beta iota zeta delta
    [bind ret get modify logger tick lift_result try_except raise
     zoom update local with_local set_EXTRA_RESERVED_MEMORY fst snd].

Lemma extends_refl w : extends w w.
Proof. repeat split; auto. exists []. reflexivity. Qed.

Lemma extends_trans w1 w2 w3 : extends w1 w2 -> extends w2 w3 -> extends w1 w3.
Proof.
  intros (S1 & C1 & l1 & L1) (S2 & C2 & l2 & L2). repeat split.
  - congruence.
  - lia.
  - exists (l2 ++ l1). rewrite L2, L1. apply app_assoc.
Qed.

Lemma extends_intro w w' records :
  EXTRA_RESERVED_MEMORY w' = EXTRA_RESERVED_MEMORY w ->
  (clock w <= clock w')%nat ->
  log w' = records ++ log w ->
  extends w w'.
Proof. intros. repeat split; eauto. Qed.

Lemma extends_log_record l m w : extends w (log_record l m w).
Proof. repeat split; auto. exists [(l, m)]. reflexivity. Qed.

Lemma extends_tick w : extends w (snd (tick w)).
Proof. repeat split; cbn; auto. exists []. reflexivity. Qed.

Create HintDb frame.

#[local] Hint Resolve extends_refl extends_log_record extends_tick : frame.

(** ** Telemetry in closed form *)

Lemma get_gpu_count_run d w :
  GPUManager.get_gpu_count d w = (Ok (device_count d), counted d w).
Proof.
  unfold GPUManager.get_gpu_count, device_count, counted.
  destruct (pynvml_available d); cbn [negb]; [|reflexivity].
  destruct (nvmlDeviceGetCount d); reflexivity.
Qed.

Lemma validate_gpu_index_run d idx w :
  GPUManager.validate_gpu_index d idx w
  = (Ok (index_in_range d idx), validated d idx w).
Proof.
  unfold GPUManager.validate_gpu_index, bind at 1.
  rewrite get_gpu_count_run. unfold index_in_range, validated, index_in_range.
  destruct (idx <? 0) eqn:A, (idx >=? device_count d) eqn:B,
    (0 <=? idx) eqn:C, (idx <? device_count d) eqn:D; cbn; try reflexivity;
    rewrite ?Z.ltb_lt, ?Z.ltb_ge, ?Z.leb_le, ?Z.leb_gt, ?Z.geb_leb in *; lia.
Qed.

Lemma clock_counted d w : clock (counted d w) = clock w.
Proof.
  unfold counted. destruct (pynvml_available d); [|reflexivity].
  destruct (nvmlDeviceGetCount d); reflexivity.
Qed.

Lemma clock_validated d idx w : clock (validated d idx w) = clock w.
Proof.
  unfold validated. destruct (index_in_range d idx); cbn;
    apply clock_counted.
Qed.

Lemma extends_counted d w : extends w (counted d w).
Proof.
  unfold counted. destruct (pynvml_available d); auto with frame.
  destruct (nvmlDeviceGetCount d); auto with frame.
Qed.

Lemma extends_validated d idx w : extends w (validated d idx w).
Proof.
  unfold validated. destruct (index_in_range d idx).
  - apply extends_counted.
  - eapply extends_trans; [apply extends_counted | apply extends_log_record].
Qed.

#[local] Hint Resolve extends_counted extends_validated : frame.

(** A reading of the memory of a device: never an exception, the snapshot
    of the instant of the call, and a world that was only observed. *)
Lemma get_gpu_memory_info_run d idx w :
  exists w',
    GPUManager.get_gpu_memory_info d idx w
    = (Ok (reading d (clock w) idx), w') /\
    extends w w' /\ (clock w' <= S (clock w))%nat /\
    (pynvml_available d = false -> w' = w).
Proof.
  unfold GPUManager.get_gpu_memory_info, reading.
  destruct (pynvml_available d) eqn:Av; cbn [negb andb].
  - unfold bind at 1. rewrite validate_gpu_index_run.
    destruct (index_in_range d idx); cbn [negb].
    + run. rewrite clock_validated.
      destruct (nvmlDeviceGetMemoryInfo d (clock w) idx) as [[[t u] f]|e];
        eexists; (split; [reflexivity|]);
        (split; [|split; [cbn [clock]; rewrite ?clock_validated; lia|discriminate]]).
      * eapply extends_trans; [apply extends_validated|].
        apply (extends_intro _ _ []); cbn [clock log EXTRA_RESERVED_MEMORY];
          rewrite ?clock_validated; auto.
      * eapply extends_trans; [apply extends_validated|].
        apply (extends_intro _ _ [(ERROR, MsgMemoryInfoFailed idx e)]);
          cbn [clock log EXTRA_RESERVED_MEMORY];
          rewrite ?clock_validated; auto.
    + run. eexists. split; [reflexivity|].
      split; [apply extends_validated|].
      split; [rewrite clock_validated; lia|discriminate].
  - run. exists w. repeat split; auto with frame.
    exists []. reflexivity.
Qed.

(** ** Computations that only observe the world *)

Section Observes.

Context {S : Type} (proj : S -> World).

Lemma observes_ret {A} (a : A) : observes proj (ret a).
Proof. intros s. apply extends_refl. Qed.

Lemma observes_bind {A B} (c : M S A) (k : A -> M S B) :
  observes proj c -> (forall a, observes proj (k a)) ->
  observes proj (bind c k).
Proof.
  intros Hc Hk s. unfold bind. specialize (Hc s).
  destruct (c s) as [[a|e] s']; cbn [snd] in *; [|exact Hc].
  eapply extends_trans; [exact Hc | apply Hk].
Qed.

Lemma observes_try_except {A} (c : M S A) (h : exn -> M S A) :
  observes proj c -> (forall e, observes proj (h e)) ->
  observes proj (try_except c h).
Proof.
  intros Hc Hh s. unfold try_except. specialize (Hc s).
  destruct (c s) as [[a|e] s']; cbn [snd] in *; [exact Hc|].
  eapply extends_trans; [exact Hc | apply Hh].
Qed.

Lemma observes_lift_result {A} (r : Result A) :
  observes proj (lift_result r).
Proof. intros s. apply extends_refl. Qed.

Lemma observes_get : observes proj get.
Proof. intros s. apply extends_refl. Qed.

Lemma observes_raise {A} e : observes proj (@raise S A e).
Proof. intros s. apply extends_refl. Qed.

End Observes.

Lemma observes_logger l m : observes (fun w => w) (logger l m).
Proof. intros w. apply extends_log_record. Qed.

Lemma observes_tick : observes (fun w => w) tick.
Proof. intros w. apply extends_tick. Qed.

Lemma observes_zoom {L A} (c : M World A) :
  observes (fun w => w) c -> observes (@snd L World) (zoom c).
Proof.
  intros Hc [l w]. unfold zoom. cbn [fst snd]. specialize (Hc w).
  destruct (c w) as [r w']. exact Hc.
Qed.

Lemma observes_update {L} (f : L -> L) : observes (@snd L World) (update f).
Proof. intros [l w]. apply extends_refl. Qed.

Lemma observes_local {L} : observes (@snd L World) local.
Proof. intros [l w]. apply extends_refl. Qed.

Lemma observes_with_local {L A} (l0 : L) (c : M (L * World) A) :
  observes (@snd L World) c -> observes (fun w => w) (with_local l0 c).
Proof.
  intros Hc w. unfold with_local. specialize (Hc (l0, w)).
  destruct (c (l0, w)) as [r [l w']]. exact Hc.
Qed.

#[local] Hint Resolve observes_ret observes_lift_result observes_get
  observes_raise observes_logger observes_tick observes_update
  observes_local : frame.

(** Splits a computation along its binds, conditionals and matches. *)
Ltac observe :=
  repeat first
    [ progress auto with frame
    | apply observes_bind; [|intros ?]
    | apply observes_try_except; [|intros ?]
    | apply observes_zoom
    | apply observes_with_local
    | match goal with
      | |- observes _ (if ?b then _ else _) => destruct b
      | |- observes _ (match ?x with _ => _ end) => destruct x
      | |- observes _ (let '(_, _) := ?x in _) => destruct x
      end ].

Lemma observes_get_gpu_count d : observes (fun w => w) (GPUManager.get_gpu_count d).
Proof. unfold GPUManager.get_gpu_count. observe. Qed.

Lemma observes_validate_gpu_index d idx :
  observes (fun w => w) (GPUManager.validate_gpu_index d idx).
Proof.
  unfold GPUManager.validate_gpu_index.
  pose proof (observes_get_gpu_count d). observe.
Qed.

Lemma observes_get_gpu_memory_info d idx :
  observes (fun w => w) (GPUManager.get_gpu_memory_info d idx).
Proof.
  unfold GPUManager.get_gpu_memory_info.
  pose proof (observes_validate_gpu_index d idx). observe.
Qed.

Lemma observes_get_gpu_name d idx :
  observes (fun w => w) (GPUManager.get_gpu_name d idx).
Proof. unfold GPUManager.get_gpu_name. observe. Qed.

Lemma observes_get_gpu_temperature d idx :
  observes (fun w => w) (GPUManager.get_gpu_temperature d idx).
Proof. unfold GPUManager.get_gpu_temperature. observe. Qed.

Lemma observes_get_gpu_utilization d idx :
  observes (fun w => w) (GPUManager.get_gpu_utilization d idx).
Proof. unfold GPUManager.get_gpu_utilization. observe. Qed.

#[local] Hint Resolve observes_get_gpu_count observes_validate_gpu_index
  observes_get_gpu_memory_info observes_get_gpu_name
  observes_get_gpu_temperature observes_get_gpu_utilization : frame.

Lemma observes_get_detailed_info d idx :
  observes (fun w => w) (GPUManager.get_detailed_info d idx).
Proof. unfold GPUManager.get_detailed_info. observe. Qed.

#[local] Hint Resolve observes_get_detailed_info : frame.

Lemma observes_show_gpu_info d idx :
  observes (fun w => w) (ReservedMemorySetter._show_gpu_info d idx).
Proof. unfold ReservedMemorySetter._show_gpu_info. observe. Qed.

Lemma observes_clear_gpu_memory d idx :
  observes (fun w => w) (clear_gpu_memory d idx).
Proof. unfold clear_gpu_memory, clear_body. observe. Qed.

Lemma observes_empty_cache_each d devices :
  observes (fun w => w) (empty_cache_each d devices).
Proof. induction devices as [|i rest IH]; cbn [empty_cache_each]; observe. Qed.

#[local] Hint Resolve observes_show_gpu_info observes_clear_gpu_memory
  observes_empty_cache_each : frame.

Lemma observes_clear_all_caches d :
  observes (fun w => w) (clear_all_caches d).
Proof. unfold clear_all_caches. observe. Qed.

#[local] Hint Resolve observes_clear_all_caches : frame.

Lemma observes_clean_each d devices :
  observes (@snd (list ReportLine * float) World)
    (BatchMemoryCleaner.clean_each d devices).
Proof.
  induction devices as [|i rest IH]; cbn [BatchMemoryCleaner.clean_each];
    unfold BatchMemoryCleaner.append; observe.
Qed.

#[local] Hint Resolve observes_clean_each : frame.

Lemma observes_clean {A} d (anything : A) clear_all_gpus aggressive :
  observes (fun w => w)
    (BatchMemoryCleaner.clean d anything clear_all_gpus aggressive).
Proof.
  unfold BatchMemoryCleaner.clean, BatchMemoryCleaner.append. observe.
Qed.

Lemma observes_monitor d idx refresh :
  observes (@snd GPUMemoryMonitor.Journal World)
    (GPUMemoryMonitor.monitor d idx refresh).
Proof. unfold GPUMemoryMonitor.monitor. observe. Qed.

(** ** Computations that never raise *)

Section Returns.

Context {S : Type}.

Lemma returns_ret {A} (a : A) : returns (@ret S A a).
Proof. intros s. exists a. reflexivity. Qed.

Lemma returns_bind {A B} (c : M S A) (k : A -> M S B) :
  returns c -> (forall a, returns (k a)) -> returns (bind c k).
Proof.
  intros Hc Hk s. unfold bind. destruct (Hc s) as [a Ha].
  destruct (c s) as [[a'|e] s']; cbn [fst] in Ha; [|discriminate].
  apply Hk.
Qed.

(** A [try] whose handler never raises never raises. *)
Lemma returns_try_except {A} (c : M S A) (h : exn -> M S A) :
  (forall e, returns (h e)) -> returns (try_except c h).
Proof.
  intros Hh s. unfold try_except.
  destruct (c s) as [[a|e] s']; [exists a; reflexivity | apply Hh].
Qed.

Lemma returns_get : returns (@get S).
Proof. intros s. exists s. reflexivity. Qed.

Lemma returns_modify (f : S -> S) : returns (modify f).
Proof. intros s. exists tt. reflexivity. Qed.

End Returns.

Lemma returns_logger l m : returns (logger l m).
Proof. apply returns_modify. Qed.

Lemma returns_tick : returns tick.
Proof. intros w. eexists. reflexivity. Qed.

Lemma returns_zoom {L A} (c : M World A) :
  returns c -> returns (@zoom L World A c).
Proof.
  intros Hc [l w]. unfold zoom. cbn [fst snd]. destruct (Hc w) as [a Ha].
  destruct (c w) as [r w']. cbn [fst] in *. subst r. exists a. reflexivity.
Qed.

Lemma returns_update {L} (f : L -> L) : returns (@update L World f).
Proof. intros s. exists tt. reflexivity. Qed.

Lemma returns_local {L} : returns (@local L World).
Proof. intros s. eexists. reflexivity. Qed.

Lemma returns_with_local {L A} (l0 : L) (c : M (L * World) A) :
  returns c -> returns (with_local l0 c).
Proof.
  intros Hc w. unfold with_local. destruct (Hc (l0, w)) as [a Ha].
  destruct (c (l0, w)) as [r lw]. cbn [fst] in *. subst r.
  exists a. reflexivity.
Qed.

Create HintDb returning.

#[local] Hint Resolve returns_ret returns_get returns_modify returns_logger
  returns_tick returns_update returns_local : returning.

Ltac returning :=
  repeat first
    [ progress auto with returning
    | apply returns_try_except; intros ?
    | apply returns_bind; [|intros ?]
    | apply returns_zoom
    | apply returns_with_local
    | match goal with
      | |- returns (if ?b then _ else _) => destruct b
      | |- returns (match ?x with _ => _ end) => destruct x
      end ].

Lemma returns_get_gpu_count d : returns (GPUManager.get_gpu_count d).
Proof. unfold GPUManager.get_gpu_count. returning. Qed.

#[local] Hint Resolve returns_get_gpu_count : returning.

Lemma returns_validate_gpu_index d idx :
  returns (GPUManager.validate_gpu_index d idx).
Proof. unfold GPUManager.validate_gpu_index. returning. Qed.

#[local] Hint Resolve returns_validate_gpu_index : returning.

Lemma returns_get_gpu_memory_info d idx :
  returns (GPUManager.get_gpu_memory_info d idx).
Proof. unfold GPUManager.get_gpu_memory_info. returning. Qed.

Lemma returns_get_gpu_name d idx : returns (GPUManager.get_gpu_name d idx).
Proof. unfold GPUManager.get_gpu_name. returning. Qed.

Lemma returns_get_gpu_temperature d idx :
  returns (GPUManager.get_gpu_temperature d idx).
Proof. unfold GPUManager.get_gpu_temperature. returning. Qed.

Lemma returns_get_gpu_utilization d idx :
  returns (GPUManager.get_gpu_utilization d idx).
Proof. unfold GPUManager.get_gpu_utilization. returning. Qed.

#[local] Hint Resolve returns_get_gpu_memory_info returns_get_gpu_name
  returns_get_gpu_temperature returns_get_gpu_utilization : returning.

Lemma returns_get_detailed_info d idx :
  returns (GPUManager.get_detailed_info d idx).
Proof. unfold GPUManager.get_detailed_info. returning. Qed.

Lemma returns_clear_gpu_memory d idx : returns (clear_gpu_memory d idx).
Proof. unfold clear_gpu_memory. returning. Qed.

Lemma returns_clear_all_caches d : returns (clear_all_caches d).
Proof. unfold clear_all_caches. returning. Qed.

#[local] Hint Resolve returns_get_detailed_info returns_clear_gpu_memory
  returns_clear_all_caches : returning.

(** A computation that returns, with the world it returns in. *)
Lemma returns_run {S A} (c : M S A) s :
  returns c -> exists a s', c s = (Ok a, s').
Proof.
  intros H. destruct (H s) as [a Ha]. destruct (c s) as [r s'].
  cbn [fst] in Ha. subst r. eauto.
Qed.

Lemma observes_run {A} (c : M World A) w :
  observes (fun w => w) c -> extends w (snd (c w)).
Proof. intros H. apply H. Qed.

(** ** The steps of [set_memory] *)

Lemma observes_calculate r mode idx m d :
  observes (fun w => w)
    (calculate_reserved_memory r mode idx m (manager_of d)).
Proof.
  unfold calculate_reserved_memory, _manual_mode, _auto_mode, _smart_mode.
  cbn [obj_get_gpu_memory_info manager_of].
  apply observes_bind; [apply observes_get_gpu_memory_info|].
  intros snap.
  repeat first
    [ progress auto with frame
    | apply observes_bind; [|intros ?]
    | match goal with
      | |- observes _ (if ?b then _ else _) => destruct b
      | |- observes _ (match ?x with _ => _ end) => destruct x
      end ].
Qed.

(** [set_memory] once the index is settled. *)
Lemma set_memory_indexed {A : Type} d (anything : A) r mode idx m
    clear_memory show_gpu_info w :
  ReservedMemorySetter.set_memory d anything r mode idx m
    clear_memory show_gpu_info w
  = (try_except
       (ReservedMemorySetter.set_memory_body d r mode (effective_index d idx)
          m clear_memory show_gpu_info)
       (ReservedMemorySetter.set_memory_except m) ;; ret anything)
      (indexed d idx w).
Proof.
  unfold ReservedMemorySetter.set_memory, bind at 1, try_except, bind at 1.
  rewrite validate_gpu_index_run. unfold effective_index, indexed.
  destruct (index_in_range d idx); reflexivity.
Qed.

Lemma extends_indexed d idx w : extends w (indexed d idx w).
Proof.
  unfold indexed. destruct (index_in_range d idx).
  - apply extends_validated.
  - eapply extends_trans; [apply extends_validated|apply extends_log_record].
Qed.

(** The body of the [try] block either applies a byte count of the
    calculator, or raises before it has written anything. *)
Lemma set_memory_body_outcome d r mode idx m clear_memory show_gpu_info w :
  exists res w',
    ReservedMemorySetter.set_memory_body d r mode idx m
      clear_memory show_gpu_info w = (res, w') /\
    match res with
    | Ok _ =>
        exists b detail w1 w2,
          w' = applied b detail w2 /\
          extends w w1 /\
          calculate_reserved_memory r mode idx m (manager_of d) w1
          = (Ok (b, detail), w2) /\
          extends w w2
    | Raise _ => extends w w'
    end.
Proof.
  unfold ReservedMemorySetter.set_memory_body, bind at 1.
  match goal with
  | |- context [(if show_gpu_info then ?c else ?c') w] =>
      assert (H1 : observes (fun w => w) (if show_gpu_info then c else c'))
        by observe;
      specialize (H1 w); cbv beta in H1;
      destruct ((if show_gpu_info then c else c') w) as [[[]|e] wa]
  end; cbn [snd] in H1; [|do 2 eexists; split; [reflexivity|exact H1]].
  unfold bind at 1.
  match goal with
  | |- context [(if clear_memory then ?c else ?c') wa] =>
      assert (H2 : observes (fun w => w) (if clear_memory then c else c'))
        by observe;
      specialize (H2 wa); cbv beta in H2;
      destruct ((if clear_memory then c else c') wa) as [[[]|e] wb]
  end; cbn [snd] in H2;
    [|do 2 eexists; split; [reflexivity|];
      eapply extends_trans; eassumption].
  assert (Xb : extends w wb) by (eapply extends_trans; eassumption).
  unfold bind at 1.
  pose proof (observes_calculate r mode idx m d wb) as H3. cbv beta in H3.
  destruct (calculate_reserved_memory r mode idx m (manager_of d) wb)
    as [[[b detail]|e] wc] eqn:Ec; cbn [snd] in H3.
  - do 2 eexists. split; [reflexivity|].
    exists b, detail, wb, wc. split; [reflexivity|].
    split; [exact Xb|]. split; [exact Ec|].
    eapply extends_trans; eassumption.
  - do 2 eexists. split; [reflexivity|].
    eapply extends_trans; eassumption.
Qed.

Lemma log_applied b detail w :
  log (applied b detail w)
  = (INFO, MsgReservedSet (truediv_GB b) (truediv_MB b))
      :: (INFO, MsgApplied detail) :: log w.
Proof. reflexivity. Qed.

Lemma slot_applied b detail w : EXTRA_RESERVED_MEMORY (applied b detail w) = b.
Proof. reflexivity. Qed.

(** ** Reading the memory of a device *)

Ltac read_memory :=
  match goal with
  | |- context [GPUManager.get_gpu_memory_info ?d ?i ?w] =>
      let w' := fresh "w" in
      let X := fresh "X" in
      let C := fresh "C" in
      destruct (get_gpu_memory_info_run d i w) as (w' & -> & X & C & _)
  end.

Lemma extends_clock w w' : extends w w' -> (clock w <= clock w')%nat.
Proof. now intros (_ & C & _). Qed.


(* ====================================================================== *)
(** * The claims of the specification *)
(* ====================================================================== *)

(** ** C1: the floor invariant *)

(** C1, as amended.  For every mode string, recognised or not, every
    non-negative target and floor and every snapshot with non-negative
    fields (or none): whenever the floor lies under the ceiling of the mode
    (90% of the total for manual and smart, 85% for auto; no condition
    without a snapshot or for an unrecognised mode), a call of the
    calculator ends in one of three ways.  It returns a byte count that is
    at least [int(min_safe_reserve * 2^30)]; or it raises
    [ZeroDivisionError], and then the mode is smart and the total of the
    snapshot is zero; or it raises [OverflowError], and then the value that
    the mode settles on is too large to be converted.  It raises nothing
    else, and on any other input it returns. *)
Theorem floor_invariant_amended r mode m snap gm idx w w1 :
  wf r = true -> wf m = true -> wf_snapshot snap = true ->
  floor_applies mode m snap = true ->
  obj_get_gpu_memory_info gm idx w = (Ok snap, w1) ->
  ends_as_claimed
    (fun b => exists fl, to_bytes m = Ok fl /\ fl <= b)
    mode snap (settled_value r mode m snap)
    (fst (calculate_reserved_memory r mode idx m gm w)).
Proof.
  intros Wr Wm Ws Hfloor Hget.
  apply (calculate_ends _ r mode m snap gm idx w w1 Wr Wm Ws Hget).
  intros v b Wv Hl E.
  exact (to_bytes_mono m v b Wm Wv (Hl Hfloor) E).
Qed.

(** Smart mode on a 24 GB device with 20 GB in use: 21 GB are reserved,
    above the floor of 2 GB. *)
Lemma floor_invariant_amended_witness :
  ends_as_claimed
    (fun b => exists fl, to_bytes (of_Z 2) = Ok fl /\ fl <= b)
    "smart" (Some (of_Z 24, of_Z 20, of_Z 4))
    (settled_value (of_Z 1) "smart" (of_Z 2)
       (Some (of_Z 24, of_Z 20, of_Z 4)))
    (fst (calculate_reserved_memory (of_Z 1) "smart" 0 (of_Z 2)
            (constant_manager (Some (of_Z 24, of_Z 20, of_Z 4))) w0)).
Proof.
  apply (floor_invariant_amended (of_Z 1) "smart" (of_Z 2)
           (Some (of_Z 24, of_Z 20, of_Z 4))
           (constant_manager (Some (of_Z 24, of_Z 20, of_Z 4))) 0 w0 w0);
    reflexivity.
Defined.

(** C1 as stated fails: manual mode on a 1 GB device with a target of 1 GB
    and a floor of 2 GB returns 90% of 1 GB, 966367641 bytes, under the
    floor of 2147483648 bytes. *)
Lemma floor_invariant_counterexample :
  wf (of_Z 1) = true /\ wf (of_Z 2) = true /\
  wf_snapshot (Some (of_Z 1, of_Z 0, of_Z 1)) = true /\
  ~ floor_holds (of_Z 2)
      (fst (calculate_reserved_memory (of_Z 1) "manual" 0 (of_Z 2)
              (constant_manager (Some (of_Z 1, of_Z 0, of_Z 1))) w0)).
Proof.
  repeat split; try reflexivity.
  assert (E : fst (calculate_reserved_memory (of_Z 1) "manual" 0 (of_Z 2)
                     (constant_manager (Some (of_Z 1, of_Z 0, of_Z 1))) w0)
              = Ok (966367641,
                    ManualLimited (of_Z 1) (mul (of_Z 1) MAX_RESERVED_RATIO)
                      (mul_int MAX_RESERVED_RATIO 100)))
    by (vm_compute; reflexivity).
  rewrite E. intros (fl & Hfl & Hle).
  assert (F : to_bytes (of_Z 2) = Ok 2147483648) by (vm_compute; reflexivity).
  rewrite F in Hfl. injection Hfl as <-. lia.
Qed.

(** ** C2: an unrecognised mode *)

(** C2, as amended.  For every mode string other than "manual", "auto" and
    "smart", every target, floor and snapshot: the call returns
    [int(max(target, min_safe) * 2^30)] with the constant explanation
    "default mode"; the warning goes to the log, not into the explanation.
    The byte count is the one of manual mode on the same inputs whenever
    manual mode does not clamp, that is without a snapshot or when
    [max(target, min_safe)] does not exceed 90% of the total. *)
Theorem unknown_mode_default r mode m snap gm idx w w1 :
  known_mode mode = false ->
  obj_get_gpu_memory_info gm idx w = (Ok snap, w1) ->
  fst (calculate_reserved_memory r mode idx m gm w)
  = convert (py_max r m) DefaultMode /\
  log (snd (calculate_reserved_memory r mode idx m gm w))
  = (WARNING, MsgUnknownMode mode) :: log w1 /\
  (manual_unclamped r m snap = true ->
   result_bytes (fst (calculate_reserved_memory r mode idx m gm w))
   = result_bytes (fst (calculate_reserved_memory r "manual" idx m gm w))).
Proof.
  intros Hk Hget. rewrite (calculate_unknown r mode m snap gm idx w w1 Hk Hget).
  cbn [fst snd log]. repeat split.
  intros Hu. rewrite (calculate_manual r m snap gm idx w w1 Hget), manual_outcome.
  destruct snap as [[[t u] f]|]; cbn in Hu.
  - apply negb_true_iff in Hu. rewrite Hu. now rewrite !result_bytes_convert.
  - now rewrite !result_bytes_convert.
Qed.

Lemma unknown_mode_default_witness :
  fst (calculate_reserved_memory (of_Z 1) "turbo" 0 (of_Z 2)
         (constant_manager None) w0)
  = convert (py_max (of_Z 1) (of_Z 2)) DefaultMode /\
  log (snd (calculate_reserved_memory (of_Z 1) "turbo" 0 (of_Z 2)
              (constant_manager None) w0))
  = (WARNING, MsgUnknownMode "turbo") :: log w0 /\
  (manual_unclamped (of_Z 1) (of_Z 2) None = true ->
   result_bytes (fst (calculate_reserved_memory (of_Z 1) "turbo" 0 (of_Z 2)
                        (constant_manager None) w0))
   = result_bytes (fst (calculate_reserved_memory (of_Z 1) "manual" 0 (of_Z 2)
                          (constant_manager None) w0))).
Proof.
  apply (unknown_mode_default (of_Z 1) "turbo" (of_Z 2) None
           (constant_manager None) 0 w0 w0); reflexivity.
Defined.

(** C2 as stated fails: on a 1 GB device with a target of 1 GB and a floor
    of 2 GB, "turbo" returns 2 GB where "manual" returns 90% of 1 GB, and
    the explanation of "turbo" is the bare "default mode". *)
Lemma unknown_mode_counterexample :
  result_bytes
    (fst (calculate_reserved_memory (of_Z 1) "turbo" 0 (of_Z 2)
            (constant_manager (Some (of_Z 1, of_Z 0, of_Z 1))) w0))
  = Ok 2147483648 /\
  result_bytes
    (fst (calculate_reserved_memory (of_Z 1) "manual" 0 (of_Z 2)
            (constant_manager (Some (of_Z 1, of_Z 0, of_Z 1))) w0))
  = Ok 966367641 /\
  result_detail
    (fst (calculate_reserved_memory (of_Z 1) "turbo" 0 (of_Z 2)
            (constant_manager (Some (of_Z 1, of_Z 0, of_Z 1))) w0))
  = Some DefaultMode.
Proof. vm_compute. repeat split. Qed.

(** ** C3: the bands of smart mode *)

(** C3.  For every snapshot with a positive total (and a free amount that
    is a number, free and total not both infinite), smart mode returns the
    bytes of the value that the specification describes: the band of
    [free / total] (below 0.20, from 0.20 below 0.40, from 0.40) selects
    [max(used + target, total * 0.80)], [used + target] or
    [max(used + target, min_safe)], which is raised to [min_safe] and capped
    at [total * 0.9].  With 24 GB of which 20 GB are used and a target of
    1 GB, the result is [int(21.0 * 2^30)]. *)
Theorem smart_mode_bands r m t u f gm idx w w1 :
  gtb t zero = true -> is_nan f = false ->
  is_finite f || is_finite t = true ->
  obj_get_gpu_memory_info gm idx w = (Ok (Some (t, u, f)), w1) ->
  (exists v,
     smart_value_spec r m (t, u, f) = Some v /\
     result_bytes (fst (calculate_reserved_memory r "smart" idx m gm w))
     = to_bytes v) /\
  result_bytes
    (fst (calculate_reserved_memory (of_Z 1) "smart" 0 MIN_SAFE_RESERVE_GB
            (constant_manager (Some (of_Z 24, of_Z 20, of_Z 4))) w0))
  = to_bytes (of_Z 21) /\
  to_bytes (of_Z 21) = Ok (21 * 2 ^ 30).
Proof.
  intros Pt Nf Fin Hget.
  split; [|split; vm_compute; reflexivity].
  rewrite (calculate_smart r m _ gm idx w w1 Hget), smart_outcome.
  destruct (gtb_zero_not_zero t Pt) as [Zt Nt].
  unfold py_div. rewrite Zt.
  pose proof (div_not_nan f t Nf Nt Zt Fin) as N.
  unfold smart_value_spec. cbn [total_gb used_gb free_gb fst snd].
  rewrite (band_of_code _ N), strategy_tight, max_ratio_decimal.
  set (ratio := SFdiv prec emax f t).
  destruct (ltb ratio (decimal 2 10)); [|destruct (ltb ratio (decimal 4 10))];
    cbv zeta; eexists; (split; [reflexivity|]); now rewrite result_bytes_convert.
Qed.

Lemma smart_mode_bands_witness :
  (exists v,
     smart_value_spec (of_Z 1) (of_Z 2) (of_Z 24, of_Z 10, of_Z 14) = Some v /\
     result_bytes
       (fst (calculate_reserved_memory (of_Z 1) "smart" 0 (of_Z 2)
               (constant_manager (Some (of_Z 24, of_Z 10, of_Z 14))) w0))
     = to_bytes v) /\
  result_bytes
    (fst (calculate_reserved_memory (of_Z 1) "smart" 0 MIN_SAFE_RESERVE_GB
            (constant_manager (Some (of_Z 24, of_Z 20, of_Z 4))) w0))
  = to_bytes (of_Z 21) /\
  to_bytes (of_Z 21) = Ok (21 * 2 ^ 30).
Proof.
  apply (smart_mode_bands (of_Z 1) (of_Z 2) (of_Z 24) (of_Z 10) (of_Z 14)
           (constant_manager (Some (of_Z 24, of_Z 10, of_Z 14))) 0 w0 w0);
    reflexivity.
Defined.

(** ** C4: auto mode *)

(** C4.  With a snapshot, auto mode returns the bytes of
    [min(max(used + target, min_safe), total * 0.85)]; without one it
    returns what manual mode returns on the same target and floor.  With
    24 GB of which 10 GB are used, a target of 1 GB and a floor of 2 GB the
    result is [int(11.0 * 2^30)]. *)
Theorem auto_mode_value r m snap gm idx w w1 :
  obj_get_gpu_memory_info gm idx w = (Ok snap, w1) ->
  match snap with
  | Some i =>
      result_bytes (fst (calculate_reserved_memory r "auto" idx m gm w))
      = to_bytes (auto_value_spec r m i)
  | None =>
      fst (calculate_reserved_memory r "auto" idx m gm w)
      = fst (calculate_reserved_memory r "manual" idx m gm w)
  end /\
  result_bytes
    (fst (calculate_reserved_memory (of_Z 1) "auto" 0 (of_Z 2)
            (constant_manager (Some (of_Z 24, of_Z 10, of_Z 14))) w0))
  = to_bytes (of_Z 11) /\
  to_bytes (of_Z 11) = Ok (11 * 2 ^ 30).
Proof.
  intros Hget. split; [|split; vm_compute; reflexivity].
  rewrite (calculate_auto r m snap gm idx w w1 Hget), auto_outcome.
  destruct snap as [[[t u] f]|].
  - cbv zeta. now rewrite result_bytes_convert.
  - now rewrite (calculate_manual r m None gm idx w w1 Hget), manual_outcome.
Qed.

Lemma auto_mode_value_witness :
  fst (calculate_reserved_memory (of_Z 1) "auto" 0 (of_Z 2)
         (constant_manager None) w0)
  = fst (calculate_reserved_memory (of_Z 1) "manual" 0 (of_Z 2)
           (constant_manager None) w0) /\
  result_bytes
    (fst (calculate_reserved_memory (of_Z 1) "auto" 0 (of_Z 2)
            (constant_manager (Some (of_Z 24, of_Z 10, of_Z 14))) w0))
  = to_bytes (of_Z 11) /\
  to_bytes (of_Z 11) = Ok (11 * 2 ^ 30).
Proof.
  apply (auto_mode_value (of_Z 1) (of_Z 2) None (constant_manager None)
           0 w0 w0).
  reflexivity.
Defined.

(** ** C5: snapshots with a negative or non-finite field *)

(** C5, as amended.  The calculator does not validate a snapshot: one that
    is present is used as it is, whatever its fields.  For every mode
    string and every snapshot, negative, infinite and NaN fields included,
    the outcome is the conversion [int(value * 2^30)] of the value that the
    formulas of the mode give on the three fields as they are (and the
    [ZeroDivisionError] of smart mode when the total is zero), and the
    explanation never reports missing device information.  When the
    target, the floor and the fields of the snapshot (if any) are
    non-negative, a call ends in one of three ways: it returns a byte count
    that is not negative; or it raises [ZeroDivisionError], and then the
    mode is smart and the total of the snapshot is zero; or it raises
    [OverflowError], and then the value that the mode settles on is too
    large to be converted. *)
Theorem snapshot_used_as_given r mode m snap gm idx w w1 :
  obj_get_gpu_memory_info gm idx w = (Ok snap, w1) ->
  (forall i,
     snap = Some i ->
     result_bytes (fst (calculate_reserved_memory r mode idx m gm w))
     = settled_bytes (value_with_snapshot r mode m i) /\
     never_fallback (fst (calculate_reserved_memory r mode idx m gm w))) /\
  (wf r = true -> wf m = true -> wf_snapshot snap = true ->
   ends_as_claimed (fun b => 0 <= b) mode snap (settled_value r mode m snap)
     (fst (calculate_reserved_memory r mode idx m gm w))).
Proof.
  intros Hget. split.
  - intros i ->.
    pose proof (calculate_settled r mode m (Some i) gm idx w w1 Hget) as Hc.
    cbn [settled_value] in Hc.
    destruct (value_with_snapshot r mode m i) as [v|e].
    + destruct Hc as (d & -> & Hd). split.
      * apply result_bytes_convert.
      * apply never_fallback_convert. apply Hd. discriminate.
    + rewrite Hc. split; [reflexivity|exact I].
  - intros Wr Wm Ws.
    apply (calculate_ends _ r mode m snap gm idx w w1 Wr Wm Ws Hget).
    intros v b Wv _ E. exact (to_bytes_nonneg v b Wv E).
Qed.

Lemma snapshot_used_as_given_witness :
  (forall i,
     Some (of_Z 24, of_Z 10, of_Z 14) = Some i ->
     result_bytes
       (fst (calculate_reserved_memory (of_Z 1) "auto" 0 (of_Z 2)
               (constant_manager (Some (of_Z 24, of_Z 10, of_Z 14))) w0))
     = settled_bytes (value_with_snapshot (of_Z 1) "auto" (of_Z 2) i) /\
     never_fallback
       (fst (calculate_reserved_memory (of_Z 1) "auto" 0 (of_Z 2)
               (constant_manager (Some (of_Z 24, of_Z 10, of_Z 14))) w0))) /\
  (wf (of_Z 1) = true -> wf (of_Z 2) = true ->
   wf_snapshot (Some (of_Z 24, of_Z 10, of_Z 14)) = true ->
   ends_as_claimed (fun b => 0 <= b) "auto"
     (Some (of_Z 24, of_Z 10, of_Z 14))
     (settled_value (of_Z 1) "auto" (of_Z 2)
        (Some (of_Z 24, of_Z 10, of_Z 14)))
     (fst (calculate_reserved_memory (of_Z 1) "auto" 0 (of_Z 2)
             (constant_manager (Some (of_Z 24, of_Z 10, of_Z 14))) w0))).
Proof.
  apply (snapshot_used_as_given (of_Z 1) "auto" (of_Z 2)
           (Some (of_Z 24, of_Z 10, of_Z 14))
           (constant_manager (Some (of_Z 24, of_Z 10, of_Z 14))) 0 w0 w0).
  reflexivity.
Defined.

(** C5 as stated fails.  In auto mode with a target of 5 GB and a floor of
    2 GB, a snapshot whose used amount is -1 GB yields 4 GB, not the 5 GB of
    the no-snapshot fallback; a snapshot whose total is -24 GB yields a
    negative byte count; a snapshot whose used amount is NaN makes the call
    raise [ValueError]. *)
Lemma snapshot_validation_counterexample :
  nonneg (of_Z (-1)) = false /\
  result_bytes
    (fst (calculate_reserved_memory (of_Z 5) "auto" 0 (of_Z 2)
            (constant_manager (Some (of_Z 24, of_Z (-1), of_Z 25))) w0))
  = Ok (4 * 2 ^ 30) /\
  result_bytes
    (fst (calculate_reserved_memory (of_Z 5) "auto" 0 (of_Z 2)
            (constant_manager None) w0))
  = Ok (5 * 2 ^ 30) /\
  result_bytes
    (fst (calculate_reserved_memory (of_Z 1) "auto" 0 (of_Z 2)
            (constant_manager (Some (of_Z (-24), of_Z 1, of_Z 4))) w0))
  = Ok (-21904333209) /\
  result_bytes
    (fst (calculate_reserved_memory (of_Z 1) "auto" 0 (of_Z 2)
            (constant_manager (Some (of_Z 24, S754_nan, of_Z 4))) w0))
  = Raise ValueError.
Proof. vm_compute. repeat split. Qed.

(** ** C6: the ceiling *)

(** C6, as amended.  For the three recognised modes, every non-negative
    target and floor and every snapshot with non-negative fields, the byte
    count returned is at most [int(total * 0.9 * 2^30)], and in auto mode
    at most [int(total * 0.85 * 2^30)].  An unrecognised mode applies no
    ceiling. *)
Theorem ceiling_amended r mode m t u f gm idx w w1 :
  known_mode mode = true ->
  wf r = true -> wf m = true -> wf_snapshot (Some (t, u, f)) = true ->
  obj_get_gpu_memory_info gm idx w = (Ok (Some (t, u, f)), w1) ->
  ceiling_holds (mul t MAX_RESERVED_RATIO)
    (fst (calculate_reserved_memory r mode idx m gm w)) /\
  ceiling_holds (mul t (ceiling_ratio mode))
    (fst (calculate_reserved_memory r mode idx m gm w)).
Proof.
  intros Hk Wr Wm Ws Hget.
  apply wf_snapshot_some in Ws. destruct Ws as (Wt & Wu & Wf).
  pose proof (wf_add u r Wu Wr) as Wa.
  assert (Own : ceiling_holds (mul t (ceiling_ratio mode))
                  (fst (calculate_reserved_memory r mode idx m gm w))).
  2:{ split; [|exact Own]. revert Own. unfold ceiling_ratio.
      destruct (String.eqb mode "auto"); [|auto].
      apply ceiling_weaken.
      - apply (wf_mul_ratio t "auto" Wt).
      - apply (wf_mul_ratio t "manual" Wt).
      - now apply auto_ceiling_below. }
  apply (modes_dispatch r mode idx m gm w _ w1 Hget).
  - intros ->. rewrite manual_outcome.
    pose proof (wf_mul_ratio t "manual" Wt) as Wc. cbn in Wc |- *.
    destruct (gtb (py_max r m) (mul t MAX_RESERVED_RATIO)) eqn:G.
    + apply ceiling_convert; auto. apply leb_refl. now apply wf_not_nan.
    + apply ceiling_convert; auto using wf_py_max.
      apply ltb_false_leb; auto using wf_not_nan, wf_py_max.
  - intros ->. rewrite auto_outcome. cbv zeta.
    pose proof (wf_mul_ratio t "auto" Wt) as Wc. cbn in Wc |- *.
    apply ceiling_convert; auto using wf_py_max, wf_py_min.
    apply py_min_le_r; auto using wf_not_nan, wf_py_max.
  - intros ->. rewrite smart_outcome.
    destruct (py_div f t) as [ratio|e] eqn:D;
      [|right; exact (py_div_raise f t e D)].
    cbv zeta.
    pose proof (smart_value_wf r m t u ratio Wr Wm Wt Wu) as Wv.
    destruct (if ltb ratio (decimal 2 10) then _ else _) as [v status].
    pose proof (wf_mul_ratio t "smart" Wt) as Wc. cbn in Wc |- *.
    apply ceiling_convert; auto using wf_py_max, wf_py_min.
    apply py_min_le_r; auto using wf_not_nan, wf_py_max.
  - intros E. congruence.
Qed.

Lemma ceiling_amended_witness :
  ceiling_holds (mul (of_Z 24) MAX_RESERVED_RATIO)
    (fst (calculate_reserved_memory (of_Z 1) "auto" 0 (of_Z 2)
            (constant_manager (Some (of_Z 24, of_Z 23, of_Z 1))) w0)) /\
  ceiling_holds (mul (of_Z 24) (ceiling_ratio "auto"))
    (fst (calculate_reserved_memory (of_Z 1) "auto" 0 (of_Z 2)
            (constant_manager (Some (of_Z 24, of_Z 23, of_Z 1))) w0)).
Proof.
  apply (ceiling_amended (of_Z 1) "auto" (of_Z 2) (of_Z 24) (of_Z 23) (of_Z 1)
           (constant_manager (Some (of_Z 24, of_Z 23, of_Z 1))) 0 w0 w0);
    reflexivity.
Defined.

(** C6 as stated fails for a mode string that is not recognised: on a 1 GB
    device with a target of 1 GB and a floor of 2 GB, "turbo" returns
    2147483648 bytes, above the 966367641 bytes of 90% of the total. *)
Lemma ceiling_counterexample :
  wf (of_Z 1) = true /\ wf (of_Z 2) = true /\
  wf_snapshot (Some (of_Z 1, of_Z 0, of_Z 1)) = true /\
  ~ ceiling_holds (mul (of_Z 1) (ceiling_ratio "turbo"))
      (fst (calculate_reserved_memory (of_Z 1) "turbo" 0 (of_Z 2)
              (constant_manager (Some (of_Z 1, of_Z 0, of_Z 1))) w0)).
Proof.
  repeat split; try reflexivity.
  assert (E : fst (calculate_reserved_memory (of_Z 1) "turbo" 0 (of_Z 2)
                     (constant_manager (Some (of_Z 1, of_Z 0, of_Z 1))) w0)
              = Ok (2147483648, DefaultMode)) by (vm_compute; reflexivity).
  rewrite E. intros H.
  assert (F : to_bytes (mul (of_Z 1) (ceiling_ratio "turbo")) = Ok 966367641)
    by (vm_compute; reflexivity).
  specialize (H 966367641 F). lia.
Qed.

(** ** C7: smart mode without a snapshot *)

(** C7.  Without a snapshot smart mode returns the bytes of
    [max(target + 1.0, min_safe)] and its explanation reports the missing
    device information, where manual mode returns the bytes of
    [max(target, min_safe)]: for a target of 3 GB and a floor of 2 GB, 4 GB
    against 3 GB. *)
Theorem smart_without_snapshot r m gm idx w w1 :
  obj_get_gpu_memory_info gm idx w = (Ok None, w1) ->
  let default_value := py_max (add r (decimal 1 1)) m in
  fst (calculate_reserved_memory r "smart" idx m gm w)
  = convert default_value (SmartNoGPUInfo default_value) /\
  flags_no_gpu_info (SmartNoGPUInfo default_value) = true /\
  fst (calculate_reserved_memory r "manual" idx m gm w)
  = convert (py_max r m) (ManualNoGPUInfo (py_max r m)) /\
  result_bytes
    (fst (calculate_reserved_memory (of_Z 3) "smart" 0 (of_Z 2)
            (constant_manager None) w0)) = Ok (4 * 2 ^ 30) /\
  result_bytes
    (fst (calculate_reserved_memory (of_Z 3) "manual" 0 (of_Z 2)
            (constant_manager None) w0)) = Ok (3 * 2 ^ 30).
Proof.
  intros Hget dv. split; [|split; [reflexivity|split]].
  - now rewrite (calculate_smart r m None gm idx w w1 Hget), smart_outcome.
  - now rewrite (calculate_manual r m None gm idx w w1 Hget), manual_outcome.
  - vm_compute. split; reflexivity.
Qed.

Lemma smart_without_snapshot_witness :
  fst (calculate_reserved_memory (of_Z 1) "smart" 0 (of_Z 2)
         (constant_manager None) w0)
  = convert (py_max (add (of_Z 1) (decimal 1 1)) (of_Z 2))
      (SmartNoGPUInfo (py_max (add (of_Z 1) (decimal 1 1)) (of_Z 2))).
Proof.
  apply (smart_without_snapshot (of_Z 1) (of_Z 2) (constant_manager None)
           0 w0 w0).
  reflexivity.
Defined.

(** ** C8: the report of a reclaim *)

Import MemoryCleaner.

(** Runs the monadic plumbing of a reclaim, leaving the telemetry reads
    folded. *)
Ltac run_reclaim :=
  cbv beta iota zeta delta
    [clear_gpu_memory clear_body with_local try_except bind zoom update
     local ret get tick logger modify lift_result fst snd
     before_memory after_memory success freed_memory_gb freed_memory_mb
     torch_cuda gc_collected set_success set_torch_cuda set_gc_collected set_before_memory
     set_after_memory set_freed initial].

(** C8, as amended.  A reclaim always returns its report, and the report
    holds the snapshot that telemetry answers at the start of the call.
    When the report holds both snapshots, [freed_memory_gb] is
    [used_before - used_after] as computed, of either sign, and the reclaim
    is marked successful.  When one of the snapshots is missing,
    [freed_memory_gb] is 0.0.  In every case the reclaim is marked
    successful exactly when the release of the allocator cache did not
    raise; the after-snapshot is then the snapshot of the device at the
    instant that follows the release, and a release that raises leaves the
    report without an after-snapshot. *)
Theorem reclaim_report d idx w :
  exists r w',
    clear_gpu_memory d idx w = (Ok r, w') /\
    before_memory r = telemetry d idx w /\
    (forall b a,
       before_memory r = Some b -> after_memory r = Some a ->
       freed_memory_gb r = sub (used_gb b) (used_gb a) /\ success r = true) /\
    (before_memory r = None \/ after_memory r = None ->
     freed_memory_gb r = zero) /\
    let released := clock (snd (GPUManager.get_gpu_memory_info d idx w)) in
    success r = release_ok d released /\
    after_memory r
    = if release_ok d released
      then reading d
             (released + if cuda_is_available d then 1 else 0)%nat idx
      else None.
Proof.
  unfold telemetry, release_ok. run_reclaim. read_memory. run_reclaim.
  destruct (cuda_is_available d); run_reclaim;
    [match goal with
     | |- context [cuda_empty_cache d ?t] =>
         destruct (cuda_empty_cache d t) as [[]|e]
     end; run_reclaim|];
    try read_memory; run_reclaim;
    cbn [clock log EXTRA_RESERVED_MEMORY] in *;
    rewrite ?Nat.add_1_r, ?Nat.add_0_r;
    try match goal with
        | |- context [reading d (clock w) idx] =>
            destruct (reading d (clock w) idx) as [[[tb ub] fb]|]
        end;
    try match goal with
        | |- context [match reading d ?t idx with _ => _ end] =>
            destruct (reading d t idx) as [[[ta ua] fa]|]
        end;
    try match goal with |- context [gtb ?x ?y] => destruct (gtb x y) end;
    run_reclaim;
    do 2 eexists; (split; [reflexivity|]); run_reclaim;
    (split; [reflexivity|]);
    (split;
     [ intros b a Hb Ha; try discriminate;
       injection Hb as <-; injection Ha as <-; auto|]);
    (split; [intros [H|H]; try discriminate; auto|]);
    split; reflexivity.
Qed.

Lemma reclaim_report_witness :
  exists r w',
    clear_gpu_memory one_gpu 0 w0 = (Ok r, w') /\
    before_memory r = telemetry one_gpu 0 w0 /\
    (forall b a,
       before_memory r = Some b -> after_memory r = Some a ->
       freed_memory_gb r = sub (used_gb b) (used_gb a) /\ success r = true) /\
    (before_memory r = None \/ after_memory r = None ->
     freed_memory_gb r = zero) /\
    let released :=
      clock (snd (GPUManager.get_gpu_memory_info one_gpu 0 w0)) in
    success r = release_ok one_gpu released /\
    after_memory r
    = if release_ok one_gpu released
      then reading one_gpu
             (released + if cuda_is_available one_gpu then 1 else 0)%nat 0
      else None.
Proof. exact (reclaim_report one_gpu 0 w0). Defined.

(** A device whose use grows from 8 GB to 10 GB during the reclaim: the
    report says -2 GB, not 0. *)
Lemma reclaim_negative_example :
  match fst (clear_gpu_memory one_gpu 0 w0) with
  | Ok r => freed_memory_gb r = of_Z (-2) /\ success r = true
  | Raise _ => False
  end.
Proof. vm_compute. split; reflexivity. Qed.

(** C8 as stated fails: on a host without telemetry whose CUDA runtime
    raises when asked to release its cache, both snapshots are missing and
    the reclaim is marked unsuccessful. *)
Lemma reclaim_counterexample :
  match fst (clear_gpu_memory broken_cuda 0 w0) with
  | Ok r =>
      before_memory r = None /\ after_memory r = None /\
      freed_memory_gb r = zero /\ success r = false
  | Raise _ => False
  end.
Proof. vm_compute. repeat split. Qed.

(** ** C9: an index that fails validation *)




(** With index 5 on the single device of [one_gpu], auto mode reserves the
    8 GB in use on device 0 plus the target of 1 GB. *)
Lemma invalid_index_example :
  EXTRA_RESERVED_MEMORY
    (snd (ReservedMemorySetter.set_memory one_gpu tt (of_Z 1) "auto" 5
            (of_Z 2) false false w0)) = 9 * 2 ^ 30.
Proof. vm_compute. reflexivity. Qed.

(** ** C10: the pass-through of [anything] *)

(** C10, as amended.  [set_memory] returns its [anything] argument
    unchanged for every combination of the other arguments for which the
    default of its [except] clause, [max(1.0, min_safe_reserve) * 2^30], is
    a finite float, which holds for every [min_safe_reserve] up to 8.0, the
    declared maximum; whatever happens inside the [try] block does not
    matter.  [BatchMemoryCleaner.clean] returns [anything] as the first
    component of its result for every combination of its arguments. *)
Theorem anything_passes_through {A : Type} d (anything : A) r mode idx m
    clear_memory show_gpu_info clear_all_gpus aggressive w :
  (fallback_defined m = true ->
   fst (ReservedMemorySetter.set_memory d anything r mode idx m
          clear_memory show_gpu_info w) = Ok anything) /\
  (valid m = true -> leb m (of_Z 8) = true -> fallback_defined m = true) /\
  exists report,
    fst (BatchMemoryCleaner.clean d anything clear_all_gpus aggressive w)
    = Ok (anything, report).
Proof.
  split; [|split; [apply fallback_in_range|]].
  - intros Hf. unfold ReservedMemorySetter.set_memory, bind at 1, try_except.
    match goal with
    | |- context [match ?c w with _ => _ end] => destruct (c w) as [[[]|e] w']
    end.
    + reflexivity.
    + destruct (set_memory_except_ok m e w' Hf) as [w'' ->]. reflexivity.
  - unfold BatchMemoryCleaner.clean, with_local, bind at 1, try_except.
    match goal with
    | |- context [match ?c (?l, w) with _ => _ end] =>
        destruct (c (l, w)) as [[[]|e] [l' w']]
    end.
    + cbn. eauto.
    + cbn. eauto.
Qed.

Lemma anything_passes_through_witness :
  fst (ReservedMemorySetter.set_memory broken_cuda 7%nat (of_Z 1) "smart" 0
         (of_Z 2) true true w0) = Ok 7%nat.
Proof.
  apply (proj1 (anything_passes_through broken_cuda 7%nat (of_Z 1) "smart" 0
                  (of_Z 2) true true false false w0)).
  reflexivity.
Defined.

(** C10 as stated fails for [set_memory]: without telemetry and with an
    infinite [min_safe_reserve] the conversion fails in the [try] block and
    again in the [except] clause, and the call raises instead of
    returning. *)
Lemma anything_counterexample :
  fst (ReservedMemorySetter.set_memory no_gpu tt (of_Z 1) "manual" 0
         (S754_infinity false) false false w0) = Raise OverflowError.
Proof. vm_compute. reflexivity. Qed.

(* ====================================================================== *)
(** * Further properties of the code *)
(* ====================================================================== *)

(** ** More facts about binary64 arithmetic *)

(** *** The order of the values *)

Lemma val_nonneg x : 0 <= val x.
Proof.
  destruct x as [s|s| |s m e]; cbn [val]; try lia.
Qed.

Lemma val_finite_lt m e :
  valid (S754_finite false m e) = true -> Zpos m * 2 ^ (e + 1074) < 2 ^ 2098.
Proof.
  intros V. destruct (canonical_facts _ _ _ V) as (Hd & He & Hc).
  pose proof (Zdigits2_bounds (Zpos m) ltac:(lia)) as B.
  apply (pow2_mul_lt _ (Zdigits2 (Zpos m))); lia.
Qed.

Lemma ltb_val_lt x y :
  wf x = true -> wf y = true -> ltb x y = true -> val x < val y.
Proof.
  intros Wx Wy L.
  apply wf_split in Wx, Wy. destruct Wx as [Vx Nx], Wy as [Vy Ny].
  assert (P : 0 < 2 ^ 2098) by (apply Z.pow_pos_nonneg; lia).
  destruct (nonneg_cases x Nx) as [[sx ->]|[->|(mx & ex & ->)]];
  destruct (nonneg_cases y Ny) as [[sy ->]|[->|(my & ey & ->)]];
    try (unfold ltb, SFltb in L; cbn in L; discriminate); cbn [val].
  - exact P.
  - destruct (canonical_facts _ _ _ Vy) as (Hd & He & Hc).
    apply Z.mul_pos_pos; [lia | apply Z.pow_pos_nonneg; lia].
  - now apply val_finite_lt.
  - now apply val_lt_finite.
Qed.

Lemma leb_val_le x y :
  wf x = true -> wf y = true -> leb x y = true -> val x <= val y.
Proof.
  intros Wx Wy L.
  destruct (Z.le_gt_cases (val x) (val y)) as [H|H]; [exact H|exfalso].
  assert (L' : leb y x = true) by (apply val_le_leb; auto; lia).
  destruct (ltb y x) eqn:T.
  - apply leb_ltb_false in L. congruence.
  - assert (T' : ltb x y = false) by (now apply leb_ltb_false).
    (* neither is below the other: the values are equal *)
    destruct (Z.lt_ge_cases (val y) (val x)) as [G|G]; [|lia].
    clear H. apply wf_split in Wx, Wy.
    destruct Wx as [Vx Nx], Wy as [Vy Ny].
    assert (P : 0 < 2 ^ 2098) by (apply Z.pow_pos_nonneg; lia).
    destruct (nonneg_cases x Nx) as [[sx ->]|[->|(mx & ex & ->)]];
    destruct (nonneg_cases y Ny) as [[sy ->]|[->|(my & ey & ->)]];
      cbn [val] in G; try lia;
      try (unfold ltb, SFltb in T; cbn in T; discriminate);
      try (unfold leb, SFleb in L; cbn in L; discriminate).
    (* two finite numbers *)
    unfold leb, SFleb in L, L'.
    rewrite (SFcompare_swap (S754_finite false mx ex)
               (S754_finite false my ey)) in L'.
    destruct (SFcompare (S754_finite false mx ex) (S754_finite false my ey))
      as [[]|] eqn:C; cbn in L, L'; try discriminate.
    cbn [SFcompare] in C.
    destruct (ex ?= ey) eqn:Ce; try discriminate.
    apply Z.compare_eq in Ce. subst ey.
    fold (Pos.compare mx my) in C.
    destruct (Pos.compare mx my) eqn:Cm; try discriminate.
    apply Pos.compare_eq in Cm. subst my. lia.
Qed.

Lemma val_py_max a b :
  wf a = true -> wf b = true -> val (py_max a b) = Z.max (val a) (val b).
Proof.
  intros Wa Wb. unfold py_max, gtb. destruct (ltb a b) eqn:L.
  - pose proof (ltb_val_lt a b Wa Wb L). lia.
  - apply ltb_false_leb in L; auto using wf_not_nan.
    pose proof (leb_val_le b a Wb Wa L). lia.
Qed.

Lemma val_py_min a b :
  wf a = true -> wf b = true -> val (py_min a b) = Z.min (val a) (val b).
Proof.
  intros Wa Wb. unfold py_min. destruct (ltb b a) eqn:L.
  - pose proof (ltb_val_lt b a Wb Wa L). lia.
  - apply ltb_false_leb in L; auto using wf_not_nan.
    pose proof (leb_val_le a b Wa Wb L). lia.
Qed.

(** *** Bounds on a rounded value *)

Lemma shl_align_spec mx ex e' :
  Zpos (fst (shl_align mx ex e'))
  = Zpos mx * 2 ^ (ex - snd (shl_align mx ex e')) /\
  snd (shl_align mx ex e') = Z.min ex e'.
Proof.
  unfold shl_align. destruct (e' - ex) as [|p|p] eqn:E; cbn [fst snd].
  - rewrite Z.sub_diag, Z.pow_0_r. lia.
  - rewrite Z.sub_diag, Z.pow_0_r. lia.
  - rewrite pos_iter_xO. split; [|lia]. do 2 f_equal. lia.
Qed.

Lemma shl_align_magnitude mx ex e' :
  Zdigits2 (Zpos (fst (shl_align mx ex e'))) + snd (shl_align mx ex e')
  = Zdigits2 (Zpos mx) + ex.
Proof.
  destruct (shl_align_spec mx ex e') as [Hm He]. rewrite Hm.
  rewrite Zdigits2_mul_pow2 by lia. lia.
Qed.

Lemma Zdigits2_le m n : 0 < m -> m < 2 ^ n -> Zdigits2 m <= n.
Proof.
  intros Hm H. pose proof (Zdigits2_bounds m Hm) as [B _].
  destruct (Z.le_gt_cases (Zdigits2 m) n) as [|G]; [assumption|exfalso].
  assert (2 ^ n <= 2 ^ (Zdigits2 m - 1)); [|lia].
  destruct (Z.lt_ge_cases n 0) as [N|N].
  - rewrite (Z.pow_neg_r 2 n) by assumption. apply Z.pow_nonneg. lia.
  - apply Z.pow_le_mono_r; lia.
Qed.

(** A rounded value stays under the power of two above the exact one. *)
Lemma val_round_upper m e B :
  0 < m -> e <= fexp prec emax (Zdigits2 m + e) ->
  Zdigits2 m + e <= B -> -1074 <= B ->
  val (binary_round_aux prec emax false m e loc_Exact) <= 2 ^ (B + 1074).
Proof.
  intros Hm Hle HB HB0. rewrite val_round by assumption. cbv zeta.
  set (E := fexp prec emax (Zdigits2 m + e)) in *.
  set (D := Zdigits2 m) in *.
  eapply Z.le_trans; [apply Z.le_min_l|].
  pose proof (rnd_bounds m (Z.to_nat (E - e)) ltac:(lia)) as [_ Hr].
  rewrite Z2Nat.id in Hr by lia.
  pose proof (Zdigits2_bounds m Hm) as [Bl Bu]. fold D in Bl, Bu.
  assert (HE : E = Z.max (D + e - 53) (-1074))
    by (unfold E, fexp, emin, prec, emax; lia).
  assert (HD : 1 <= D) by (unfold D; rewrite Zdigits2_pos_log2 by lia;
                            pose proof (Z.log2_nonneg m); lia).
  destruct (Z.le_gt_cases (E - e) D) as [K|K].
  - assert (Hq : m / 2 ^ (E - e) < 2 ^ (D - (E - e))).
    { apply Z.div_lt_upper_bound; [apply Z.pow_pos_nonneg; lia|].
      rewrite <- Z.pow_add_r by lia.
      replace (E - e + (D - (E - e))) with D by lia. exact Bu. }
    apply Z.le_trans with (2 ^ (D - (E - e)) * 2 ^ (E + 1074)).
    + apply Z.mul_le_mono_nonneg_r; [apply Z.pow_nonneg; lia | lia].
    + rewrite <- Z.pow_add_r by lia. apply Z.pow_le_mono_r; lia.
  - rewrite Z.div_small in Hr.
    2:{ split; [lia|]. eapply Z.lt_le_trans; [exact Bu|].
        apply Z.pow_le_mono_r; lia. }
    assert (E = -1074) by lia.
    apply Z.le_trans with (1 * 2 ^ (E + 1074)).
    + apply Z.mul_le_mono_nonneg_r; [apply Z.pow_nonneg; lia | lia].
    + replace (E + 1074) with 0 by lia. rewrite Z.pow_0_r.
      assert (0 < 2 ^ (B + 1074)) by (apply Z.pow_pos_nonneg; lia). lia.
Qed.

(** In the normal range a rounded value stays above the power of two
    below the exact one. *)
Lemma val_round_lower m e :
  0 < m -> e <= fexp prec emax (Zdigits2 m + e) ->
  -1021 <= Zdigits2 m + e ->
  2 ^ (Z.min (Zdigits2 m + e - 1 + 1074) 2098)
  <= val (binary_round_aux prec emax false m e loc_Exact).
Proof.
  intros Hm Hle HN. rewrite val_round by assumption. cbv zeta.
  set (E := fexp prec emax (Zdigits2 m + e)) in *.
  set (D := Zdigits2 m) in *.
  pose proof (rnd_bounds m (Z.to_nat (E - e)) ltac:(lia)) as [Hr _].
  rewrite Z2Nat.id in Hr by lia.
  pose proof (Zdigits2_bounds m Hm) as [Bl Bu]. fold D in Bl, Bu.
  assert (HE : E = D + e - 53)
    by (unfold E, fexp, emin, prec, emax; lia).
  assert (Hq : 2 ^ 52 <= m / 2 ^ (E - e)).
  { apply Z.div_le_lower_bound; [apply Z.pow_pos_nonneg; lia|].
    rewrite <- Z.pow_add_r by lia.
    replace (E - e + 52) with (D - 1) by lia. exact Bl. }
  assert (Ha : 2 ^ (D + e - 1 + 1074)
               <= rnd m (Z.to_nat (E - e)) * 2 ^ (E + 1074)).
  { replace (D + e - 1 + 1074) with (52 + (E + 1074)) by lia.
    rewrite Z.pow_add_r by lia.
    apply Z.mul_le_mono_nonneg_r; [apply Z.pow_nonneg; lia | lia]. }
  apply Z.min_glb.
  - eapply Z.le_trans; [|exact Ha]. apply Z.pow_le_mono_r; lia.
  - apply Z.pow_le_mono_r; lia.
Qed.

Lemma val_binary_round_upper mx ex B :
  Zdigits2 (Zpos mx) + ex <= B -> -1074 <= B ->
  val (binary_round prec emax false mx ex) <= 2 ^ (B + 1074).
Proof.
  intros HB HB0. unfold binary_round.
  pose proof (binary_round_ready mx ex) as R.
  pose proof (shl_align_magnitude mx ex
                (fexp prec emax (Zpos (digits2_pos mx) + ex))) as Mg.
  destruct (shl_align mx ex _) as [mz ez]. cbn [fst snd] in Mg.
  apply val_round_upper; try lia.
Qed.

Lemma val_binary_round_lower mx ex :
  -1021 <= Zdigits2 (Zpos mx) + ex ->
  2 ^ (Z.min (Zdigits2 (Zpos mx) + ex - 1 + 1074) 2098)
  <= val (binary_round prec emax false mx ex).
Proof.
  intros HN. unfold binary_round.
  pose proof (binary_round_ready mx ex) as R.
  pose proof (shl_align_magnitude mx ex
                (fexp prec emax (Zpos (digits2_pos mx) + ex))) as Mg.
  destruct (shl_align mx ex _) as [mz ez]. cbn [fst snd] in Mg.
  rewrite <- Mg. apply val_round_lower; try lia.
Qed.

(** Rounding treats a number and its opposite alike. *)
Lemma binary_round_aux_sign s m e l :
  is_zero (binary_round_aux prec emax s m e l)
  = is_zero (binary_round_aux prec emax false m e l).
Proof.
  unfold binary_round_aux.
  destruct (shr_fexp prec emax m e l) as [mrs1 e1].
  destruct (shr_fexp prec emax _ e1 loc_Exact) as [mrs2 e2].
  destruct (shr_m mrs2); [reflexivity | | reflexivity].
  destruct (e2 <=? emax - prec); reflexivity.
Qed.

Lemma val_pos_not_zero x : 0 < val x -> is_zero x = false.
Proof. destruct x; cbn [val is_zero]; intros; try reflexivity; lia. Qed.

(** *** Byte counts as gigabytes *)

Lemma truediv_GB_pos z :
  0 < z -> truediv_GB z = binary_round prec emax false (Z.to_pos z) (-30).
Proof.
  intros H. unfold truediv_GB, of_Z_div_pow2, binary_normalize.
  destruct z; try lia. reflexivity.
Qed.

Lemma truediv_GB_wf z : 0 <= z -> wf (truediv_GB z) = true.
Proof.
  intros H. destruct (Z.eq_dec z 0) as [->|N]; [reflexivity|].
  rewrite truediv_GB_pos by lia. apply wf_split. split.
  - apply binary_round_valid.
  - apply shape_nonneg, binary_round_shape.
Qed.

Lemma Zdigits2_ge_1 m : 0 < m -> 1 <= Zdigits2 m.
Proof.
  intros H. rewrite Zdigits2_pos_log2 by assumption.
  pose proof (Z.log2_nonneg m). lia.
Qed.

Lemma truediv_GB_val_pos z : 0 < z -> 0 < val (truediv_GB z).
Proof.
  intros H. rewrite truediv_GB_pos by assumption.
  pose proof (Zdigits2_ge_1 (Zpos (Z.to_pos z)) ltac:(lia)) as D.
  eapply Z.lt_le_trans; [|apply val_binary_round_lower; lia].
  apply Z.pow_pos_nonneg; lia.
Qed.

(** A byte count converts to [0.0] only if it is 0. *)
Lemma truediv_GB_zero z : is_zero (truediv_GB z) = true <-> z = 0.
Proof.
  split; [|intros ->; reflexivity].
  destruct z as [|p|p]; [reflexivity| |]; intros H; exfalso.
  - pose proof (truediv_GB_val_pos (Zpos p) ltac:(lia)) as V.
    apply val_pos_not_zero in V. congruence.
  - pose proof (truediv_GB_val_pos (Zpos p) ltac:(lia)) as V.
    apply val_pos_not_zero in V.
    unfold truediv_GB, of_Z_div_pow2, binary_normalize, binary_round in *.
    match type of H with
    | context [shl_align ?a ?b ?c] => destruct (shl_align a b c) as [mz ez]
    end.
    rewrite binary_round_aux_sign in H. congruence.
Qed.

Lemma below_weaken B B' x : below B x -> B <= B' -> below B' x.
Proof.
  intros [W H] L. split; [exact W|].
  eapply Z.le_trans; [exact H|]. apply Z.pow_le_mono_r; lia.
Qed.

Lemma truediv_GB_below z : 0 <= z < 2 ^ 64 -> below 34 (truediv_GB z).
Proof.
  intros H. split; [apply truediv_GB_wf; lia|].
  destruct (Z.eq_dec z 0) as [->|N].
  - cbn [val truediv_GB]. apply Z.pow_nonneg. lia.
  - rewrite truediv_GB_pos by lia. apply val_binary_round_upper; [|lia].
    rewrite Z2Pos.id by lia.
    pose proof (Zdigits2_le z 64 ltac:(lia) ltac:(lia)). lia.
Qed.

(** *** A number of the format is left as it is by rounding *)

Lemma binary_round_aux_exact s m e :
  0 < m -> fexp prec emax (Zdigits2 m + e) = e -> e <= 971 ->
  binary_round_aux prec emax s m e loc_Exact = S754_finite s (Z.to_pos m) e.
Proof.
  intros Hm Hf He. unfold binary_round_aux.
  assert (X : shr_fexp prec emax m e loc_Exact
              = (Build_shr_record m false false, e)).
  { replace (shr_fexp prec emax m e loc_Exact)
      with (shr_fexp prec emax (m * 2 ^ 0) e loc_Exact)
      by (now rewrite Z.pow_0_r, Z.mul_1_r).
    rewrite (shr_fexp_exact m 0 e); try lia.
    - now rewrite Z.add_0_r.
    - rewrite Z.pow_0_r, Z.mul_1_r. lia. }
  rewrite X. cbn [shr_m loc_of_shr_record round_nearest_even].
  rewrite X. cbn [shr_m]. destruct m as [|p|p]; try lia.
  change (emax - prec) with 971.
  replace (e <=? 971) with true by (symmetry; apply Z.leb_le; lia).
  reflexivity.
Qed.

(** A byte count below [2^53] is a gigabyte figure without rounding. *)
Lemma truediv_GB_exact z :
  0 < z < 2 ^ 53 ->
  truediv_GB z
  = S754_finite false (Z.to_pos (z * 2 ^ (53 - Zdigits2 z)))
      (Zdigits2 z - 83).
Proof.
  intros H. rewrite truediv_GB_pos by lia. unfold binary_round.
  set (D := Zdigits2 z).
  assert (HD : 1 <= D <= 53).
  { split; [apply Zdigits2_ge_1; lia | apply Zdigits2_le; lia]. }
  change (Zpos (digits2_pos (Z.to_pos z))) with (Zdigits2 (Zpos (Z.to_pos z))).
  rewrite Z2Pos.id by lia. fold D.
  assert (F : fexp prec emax (D + -30) = D - 83)
    by (unfold fexp, emin, prec, emax; lia).
  rewrite F.
  destruct (shl_align_spec (Z.to_pos z) (-30) (D - 83)) as [Hm He].
  destruct (shl_align (Z.to_pos z) (-30) (D - 83)) as [mz ez].
  cbn [fst snd] in Hm, He. rewrite Z2Pos.id in Hm by lia.
  assert (E1 : Z.min (-30) (D - 83) = D - 83) by lia.
  rewrite E1 in He. subst ez.
  replace (-30 - (D - 83)) with (53 - D) in Hm by lia.
  rewrite binary_round_aux_exact; try lia.
  - rewrite <- Hm. reflexivity.
  - rewrite Hm, Zdigits2_mul_pow2 by lia. fold D.
    unfold fexp, emin, prec, emax. lia.
Qed.

(** *** Magnitudes *)

Lemma below_convertible B x : below B x -> B <= 941 -> convertible x = true.
Proof.
  intros [W H] HB. pose proof W as W'.
  apply wf_split in W. destruct W as [V N]. unfold convertible.
  assert (P : 2 ^ (B + 1074) < 2 ^ 2098) by (apply Z.pow_lt_mono_r; lia).
  destruct (nonneg_cases x N) as [[s ->]|[->|(m & e & ->)]].
  - now rewrite to_bytes_zero.
  - cbn [val] in H. lia.
  - destruct (canonical_facts _ _ _ V) as (Hd & He & Hc).
    cbn [val] in H.
    assert (e <= 941).
    { destruct (Z.le_gt_cases e 941) as [|G]; [assumption|exfalso].
      assert (2 ^ (B + 1074) < 2 ^ (e + 1074))
        by (apply Z.pow_lt_mono_r; lia).
      assert (1 * 2 ^ (e + 1074) <= Zpos m * 2 ^ (e + 1074))
        by (apply Z.mul_le_mono_nonneg_r; [apply Z.pow_nonneg|]; lia).
      lia. }
    destruct (to_bytes_small m e V ltac:(assumption)) as [b ->].
    reflexivity.
Qed.

Lemma below_leb B x y :
  wf x = true -> leb x y = true -> below B y -> below B x.
Proof.
  intros Wx L [Wy H]. split; [exact Wx|].
  pose proof (leb_val_le x y Wx Wy L). lia.
Qed.

Lemma below_py_max B a b : below B a -> below B b -> below B (py_max a b).
Proof. intros Ha Hb. destruct (py_max_cases a b) as [-> | ->]; assumption. Qed.

Lemma below_py_min B a b : below B a -> below B b -> below B (py_min a b).
Proof. intros Ha Hb. destruct (py_min_cases a b) as [-> | ->]; assumption. Qed.

(** A value under the bound is [py_min]'d to a value under the bound,
    whatever the other operand. *)
Lemma below_py_min_r B a b :
  wf a = true -> below B b -> below B (py_min a b).
Proof.
  intros Wa [Wb Hb]. split; [now apply wf_py_min|].
  rewrite val_py_min by assumption. lia.
Qed.

Lemma finite_magnitude m e B :
  valid (S754_finite false m e) = true -> -1074 <= B ->
  Zpos m * 2 ^ (e + 1074) <= 2 ^ (B + 1074) ->
  Zdigits2 (Zpos m) + e <= B + 1.
Proof.
  intros V HB H. destruct (canonical_facts _ _ _ V) as (Hd & He & Hc).
  pose proof (Zdigits2_bounds (Zpos m) ltac:(lia)) as [Bl _].
  set (D := Zdigits2 (Zpos m)) in *.
  assert (2 ^ (D - 1 + (e + 1074)) <= 2 ^ (B + 1074)).
  { rewrite Z.pow_add_r by lia. eapply Z.le_trans; [|exact H].
    apply Z.mul_le_mono_nonneg_r; [apply Z.pow_nonneg; lia | exact Bl]. }
  apply Z.pow_le_mono_r_iff in H0; lia.
Qed.

Lemma below_finite B x :
  below B x -> B <= 1000 ->
  (exists s, x = S754_zero s) \/ exists m e, x = S754_finite false m e.
Proof.
  intros [W H] HB. apply wf_split in W. destruct W as [V N].
  destruct (nonneg_cases x N) as [[s ->]|[->|(m & e & ->)]]; eauto.
  cbn [val] in H.
  assert (2 ^ (B + 1074) < 2 ^ 2098) by (apply Z.pow_lt_mono_r; lia). lia.
Qed.

Lemma below_mul B x mc ec :
  below B x -> -1074 <= B -> B <= 1000 ->
  valid (S754_finite false mc ec) = true ->
  Zdigits2 (Zpos mc) + ec <= 0 ->
  below (B + 1) (mul x (S754_finite false mc ec)).
Proof.
  intros Hx HB0 HB Vc Hc. pose proof Hx as [W Hv].
  split; [now apply wf_mul|].
  destruct (below_finite B x Hx HB) as [[s ->]|(mx & ex & ->)].
  - unfold mul, SFmul. cbn [val]. apply Z.pow_nonneg. lia.
  - apply wf_split in W. destruct W as [V N]. cbn [val] in Hv.
    pose proof (finite_magnitude mx ex B V HB0 Hv) as Mx.
    unfold mul, SFmul. cbn [xorb].
    apply val_round_upper; try lia.
    + eapply mul_ready; eassumption.
    + pose proof (Zdigits2_bounds (Zpos mx) ltac:(lia)) as [_ Ux].
      pose proof (Zdigits2_bounds (Zpos mc) ltac:(lia)) as [_ Uc].
      pose proof (Zdigits2_ge_1 (Zpos mx) ltac:(lia)).
      pose proof (Zdigits2_ge_1 (Zpos mc) ltac:(lia)).
      assert (Zdigits2 (Zpos (mx * mc))
              <= Zdigits2 (Zpos mx) + Zdigits2 (Zpos mc)); [|lia].
      apply Zdigits2_le; [lia|].
      rewrite Pos2Z.inj_mul, Z.pow_add_r by lia.
      apply Z.mul_lt_mono_nonneg; lia.
Qed.

Lemma shl_align_val m e e' :
  -1074 <= e' -> e' <= e ->
  Zpos (fst (shl_align m e e')) * 2 ^ (e' + 1074) = Zpos m * 2 ^ (e + 1074).
Proof.
  intros H0 H. destruct (shl_align_spec m e e') as [Hm He].
  rewrite Hm. replace (snd (shl_align m e e')) with e' by lia.
  rewrite <- Z.mul_assoc, <- Z.pow_add_r by lia. do 2 f_equal. lia.
Qed.

Lemma below_add B x y :
  below B x -> below B y -> -1074 <= B -> B <= 1000 ->
  below (B + 2) (add x y).
Proof.
  intros Hx Hy HB0 HB. pose proof Hx as [Wx Hvx]. pose proof Hy as [Wy Hvy].
  split; [now apply wf_add|].
  assert (Hw : 2 ^ (B + 1074) <= 2 ^ (B + 2 + 1074))
    by (apply Z.pow_le_mono_r; lia).
  destruct (below_finite B x Hx HB) as [[sx ->]|(mx & ex & ->)];
  destruct (below_finite B y Hy HB) as [[sy ->]|(my & ey & ->)].
  - destruct sx, sy; cbn [add SFadd val]; apply Z.pow_nonneg; lia.
  - unfold add, SFadd. lia.
  - unfold add, SFadd. lia.
  - apply wf_split in Wx, Wy. destruct Wx as [Vx Nx], Wy as [Vy Ny].
    destruct (canonical_facts _ _ _ Vx) as (_ & Hex & _).
    destruct (canonical_facts _ _ _ Vy) as (_ & Hey & _).
    cbn [val] in Hvx, Hvy.
    unfold add, SFadd. cbn [cond_Zopp].
    set (ez := Z.min ex ey).
    pose proof (shl_align_val mx ex ez ltac:(lia) ltac:(lia)) as Ax.
    pose proof (shl_align_val my ey ez ltac:(lia) ltac:(lia)) as Ay.
    destruct (shl_align mx ex ez) as [ax ?].
    destruct (shl_align my ey ez) as [ay ?]. cbn [fst] in *.
    cbn [Z.add binary_normalize].
    apply val_binary_round_upper; [|lia].
    assert (P : 0 < 2 ^ (ez + 1074)) by (apply Z.pow_pos_nonneg; lia).
    assert (S1 : Zpos (ax + ay) * 2 ^ (ez + 1074) < 2 ^ (B + 1076)).
    { rewrite Pos2Z.inj_add, Z.mul_add_distr_r, Ax, Ay.
      replace (B + 1076) with (1 + (B + 1074) + 1) by lia.
      rewrite (Z.pow_add_r 2 (1 + (B + 1074)) 1),
        (Z.pow_add_r 2 1 (B + 1074)) by lia.
      change (2 ^ 1) with 2.
      assert (0 < 2 ^ (B + 1074)) by (apply Z.pow_pos_nonneg; lia). lia. }
    assert (Ez : ez <= B + 1).
    { destruct (Z.le_gt_cases ez (B + 1)) as [|G]; [assumption|exfalso].
      assert (2 ^ (B + 1076) <= 2 ^ (ez + 1074))
        by (apply Z.pow_le_mono_r; lia).
      assert (1 * 2 ^ (ez + 1074) <= Zpos (ax + ay) * 2 ^ (ez + 1074))
        by (apply Z.mul_le_mono_nonneg_r; lia).
      lia. }
    assert (Zdigits2 (Zpos (ax + ay)) <= B + 2 - ez); [|lia].
    apply Zdigits2_le; [lia|].
    apply (Z.mul_lt_mono_pos_r (2 ^ (ez + 1074))); [exact P|].
    rewrite <- Z.pow_add_r by lia.
    replace (B + 2 - ez + (ez + 1074)) with (B + 1076) by lia. exact S1.
Qed.

Lemma below_literal B m e :
  valid (S754_finite false m e) = true ->
  Zpos m * 2 ^ (e + 1074) <= 2 ^ (B + 1074) ->
  below B (S754_finite false m e).
Proof.
  intros V H. split; [|exact H]. apply wf_split. split; [exact V|reflexivity].
Qed.

(** ** Telemetry *)

Lemma truediv_GB_finite z :
  0 <= z < 2 ^ 64 -> is_finite (truediv_GB z) = true.
Proof.
  intros H.
  destruct (below_finite 34 (truediv_GB z) (truediv_GB_below z H) ltac:(lia))
    as [[s ->]|(m & e & ->)]; reflexivity.
Qed.

(** X1.  The snapshot of a device.  Let NVML report unsigned 64-bit byte
    counts.  Then [get_gpu_memory_info] never raises, and it returns a
    snapshot exactly when NVML is available, the index lies within the
    device count (the count of NVML, taken as 0 when NVML fails to give it)
    and the query of the device succeeds; the snapshot then holds the three
    byte counts divided by [2^30], three finite floats, so that none of the
    three divisions overflows.  The call only observes: the reservation
    slot is left as it was, and without NVML nothing at all is done, even
    if the CUDA runtime sees devices. *)
Theorem telemetry_closed_form d idx w :
  unsigned64 d ->
  exists w',
    GPUManager.get_gpu_memory_info d idx w
    = (Ok (reading d (clock w) idx), w') /\
    extends w w' /\
    (pynvml_available d = false -> w' = w) /\
    (forall total_gb used_gb free_gb,
       reading d (clock w) idx = Some (total_gb, used_gb, free_gb) ->
       is_finite total_gb = true /\ is_finite used_gb = true /\
       is_finite free_gb = true).
Proof.
  intros Hu.
  destruct (get_gpu_memory_info_run d idx w) as (w' & E & X & _ & N).
  exists w'. split; [exact E|]. split; [exact X|]. split; [exact N|].
  unfold reading. intros tg ug fg.
  destruct (pynvml_available d && index_in_range d idx); [|discriminate].
  destruct (nvmlDeviceGetMemoryInfo d (clock w) idx)
    as [[[total used] free]|e] eqn:Q; [|discriminate].
  destruct (Hu _ _ _ _ _ Q) as (Ht & Hus & Hf).
  intros [= <- <- <-]. auto using truediv_GB_finite.
Qed.

(** The single device of [one_gpu] at the first instant: 24 GB, 8 GB in
    use. *)
Lemma telemetry_closed_form_witness :
  exists w',
    GPUManager.get_gpu_memory_info one_gpu 0 w0
    = (Ok (reading one_gpu (clock w0) 0), w') /\
    extends w0 w' /\
    (pynvml_available one_gpu = false -> w' = w0) /\
    (forall total_gb used_gb free_gb,
       reading one_gpu (clock w0) 0 = Some (total_gb, used_gb, free_gb) ->
       is_finite total_gb = true /\ is_finite used_gb = true /\
       is_finite free_gb = true).
Proof.
  apply (telemetry_closed_form one_gpu 0 w0).
  intros t i total used free. destruct t; intros [= <- <- <-];
    vm_compute; repeat split; discriminate.
Defined.

Lemma get_gpu_name_run d idx w :
  exists n w',
    GPUManager.get_gpu_name d idx w = (Ok n, w') /\
    clock w' = clock w /\ (pynvml_available d = false -> n = None).
Proof.
  unfold GPUManager.get_gpu_name.
  destruct (pynvml_available d); cbn [negb].
  - destruct (nvmlDeviceGetName d idx); run; do 2 eexists;
      (split; [reflexivity|]); split; auto; discriminate.
  - run. do 2 eexists. split; [reflexivity|]. auto.
Qed.

Lemma get_gpu_temperature_run d idx w :
  exists t w',
    GPUManager.get_gpu_temperature d idx w = (Ok t, w') /\
    (pynvml_available d = false -> t = None).
Proof.
  unfold GPUManager.get_gpu_temperature.
  destruct (pynvml_available d); cbn [negb]; run.
  - destruct (nvmlDeviceGetTemperature d (clock w) idx); do 2 eexists;
      (split; [reflexivity|]); discriminate.
  - do 2 eexists. split; [reflexivity|]. auto.
Qed.

Lemma get_gpu_utilization_run d idx w :
  exists u w',
    GPUManager.get_gpu_utilization d idx w = (Ok u, w') /\
    (pynvml_available d = false -> u = None).
Proof.
  unfold GPUManager.get_gpu_utilization.
  destruct (pynvml_available d); cbn [negb]; run.
  - destruct (nvmlDeviceGetUtilizationRates d (clock w) idx); do 2 eexists;
      (split; [reflexivity|]); discriminate.
  - do 2 eexists. split; [reflexivity|]. auto.
Qed.

Lemma reading_out_of_range d t idx :
  index_in_range d idx = false -> reading d t idx = None.
Proof. unfold reading. intros ->. now rewrite andb_false_r. Qed.

Lemma reading_without_nvml d t idx :
  pynvml_available d = false -> reading d t idx = None.
Proof. unfold reading. now intros ->. Qed.

(** The record of [get_detailed_info], with the snapshot it holds. *)
Lemma get_detailed_info_run d idx w :
  exists info w',
    GPUManager.get_detailed_info d idx w = (Ok info, w') /\
    GPUManager.index info = idx /\
    GPUManager.available info = index_in_range d idx /\
    GPUManager.memory info = reading d (clock w) idx /\
    (index_in_range d idx = false ->
     w' = validated d idx w /\
     GPUManager.name info = None /\ GPUManager.temperature info = None /\
     GPUManager.utilization info = None) /\
    (pynvml_available d = false ->
     GPUManager.name info = None /\ GPUManager.temperature info = None /\
     GPUManager.utilization info = None).
Proof.
  unfold GPUManager.get_detailed_info, bind at 1.
  rewrite validate_gpu_index_run.
  destruct (index_in_range d idx) eqn:R; cbn [negb].
  - unfold bind at 1.
    destruct (get_gpu_name_run d idx (validated d idx w))
      as (n & w1 & -> & C1 & N1).
    unfold bind at 1.
    destruct (get_gpu_memory_info_run d idx w1) as (w2 & -> & _ & _ & _).
    unfold bind at 1.
    destruct (get_gpu_temperature_run d idx w2) as (t & w3 & -> & N3).
    unfold bind at 1.
    destruct (get_gpu_utilization_run d idx w3) as (u & w4 & -> & N4).
    unfold ret. do 2 eexists. split; [reflexivity|].
    cbn [GPUManager.index GPUManager.available GPUManager.memory
         GPUManager.name GPUManager.temperature GPUManager.utilization].
    rewrite C1, clock_validated.
    repeat split; auto; discriminate.
  - unfold ret. do 2 eexists. split; [reflexivity|].
    cbn [GPUManager.index GPUManager.available GPUManager.memory
         GPUManager.name GPUManager.temperature GPUManager.utilization].
    rewrite reading_out_of_range by assumption. repeat split; auto.
Qed.

(** X2.  The detailed record of a device.  [get_detailed_info] never raises and
    only observes.  The record is marked available exactly when the index
    lies within the device count; its [memory] field is the snapshot of
    the instant of the call.  A record that is not available holds no
    reading at all, and on a host without NVML a record can be available
    (the CUDA runtime counts the device) and still hold none. *)
Theorem detailed_info_fields d idx w :
  exists info w',
    GPUManager.get_detailed_info d idx w = (Ok info, w') /\
    extends w w' /\
    GPUManager.index info = idx /\
    GPUManager.available info = index_in_range d idx /\
    GPUManager.memory info = reading d (clock w) idx /\
    (GPUManager.available info = false \/ pynvml_available d = false ->
     GPUManager.name info = None /\ GPUManager.memory info = None /\
     GPUManager.temperature info = None /\
     GPUManager.utilization info = None).
Proof.
  destruct (get_detailed_info_run d idx w)
    as (info & w' & E & I & A & Mem & Out & Nv).
  exists info, w'. split; [exact E|].
  split.
  { pose proof (observes_get_detailed_info d idx w) as X.
    rewrite E in X. exact X. }
  repeat (split; [assumption|]).
  rewrite Mem, A. intros [H|H].
  - destruct (Out H) as (_ & ? & ? & ?).
    rewrite reading_out_of_range by assumption. auto.
  - destruct (Nv H) as (? & ? & ?).
    rewrite reading_without_nvml by assumption. auto.
Qed.

(** ** Reclaiming memory *)

Ltac run_clean :=
  cbv beta iota zeta delta
    [clear_gpu_memory clear_body with_local try_except bind zoom update
     local ret get tick logger modify lift_result fst snd
     before_memory after_memory success freed_memory_gb freed_memory_mb
     torch_cuda gc_collected set_success set_torch_cuda set_gc_collected
     set_before_memory set_after_memory set_freed initial].

(** X3.  The bookkeeping of a reclaim.  The report always holds the snapshot
    taken before the release, and its amount in MB is its amount in GB
    times 1024.  A reclaim marked successful collected garbage and took its
    second snapshot at one instant, after the release; [torch_cuda] then
    tells whether a CUDA runtime was there to release.  A reclaim marked
    unsuccessful had its release raise: nothing was collected, no second
    snapshot was taken and nothing is reported as freed. *)
Theorem reclaim_bookkeeping d idx w :
  exists r w',
    clear_gpu_memory d idx w = (Ok r, w') /\
    before_memory r = reading d (clock w) idx /\
    freed_memory_mb r = mul_int (freed_memory_gb r) 1024 /\
    (success r = true ->
     torch_cuda r = cuda_is_available d /\
     exists t,
       (clock w <= t <= clock w + 2)%nat /\
       gc_collected r = gc_collect d t /\
       after_memory r = reading d t idx) /\
    (success r = false ->
     cuda_is_available d = true /\ torch_cuda r = false /\
     gc_collected r = 0 /\ after_memory r = None /\
     freed_memory_gb r = zero).
Proof.
  assert (Z0 : mul_int (S754_zero false) 1024 = S754_zero false)
    by (vm_compute; reflexivity).
  run_clean. read_memory. run_clean.
  destruct (cuda_is_available d) eqn:Cu; run_clean;
    [match goal with
     | |- context [cuda_empty_cache d ?t] =>
         destruct (cuda_empty_cache d t) as [[]|e]
     end; run_clean|];
    try read_memory; run_clean;
    cbn [clock log EXTRA_RESERVED_MEMORY] in *;
    try match goal with
        | |- context [reading d (clock w) idx] =>
            destruct (reading d (clock w) idx) as [[[tb ub] fb]|] eqn:Rb
        end;
    try match goal with
        | |- context [match reading d ?t idx with _ => _ end] =>
            destruct (reading d t idx) as [[[ta ua] fa]|] eqn:Ra
        end;
    try match goal with |- context [gtb ?x ?y] => destruct (gtb x y) end;
    run_clean;
    do 2 eexists; (split; [reflexivity|]); run_clean;
    (split; [reflexivity|]); (split; [assumption || reflexivity|]);
    (split;
     [ intros Hs;
       first
         [ discriminate Hs
         | split; [reflexivity|];
           eexists;
           (split;
            [|split;
              [reflexivity | first [reflexivity | symmetry; eassumption]]]);
           apply extends_clock in X; lia ]
     | intros Hs; first [discriminate Hs | repeat split; auto] ]).
Qed.

Lemma empty_cache_each_world d devices w :
  log (snd (empty_cache_each d devices w)) = log w /\
  EXTRA_RESERVED_MEMORY (snd (empty_cache_each d devices w))
  = EXTRA_RESERVED_MEMORY w.
Proof.
  revert w. induction devices as [|i rest IH]; intros w;
    cbn [empty_cache_each]; [split; reflexivity|].
  run. destruct (cuda_empty_cache_on d (clock w) i) as [[]|e].
  - match goal with |- context [empty_cache_each d rest ?w1] =>
      destruct (IH w1) as [L E]
    end.
    destruct (empty_cache_each d rest _) as [r w2]. exact (conj L E).
  - split; reflexivity.
Qed.

(** X4.  Clearing all caches.  [clear_all_caches] never raises: the first
    release that raises ends the sweep and is logged, and the devices after
    it are left alone.  Whatever happens exactly one record is logged, an
    INFO record when everything was released and an ERROR record
    otherwise, and the reservation slot is left as it was.  On a host
    without CUDA and without the model cache of the host application
    nothing else is done. *)
Theorem clear_all_caches_outcome d w :
  exists w' record,
    clear_all_caches d w = (Ok tt, w') /\
    EXTRA_RESERVED_MEMORY w' = EXTRA_RESERVED_MEMORY w /\
    log w' = record :: log w /\
    (record = (INFO, MsgAllCachesCleared) \/
     exists e, record = (ERROR, MsgAllCachesFailed e)) /\
    (cuda_is_available d = false -> cleanup_models d = None ->
     w' = log_record INFO MsgAllCachesCleared w).
Proof.
  unfold clear_all_caches, try_except, bind at 1, bind at 1.
  assert (H : exists r w1,
             (if cuda_is_available d
              then empty_cache_each d (range (cuda_device_count d))
              else ret tt) w = (r, w1) /\
             log w1 = log w /\
             EXTRA_RESERVED_MEMORY w1 = EXTRA_RESERVED_MEMORY w /\
             (cuda_is_available d = false -> r = Ok tt /\ w1 = w)).
  { destruct (cuda_is_available d).
    - destruct (empty_cache_each_world d (range (cuda_device_count d)) w)
        as [L E].
      destruct (empty_cache_each d _ w) as [r w1]. exists r, w1.
      repeat split; auto; discriminate.
    - exists (Ok tt), w. repeat split; auto. }
  destruct H as (r & w1 & -> & L1 & E1 & N1).
  destruct r as [[]|e].
  - destruct (cleanup_models d) as [f|] eqn:Cm; run.
    + destruct (f (clock w1)) as [[]|e]; do 2 eexists;
        (split; [reflexivity|]); cbn [log EXTRA_RESERVED_MEMORY];
        rewrite L1, E1; repeat split; eauto; discriminate.
    + do 2 eexists. split; [reflexivity|].
      cbn [log EXTRA_RESERVED_MEMORY]. rewrite L1, E1.
      repeat split; eauto. intros Hc _. destruct (N1 Hc) as [_ ->].
      reflexivity.
  - run. do 2 eexists. split; [reflexivity|].
    cbn [log EXTRA_RESERVED_MEMORY]. rewrite L1, E1.
    repeat split; eauto. intros Hc. destruct (N1 Hc). discriminate.
Qed.

(** X5.  Only [set_memory] writes the reservation.  The reads of telemetry, the
    display of a device, a reclaim, the sweep of all caches, the batch
    cleaner and the monitor leave [EXTRA_RESERVED_MEMORY] as they found it;
    they never put the clock back and never remove a log record. *)
Theorem observers_leave_the_reservation {A : Type} d (anything : A) idx
    clear_all_gpus aggressive refresh journal w :
  extends w (snd (GPUManager.get_detailed_info d idx w)) /\
  extends w (snd (ReservedMemorySetter._show_gpu_info d idx w)) /\
  extends w (snd (clear_gpu_memory d idx w)) /\
  extends w (snd (clear_all_caches d w)) /\
  extends w
    (snd (BatchMemoryCleaner.clean d anything clear_all_gpus aggressive w)) /\
  extends w (snd (snd (GPUMemoryMonitor.monitor d idx refresh (journal, w)))).
Proof.
  split; [apply (observes_get_detailed_info d idx w)|].
  split; [apply (observes_show_gpu_info d idx w)|].
  split; [apply (observes_clear_gpu_memory d idx w)|].
  split; [apply (observes_clear_all_caches d w)|].
  split; [apply (observes_clean d anything clear_all_gpus aggressive w)|].
  apply (observes_monitor d idx refresh (journal, w)).
Qed.

(** ** The batch cleaner *)

(** Rewrites with the equation [E] of a run, up to the unfolding of [float]
    in the type of the state. *)
Ltac rewrite_run E :=
  match type of E with
  | ?c ?s = ?rhs =>
      match goal with
      | |- context [c ?s'] =>
          replace (c s') with rhs by (symmetry; exact E)
      end
  end.

Lemma clean_each_run d devices :
  forall lines (acc : spec_float) w,
  exists gl w',
    BatchMemoryCleaner.clean_each d devices (lines, acc, w)
    = (Ok tt, (lines ++ gl, fold_left add (freed_amounts gl) acc, w')) /\
    Forall (fun l => exists i f, l = LineGpuFreed i f /\ In i devices) gl /\
    (List.length gl <= List.length devices)%nat /\
    gl = flat_map line_of (reclaims d devices w).
Proof.
  induction devices as [|i rest IH]; intros lines acc w.
  - exists [], w. cbn. rewrite app_nil_r. repeat split; auto.
  - cbn [BatchMemoryCleaner.clean_each reclaims]. unfold bind at 1, zoom.
    cbn [fst snd].
    destruct (returns_run (clear_gpu_memory d i) w
                (returns_clear_gpu_memory d i)) as (r & w1 & ->).
    cbn [flat_map fst snd]. unfold line_of at 1. cbn [fst snd].
    destruct (success r).
    + unfold BatchMemoryCleaner.append. run.
      destruct (IH (lines ++ [LineGpuFreed i (freed_memory_gb r)])
                  (add acc (freed_memory_gb r)) w1)
        as (gl & w' & E & F & Len & G).
      rewrite_run E.
      exists (LineGpuFreed i (freed_memory_gb r) :: gl), w'.
      rewrite <- app_assoc. cbn [app freed_amounts flat_map fold_left].
      split; [reflexivity|]. split; [|split].
      * constructor; [exists i, (freed_memory_gb r); split; cbn; auto|].
        eapply Forall_impl; [|exact F].
        intros l (j & f & -> & Hin). exists j, f. split; cbn; auto.
      * cbn [List.length]. lia.
      * now rewrite G.
    + run. destruct (IH lines acc w1) as (gl & w' & E & F & Len & G).
      rewrite_run E.
      exists gl, w'. split; [reflexivity|]. split; [|split].
      * eapply Forall_impl; [|exact F].
        intros l (j & f & -> & Hin). exists j, f. split; cbn; auto.
      * cbn [List.length]. lia.
      * exact G.
Qed.

Lemma In_range i n : In i (range n) -> 0 <= i < n.
Proof.
  unfold range. rewrite in_map_iff. intros (k & <- & Hk).
  apply in_seq in Hk. lia.
Qed.

Lemma length_range n : List.length (range n) = Z.to_nat n.
Proof. unfold range. now rewrite length_map, length_seq. Qed.

(** The lines that the batch cleaner writes between the header and the
    closing line. *)
Lemma clean_run {A : Type} d (anything : A) clear_all_gpus aggressive w :
  exists lines w',
    BatchMemoryCleaner.clean d anything clear_all_gpus aggressive w
    = (Ok (anything,
           LineHeader
             :: (lines ++ (if aggressive then [LineAggressive] else []))
             ++ [LineDone]), w') /\
    (exists rest,
        log w'
        = (INFO, MsgReport
                   (LineHeader
                      :: (lines ++ (if aggressive then [LineAggressive] else []))
                      ++ [LineDone])) :: rest) /\
    (if clear_all_gpus then
       exists gl,
         lines = gl ++ [LineTotalFreed (fold_left add (freed_amounts gl) zero)] /\
         forallb (is_gpu_line (cuda_count d)) gl = true /\
         (List.length gl <= Z.to_nat (cuda_count d))%nat /\
         gl = flat_map line_of (reclaims d (range (cuda_count d)) w)
     else
       exists r w1,
         clear_gpu_memory d 0 w = (Ok r, w1) /\
         lines = if success r then [LineFreed (freed_memory_gb r)] else []).
Proof.
  unfold BatchMemoryCleaner.clean, with_local, bind at 1, try_except,
    bind at 1.
  assert (H : exists lines w1,
             (if clear_all_gpus
              then
                BatchMemoryCleaner.clean_each d
                  (range (if cuda_is_available d
                          then cuda_device_count d else 0)) ;;
                s <- local ;;
                BatchMemoryCleaner.append (LineTotalFreed (snd s))
              else
                result <- zoom (clear_gpu_memory d 0) ;;
                (if success result
                 then BatchMemoryCleaner.append
                        (LineFreed (freed_memory_gb result))
                 else ret tt))
               ([LineHeader], S754_zero false, w)
             = (Ok tt, (LineHeader :: lines,
                        (if clear_all_gpus
                         then fold_left add (freed_amounts
                                (removelast lines)) zero
                         else S754_zero false), w1)) /\
             (if clear_all_gpus then
                exists gl,
                  lines = gl ++ [LineTotalFreed
                                   (fold_left add (freed_amounts gl) zero)] /\
                  forallb (is_gpu_line (cuda_count d)) gl = true /\
                  (List.length gl <= Z.to_nat (cuda_count d))%nat /\
                  gl = flat_map line_of
                         (reclaims d (range (cuda_count d)) w)
              else
                exists r w1,
                  clear_gpu_memory d 0 w = (Ok r, w1) /\
                  lines = if success r
                          then [LineFreed (freed_memory_gb r)] else [])).
  { destruct clear_all_gpus.
    - fold (cuda_count d). unfold bind at 1.
      destruct (clean_each_run d (range (cuda_count d)) [LineHeader]
                  (S754_zero false) w) as (gl & w1 & E & F & Len & G).
      rewrite_run E.
      unfold BatchMemoryCleaner.append. run.
      exists (gl ++ [LineTotalFreed
                       (fold_left add (freed_amounts gl) (S754_zero false))]),
        w1.
      rewrite removelast_last. split; [reflexivity|].
      exists gl. split; [reflexivity|]. split.
      + apply forallb_forall. intros l Hl.
        rewrite Forall_forall in F. destruct (F l Hl) as (i & f & -> & Hin).
        apply In_range in Hin. cbn [is_gpu_line].
        apply andb_true_iff. rewrite Z.leb_le, Z.ltb_lt. lia.
      + split; [now rewrite length_range in Len|exact G].
    - unfold bind at 1, zoom. cbn [fst snd].
      destruct (returns_run (clear_gpu_memory d 0) w
                  (returns_clear_gpu_memory d 0)) as (r & w1 & E).
      rewrite E. unfold BatchMemoryCleaner.append.
      destruct (success r) eqn:Sr; run.
      + exists [LineFreed (freed_memory_gb r)], w1.
        split; [reflexivity|]. exists r, w1. rewrite Sr. auto.
      + exists [], w1. split; [reflexivity|]. exists r, w1. rewrite Sr. auto. }
  destruct H as (lines & w1 & -> & Hlines).
  exists lines.
  destruct aggressive.
  - unfold bind at 1, bind at 1, zoom. cbn [fst snd].
    destruct (returns_run (clear_all_caches d) w1
                (returns_clear_all_caches d)) as ([] & w2 & ->).
    unfold BatchMemoryCleaner.append. run.
    eexists. split; [rewrite <- !app_assoc; reflexivity|].
    split; [|exact Hlines].
    cbn [log]. rewrite <- !app_assoc. eauto.
  - unfold BatchMemoryCleaner.append. run.
    eexists. rewrite app_nil_r. split; [reflexivity|].
    split; [|exact Hlines]. cbn [log]. eauto.
Qed.

Lemma map_fst_reclaims d devices :
  forall w, map fst (reclaims d devices w) = devices.
Proof.
  induction devices as [|i rest IH]; intros w; [reflexivity|].
  cbn [reclaims map fst]. now rewrite IH.
Qed.

(** X6.  The report of the batch cleaner.  [clean] never raises and hands back
    [anything] with a report that starts with the header and ends with the
    closing line.  The report never holds a failure line: the releases and
    queries that can raise are caught below [clean], so that a reclaim that
    failed is left out of the report, not reported.  The report is logged
    as it is returned. *)
Theorem clean_report_shape {A : Type} d (anything : A) clear_all_gpus
    aggressive w :
  exists body w' rest,
    BatchMemoryCleaner.clean d anything clear_all_gpus aggressive w
    = (Ok (anything, LineHeader :: body ++ [LineDone]), w') /\
    existsb is_failure_line body = false /\
    log w' = (INFO, MsgReport (LineHeader :: body ++ [LineDone])) :: rest.
Proof.
  destruct (clean_run d anything clear_all_gpus aggressive w)
    as (lines & w' & E & (rest & L) & Hl).
  exists (lines ++ (if aggressive then [LineAggressive] else [])), w', rest.
  split; [exact E|]. split; [|exact L].
  rewrite existsb_app. apply orb_false_iff. split.
  - destruct clear_all_gpus.
    + destruct Hl as (gl & -> & F & _). rewrite existsb_app.
      apply orb_false_iff. split; [|reflexivity].
      apply not_true_is_false. intros H. apply existsb_exists in H.
      destruct H as (l & Hin & Hf).
      rewrite forallb_forall in F. specialize (F l Hin).
      destruct l; discriminate.
    + destruct Hl as (r & w1 & _ & ->). destruct (success r); reflexivity.
  - destruct aggressive; reflexivity.
Qed.

(** X7.  The report over all devices.  With [clear_all_gpus] the cleaner
    reclaims every device that the CUDA runtime counts, once and in device
    order, each reclaim in the world that the one before has left.  The
    report holds, in that order, one line for each reclaim that was marked
    successful, with the index of the device and the amount that the
    reclaim reports as freed, and no line for a reclaim that was not; then
    the total: the sum, from 0.0 and in that order, of the amounts on these
    lines.  Without a CUDA runtime no device is touched and the total is
    0.0. *)
Theorem clean_all_devices_total {A : Type} d (anything : A) aggressive w :
  let device_lines :=
    flat_map line_of (reclaims d (range (cuda_count d)) w) in
  exists w',
    BatchMemoryCleaner.clean d anything true aggressive w
    = (Ok (anything,
           LineHeader
             :: device_lines
             ++ LineTotalFreed
                  (fold_left add (freed_amounts device_lines) zero)
             :: (if aggressive then [LineAggressive] else [])
             ++ [LineDone]), w') /\
    map fst (reclaims d (range (cuda_count d)) w) = range (cuda_count d) /\
    forallb (is_gpu_line (cuda_count d)) device_lines = true /\
    (List.length device_lines <= Z.to_nat (cuda_count d))%nat /\
    (cuda_is_available d = false -> device_lines = []).
Proof.
  cbv zeta.
  destruct (clean_run d anything true aggressive w)
    as (lines & w' & E & _ & (gl & -> & F & Len & G)).
  rewrite <- G. exists w'. split.
  - rewrite E. rewrite <- !app_assoc. reflexivity.
  - split; [apply map_fst_reclaims|]. split; [exact F|]. split; [exact Len|].
    intros Hc. unfold cuda_count in Len. rewrite Hc in Len.
    destruct gl; [reflexivity | cbn in Len; lia].
Qed.

(** X8.  The report over one device.  Without [clear_all_gpus] the cleaner
    reclaims device 0, whatever the devices of the host; the report shows
    the amount of that reclaim when it was marked successful and says
    nothing of it otherwise. *)
Theorem clean_one_device {A : Type} d (anything : A) aggressive w :
  exists r w1 w',
    clear_gpu_memory d 0 w = (Ok r, w1) /\
    BatchMemoryCleaner.clean d anything false aggressive w
    = (Ok (anything,
           LineHeader
             :: (if success r then [LineFreed (freed_memory_gb r)] else [])
             ++ (if aggressive then [LineAggressive] else [])
             ++ [LineDone]), w').
Proof.
  destruct (clean_run d anything false aggressive w)
    as (lines & w' & E & _ & (r & w1 & Er & ->)).
  exists r, w1, w'. split; [exact Er|].
  rewrite E. rewrite <- !app_assoc. reflexivity.
Qed.

(** ** Byte counts and gigabytes *)

Lemma reading_wf d t idx :
  byte_counts d -> wf_snapshot (reading d t idx) = true.
Proof.
  intros Hb. unfold reading.
  destruct (pynvml_available d && index_in_range d idx); [|reflexivity].
  destruct (nvmlDeviceGetMemoryInfo d t idx) as [[[total used] free]|e] eqn:E;
    [|reflexivity].
  destruct (Hb t idx total used free E) as (Ht & Hu & Hf).
  cbn [wf_snapshot]. now rewrite !truediv_GB_wf.
Qed.

(** X9.  The snapshots of the manager are well formed.  When NVML reports byte
    counts that are not negative, every snapshot that the calculator
    obtains from the manager holds three non-negative floats of the
    format. *)
Theorem telemetry_well_formed d idx w snapshot w1 :
  byte_counts d ->
  obj_get_gpu_memory_info (manager_of d) idx w = (Ok snapshot, w1) ->
  wf_snapshot snapshot = true.
Proof.
  intros Hb. cbn [obj_get_gpu_memory_info manager_of].
  destruct (get_gpu_memory_info_run d idx w) as (w' & -> & _).
  intros [= <- _]. now apply reading_wf.
Qed.

Lemma telemetry_well_formed_witness :
  wf_snapshot
    (Some (truediv_GB (24 * GB_TO_BYTES), truediv_GB (8 * GB_TO_BYTES),
           truediv_GB (16 * GB_TO_BYTES))) = true.
Proof.
  apply (telemetry_well_formed one_gpu 0 w0 _
           (snd (GPUManager.get_gpu_memory_info one_gpu 0 w0))).
  - intros t i total used free. destruct t; intros [= <- <- <-];
      vm_compute; repeat split; discriminate.
  - reflexivity.
Defined.

(** X10.  The round trip of a byte count.  A byte count from 0 up to [2^53],
    divided by [2^30] as the code does for its gigabyte figures and then
    converted as the calculator converts a value, [int(x * 2^30)], is the
    byte count again: neither step rounds. *)
Theorem gigabytes_round_trip z :
  0 <= z < 2 ^ 53 -> to_bytes (truediv_GB z) = Ok z.
Proof.
  intros H. destruct (Z.eq_dec z 0) as [->|N]; [reflexivity|].
  pose proof (truediv_GB_wf z ltac:(lia)) as W.
  apply wf_split in W. destruct W as [V _].
  assert (HD : 1 <= Zdigits2 z <= 53).
  { split; [apply Zdigits2_ge_1; lia | apply Zdigits2_le; lia]. }
  rewrite truediv_GB_exact in * by lia.
  rewrite to_bytes_finite by exact V.
  replace (Zdigits2 z - 83 <=? 941) with true
    by (symmetry; apply Z.leb_le; lia).
  cbn [cond_Zopp]. f_equal.
  assert (P : 0 < 2 ^ (53 - Zdigits2 z)) by (apply Z.pow_pos_nonneg; lia).
  rewrite Z2Pos.id by lia.
  replace (Zdigits2 z - 83 + 30) with (- (53 - Zdigits2 z)) by lia.
  rewrite Z.shiftl_opp_r, Z.shiftr_div_pow2 by lia.
  apply Z.div_mul. lia.
Qed.

Lemma gigabytes_round_trip_witness :
  to_bytes (truediv_GB (24 * 2 ^ 30)) = Ok (24 * 2 ^ 30).
Proof. apply (gigabytes_round_trip (24 * 2 ^ 30)). lia. Defined.

(** ** The display of a device and the monitor *)

Lemma reading_no_memory d t idx :
  (exists total used free,
      reading d t idx = Some (total, used, free) /\ is_zero total = true)
  <-> reports_no_memory d t idx.
Proof.
  unfold reading, reports_no_memory. split.
  - intros (total & used & free & E & Z).
    destruct (pynvml_available d); [|discriminate].
    destruct (index_in_range d idx); [|discriminate]. cbn [andb] in E.
    destruct (nvmlDeviceGetMemoryInfo d t idx) as [[[tt' u] f]|e];
      [|discriminate].
    injection E as <- <- <-. apply truediv_GB_zero in Z. subst tt'.
    repeat split; eauto.
  - intros (-> & -> & used & free & ->). cbn [andb].
    do 3 eexists. split; [reflexivity|]. reflexivity.
Qed.

Import GPUMemoryMonitor.

(** What [monitor] does when it is asked to refresh. *)
Lemma monitor_run d idx journal w :
  exists info w',
    GPUManager.get_detailed_info d idx w = (Ok info, w') /\
    monitor d idx true (journal, w)
    = if index_in_range d idx then
        match reading d (clock w) idx with
        | Some (total, used, free) =>
            if is_zero total then (Raise ZeroDivisionError, (journal, w'))
            else
              let text :=
                Joined (LineStatus idx :: LineModel (shown_name info)
                          :: memory_lines (Some (total, used, free))
                          ++ sensor_lines info) in
              (Ok text, ((INFO, text) :: journal, w'))
        | None =>
            let text :=
              Joined (LineStatus idx :: LineModel (shown_name info)
                        :: sensor_lines info) in
            (Ok text, ((INFO, text) :: journal, w'))
        end
      else (Ok (Unavailable idx), (journal, w')).
Proof.
  destruct (get_detailed_info_run d idx w)
    as (info & w' & E & _ & A & Mem & _ & _).
  exists info, w'. split; [exact E|].
  unfold monitor. cbn [negb]. unfold bind at 1, zoom. cbn [fst snd].
  rewrite E, A. destruct (index_in_range d idx); [|reflexivity].
  cbn [negb]. rewrite Mem. unfold shown_name, sensor_lines, memory_lines.
  destruct (reading d (clock w) idx) as [[[total used] free]|].
  - unfold py_div. destruct (is_zero total); [reflexivity|].
    run. destruct (GPUManager.temperature info), (GPUManager.utilization info);
      reflexivity.
  - run. destruct (GPUManager.temperature info), (GPUManager.utilization info);
      reflexivity.
Qed.

(** What [_show_gpu_info] does. *)
Lemma show_gpu_info_run d idx w :
  exists info w',
    GPUManager.get_detailed_info d idx w = (Ok info, w') /\
    ReservedMemorySetter._show_gpu_info d idx w
    = if index_in_range d idx then
        match reading d (clock w) idx with
        | Some (total, used, free) =>
            if is_zero total then (Raise ZeroDivisionError, w')
            else
              (Ok tt,
               log_record INFO
                 (MsgGpuInfo idx (shown_name info)
                    (Some ((total, used, free),
                           mul_int (SFdiv prec emax used total) 100))
                    (GPUManager.temperature info)
                    (GPUManager.utilization info)) w')
        | None =>
            (Ok tt,
             log_record INFO
               (MsgGpuInfo idx (shown_name info) None
                  (GPUManager.temperature info)
                  (GPUManager.utilization info)) w')
        end
      else (Ok tt, log_record WARNING (MsgGpuUnavailable idx) w').
Proof.
  destruct (get_detailed_info_run d idx w)
    as (info & w' & E & _ & A & Mem & _ & _).
  exists info, w'. split; [exact E|].
  unfold ReservedMemorySetter._show_gpu_info, bind at 1.
  rewrite E, A. destruct (index_in_range d idx); [|reflexivity].
  cbn [negb]. rewrite Mem. unfold shown_name.
  destruct (reading d (clock w) idx) as [[[total used] free]|].
  - unfold py_div. destruct (is_zero total); reflexivity.
  - reflexivity.
Qed.

(** X11.  The display of a device without memory.  The usage percentage divides
    by the total of the snapshot.  Both [_show_gpu_info] and [monitor]
    raise [ZeroDivisionError] exactly when NVML is available, the index is
    within the device count and NVML reports a total of 0 bytes for the
    device; they raise nothing else. *)
Theorem display_fails_without_memory d idx journal w :
  (fst (ReservedMemorySetter._show_gpu_info d idx w) = Raise ZeroDivisionError
   <-> reports_no_memory d (clock w) idx) /\
  (fst (monitor d idx true (journal, w)) = Raise ZeroDivisionError
   <-> reports_no_memory d (clock w) idx) /\
  (forall e,
     fst (ReservedMemorySetter._show_gpu_info d idx w) = Raise e \/
     fst (monitor d idx true (journal, w)) = Raise e ->
     e = ZeroDivisionError).
Proof.
  destruct (show_gpu_info_run d idx w) as (info & w' & _ & ->).
  destruct (monitor_run d idx journal w) as (info' & w'' & _ & ->).
  rewrite <- reading_no_memory.
  destruct (index_in_range d idx) eqn:R.
  - destruct (reading d (clock w) idx) as [[[total used] free]|] eqn:E.
    + destruct (is_zero total) eqn:Z; cbn [fst].
      * repeat split; eauto.
        intros e [[= <-]|[= <-]]; reflexivity.
      * repeat split; try discriminate;
          try (intros (t' & u' & f' & [= <- <- <-] & Z'); congruence).
        intros e [|]; discriminate.
    + cbn [fst]. repeat split; try discriminate;
        try (intros (t' & u' & f' & [=] & _)).
      intros e [|]; discriminate.
  - cbn [fst].
    rewrite (reading_out_of_range d (clock w) idx R).
    repeat split; try discriminate;
      try (intros (t' & u' & f' & [=] & _)).
    intros e [|]; discriminate.
Qed.

(** X12.  The text of the monitor.  A text that [monitor] returns tells what was
    done.  The paused text means that nothing was asked of the device and
    nothing was logged.  The unavailable text means that the index is
    outside the device count.  Any other text starts with the status line
    and the model line (an empty name shows as a missing one), goes on
    with the three lines of the snapshot of the instant of the call when
    there is one, and ends with at most two sensor lines; this text, and
    no other, is logged. *)
Theorem monitor_text d idx refresh journal w text journal' w' :
  monitor d idx refresh (journal, w) = (Ok text, (journal', w')) ->
  match text with
  | Paused => refresh = false /\ journal' = journal /\ w' = w
  | Unavailable i =>
      i = idx /\ refresh = true /\ index_in_range d idx = false /\
      journal' = journal
  | Joined lines =>
      refresh = true /\ index_in_range d idx = true /\
      journal' = (INFO, text) :: journal /\
      exists name sensors,
        lines = LineStatus idx :: LineModel name
                  :: memory_lines (reading d (clock w) idx) ++ sensors /\
        name <> Some EmptyString /\
        (List.length sensors <= 2)%nat
  end.
Proof.
  destruct refresh.
  - destruct (monitor_run d idx journal w) as (info & w1 & _ & ->).
    destruct (index_in_range d idx) eqn:R.
    + assert (Hn : shown_name info <> Some EmptyString).
      { unfold shown_name. destruct (GPUManager.name info) as [[|]|];
          discriminate. }
      assert (Hs : (List.length (sensor_lines info) <= 2)%nat).
      { unfold sensor_lines.
        destruct (GPUManager.temperature info),
          (GPUManager.utilization info); cbn; lia. }
      destruct (reading d (clock w) idx) as [[[total used] free]|].
      * destruct (is_zero total); [discriminate|].
        cbv zeta. intros [= <- <- <-]. repeat split; auto.
        exists (shown_name info), (sensor_lines info). auto.
      * cbv zeta. intros [= <- <- <-]. repeat split; auto.
        exists (shown_name info), (sensor_lines info). auto.
    + intros [= <- <- <-]. auto.
  - cbn. intros [= <- <- <-]. auto.
Qed.

Lemma monitor_text_witness :
  exists name sensors,
    [LineStatus 0; LineModel (Some "GPU"%string);
     LineTotal (truediv_GB (24 * GB_TO_BYTES));
     LineUsed (truediv_GB (8 * GB_TO_BYTES))
       (mul_int (SFdiv prec emax (truediv_GB (8 * GB_TO_BYTES))
                   (truediv_GB (24 * GB_TO_BYTES))) 100);
     LineFree (truediv_GB (16 * GB_TO_BYTES));
     LineTemperature 40; LineUtilization 0]
    = LineStatus 0 :: LineModel name
        :: memory_lines (reading one_gpu (clock w0) 0) ++ sensors /\
    name <> Some EmptyString /\ (List.length sensors <= 2)%nat.
Proof.
  apply (monitor_text one_gpu 0 true [] w0
           (Joined
              [LineStatus 0; LineModel (Some "GPU"%string);
               LineTotal (truediv_GB (24 * GB_TO_BYTES));
               LineUsed (truediv_GB (8 * GB_TO_BYTES))
                 (mul_int (SFdiv prec emax (truediv_GB (8 * GB_TO_BYTES))
                             (truediv_GB (24 * GB_TO_BYTES))) 100);
               LineFree (truediv_GB (16 * GB_TO_BYTES));
               LineTemperature 40; LineUtilization 0])
           (fst (snd (monitor one_gpu 0 true ([], w0))))
           (snd (snd (monitor one_gpu 0 true ([], w0))))).
  vm_compute. reflexivity.
Defined.
(** ** The reservation and the log after [set_memory] *)

(** X13.  The reservation and the log after [set_memory].  A call of
    [set_memory] ends in one of three ways.  Either it applies a byte count
    of the calculator: it returns [anything], and the last record of the
    log states the value now in the reservation slot, in GB and in MB.  Or
    something raised in its [try] block: it returns [anything], the slot
    holds [int(max(1.0, min_safe_reserve) * 2^30)] and the last record is
    the ERROR record of the fallback.  Or the fallback itself cannot be
    converted: the exception leaves [set_memory], and the slot holds what
    it held before the call. *)
Theorem set_memory_slot_and_log {A : Type} d (anything : A) r mode idx m
    clear_memory show_gpu_info w :
  let out :=
    ReservedMemorySetter.set_memory d anything r mode idx m
      clear_memory show_gpu_info w in
  (exists detail rest,
      fst out = Ok anything /\
      log (snd out)
      = (INFO, MsgReservedSet
                 (truediv_GB (EXTRA_RESERVED_MEMORY (snd out)))
                 (truediv_MB (EXTRA_RESERVED_MEMORY (snd out))))
          :: (INFO, MsgApplied detail) :: rest) \/
  (exists e rest,
      fst out = Ok anything /\
      log (snd out)
      = (ERROR, MsgSetFailed e (py_max DEFAULT_RESERVED_GB m)) :: rest /\
      to_bytes (py_max DEFAULT_RESERVED_GB m)
      = Ok (EXTRA_RESERVED_MEMORY (snd out))) \/
  (exists e,
      fst out = Raise e /\ fallback_defined m = false /\
      EXTRA_RESERVED_MEMORY (snd out) = EXTRA_RESERVED_MEMORY w).
Proof.
  cbv zeta. rewrite set_memory_indexed.
  destruct (set_memory_body_outcome d r mode (effective_index d idx) m
              clear_memory show_gpu_info (indexed d idx w))
    as (res & w' & Eb & H).
  assert (Eo :
    (try_except
       (ReservedMemorySetter.set_memory_body d r mode (effective_index d idx)
          m clear_memory show_gpu_info)
       (ReservedMemorySetter.set_memory_except m) ;; ret anything)
      (indexed d idx w)
    = match res with
      | Ok _ => (Ok anything, w')
      | Raise e =>
          match to_bytes (py_max DEFAULT_RESERVED_GB m) with
          | Ok b =>
              (Ok anything,
               log_record ERROR
                 (MsgSetFailed e (py_max DEFAULT_RESERVED_GB m))
                 (with_reservation b w'))
          | Raise e' => (Raise e', w')
          end
      end).
  { unfold bind at 1, try_except. rewrite Eb.
    destruct res as [[]|e]; [reflexivity|].
    unfold ReservedMemorySetter.set_memory_except, bind at 1, lift_result.
    destruct (to_bytes (py_max DEFAULT_RESERVED_GB m)); reflexivity. }
  rewrite Eo. clear Eo Eb.
  destruct res as [[]|e].
  - destruct H as (b & detail & w1 & w2 & -> & _ & _ & _).
    left. exists detail, (log w2). split; reflexivity.
  - right. unfold fallback_defined.
    destruct (to_bytes (py_max DEFAULT_RESERVED_GB m)) as [b|e'].
    + left. exists e, (log w'). repeat split.
    + right. exists e'. cbn [fst snd]. repeat split.
      pose proof (extends_trans _ _ _ (extends_indexed d idx w) H)
        as (S & _). exact S.
Qed.

Lemma set_memory_applies {A : Type} d (anything : A) r mode idx m
    clear_memory show_gpu_info w b detail w2 :
  ReservedMemorySetter.set_memory_body d r mode (effective_index d idx) m
    clear_memory show_gpu_info (indexed d idx w)
  = (Ok tt, applied b detail w2) ->
  ReservedMemorySetter.set_memory d anything r mode idx m
    clear_memory show_gpu_info w
  = (Ok anything, applied b detail w2).
Proof.
  intros E. rewrite set_memory_indexed. unfold bind at 1, try_except.
  rewrite E. reflexivity.
Qed.

(** The body of the [try] block when its display returns and the
    calculator returns. *)
Lemma set_memory_body_applies (P : Z -> Prop) d r mode idx m
    (clear_memory show_gpu_info : bool) w :
  returns (if show_gpu_info
           then ReservedMemorySetter._show_gpu_info d idx else ret tt) ->
  (forall w1,
     exists b detail w2,
       calculate_reserved_memory r mode idx m (manager_of d) w1
       = (Ok (b, detail), w2) /\ P b) ->
  exists b detail w1 w2,
    ReservedMemorySetter.set_memory_body d r mode idx m
      clear_memory show_gpu_info w = (Ok tt, applied b detail w2) /\
    calculate_reserved_memory r mode idx m (manager_of d) w1
    = (Ok (b, detail), w2) /\ P b.
Proof.
  intros Hs Hc. unfold ReservedMemorySetter.set_memory_body, bind at 1.
  match type of Hs with
  | returns ?c => destruct (returns_run c w Hs) as ([] & wa & ->)
  end.
  unfold bind at 1.
  match goal with
  | |- context [(if clear_memory then ?c else ?c') wa] =>
      assert (H2 : returns (if clear_memory then c else c'))
        by returning;
      destruct (returns_run (if clear_memory then c else c') wa H2)
        as ([] & wb & ->)
  end.
  unfold bind at 1. destruct (Hc wb) as (b & detail & wc & E & HP).
  rewrite E. exists b, detail, wb, wc. repeat split; assumption.
Qed.

Lemma show_gpu_info_returns d idx (show_gpu_info : bool) :
  (forall t, ~ reports_no_memory d t idx) ->
  returns (if show_gpu_info
           then ReservedMemorySetter._show_gpu_info d idx else ret tt).
Proof.
  intros Hn. destruct show_gpu_info; [|apply returns_ret].
  intros w. destruct (show_gpu_info_run d idx w) as (info & w' & _ & ->).
  destruct (index_in_range d idx); [|eexists; reflexivity].
  destruct (reading d (clock w) idx) as [[[total used] free]|] eqn:E;
    [|eexists; reflexivity].
  destruct (is_zero total) eqn:Z; [|eexists; reflexivity].
  exfalso. apply (Hn (clock w)). apply reading_no_memory. eauto.
Qed.

Lemma calculate_without_snapshot r mode idx m gm w w1 :
  obj_get_gpu_memory_info gm idx w = (Ok None, w1) ->
  exists detail,
    fst (calculate_reserved_memory r mode idx m gm w)
    = convert (value_without_snapshot r mode m) detail.
Proof.
  intros Hget. unfold value_without_snapshot.
  apply (modes_dispatch r mode idx m gm w None w1 Hget).
  - intros ->. rewrite manual_outcome. cbn [String.eqb Ascii.eqb Bool.eqb].
    eauto.
  - intros ->. rewrite auto_outcome. cbn [String.eqb Ascii.eqb Bool.eqb].
    eauto.
  - intros ->. rewrite smart_outcome. rewrite String.eqb_refl. eauto.
  - intros Hk. unfold known_mode in Hk. apply orb_false_iff in Hk.
    destruct Hk as [_ ->]. eauto.
Qed.

(** X14.  [set_memory] on a host without NVML.  When [pynvml] is not available
    no snapshot is ever taken: whatever the index and the devices that the
    CUDA runtime sees, the reservation slot ends up with
    [int(max(reserved, min_safe_reserve) * 2^30)], and in smart mode with
    [int(max(reserved + 1.0, min_safe_reserve) * 2^30)], as soon as this
    value can be converted.  The display and the reclaim that the flags ask
    for do not change this. *)
Theorem set_memory_without_nvml {A : Type} d (anything : A) r mode idx m
    clear_memory show_gpu_info w b :
  pynvml_available d = false ->
  to_bytes (value_without_snapshot r mode m) = Ok b ->
  exists detail w',
    ReservedMemorySetter.set_memory d anything r mode idx m
      clear_memory show_gpu_info w
    = (Ok anything, applied b detail w') /\
    EXTRA_RESERVED_MEMORY (applied b detail w') = b.
Proof.
  intros Hn Hb.
  destruct (set_memory_body_applies (fun b' => b' = b) d r mode
              (effective_index d idx) m clear_memory show_gpu_info
              (indexed d idx w))
    as (b' & detail & w1 & w2 & E & _ & ->).
  - apply show_gpu_info_returns. intros t (Av & _). congruence.
  - intros w1.
    destruct (get_gpu_memory_info_run d (effective_index d idx) w1)
      as (w2 & Eg & _ & _ & _).
    rewrite reading_without_nvml in Eg by assumption.
    destruct (calculate_without_snapshot r mode (effective_index d idx) m
                (manager_of d) w1 w2 Eg) as (detail & Ec).
    unfold convert in Ec. rewrite Hb in Ec.
    destruct (calculate_reserved_memory r mode (effective_index d idx) m
                (manager_of d) w1) as [res w3].
    cbn [fst] in Ec. subst res. eauto.
  - exists detail, w2. split; [|reflexivity].
    now apply set_memory_applies.
Qed.

Lemma set_memory_without_nvml_witness :
  exists detail w',
    ReservedMemorySetter.set_memory no_gpu tt (of_Z 3) "smart" 1 (of_Z 2)
      true true w0
    = (Ok tt, applied (4 * 2 ^ 30) detail w') /\
    EXTRA_RESERVED_MEMORY (applied (4 * 2 ^ 30) detail w') = 4 * 2 ^ 30.
Proof.
  apply (set_memory_without_nvml no_gpu tt (of_Z 3) "smart" 1 (of_Z 2)
           true true w0 (4 * 2 ^ 30)).
  - reflexivity.
  - vm_compute. reflexivity.
Defined.

(** ** [set_memory] on the inputs that the host admits *)

Lemma calculate_nonneg r mode m snap gm idx w w1 :
  wf r = true -> wf m = true -> wf_snapshot snap = true ->
  obj_get_gpu_memory_info gm idx w = (Ok snap, w1) ->
  nonneg_holds (fst (calculate_reserved_memory r mode idx m gm w)).
Proof.
  intros Wr Wm Ws Hget.
  apply (modes_dispatch r mode idx m gm w _ w1 Hget).
  - intros _. rewrite manual_outcome.
    destruct snap as [[[t u] f]|].
    + apply wf_snapshot_some in Ws. destruct Ws as (Wt & Wu & Wf).
      pose proof (wf_mul_ratio t "manual" Wt) as Wc. cbn in Wc.
      destruct (gtb _ _); apply nonneg_convert; auto using wf_py_max.
    + apply nonneg_convert; auto using wf_py_max.
  - intros _. rewrite auto_outcome.
    destruct snap as [[[t u] f]|].
    + apply wf_snapshot_some in Ws. destruct Ws as (Wt & Wu & Wf).
      pose proof (wf_add u r Wu Wr) as Wa.
      pose proof (wf_mul_ratio t "auto" Wt) as Wc. cbn in Wc. cbv zeta.
      apply nonneg_convert; auto using wf_py_max, wf_py_min.
    + apply nonneg_convert; auto using wf_py_max.
  - intros _. rewrite smart_outcome.
    destruct snap as [[[t u] f]|].
    + apply wf_snapshot_some in Ws. destruct Ws as (Wt & Wu & Wf).
      destruct (py_div f t) as [ratio|e] eqn:D;
        [|right; exact (py_div_raise f t e D)].
      cbv zeta.
      pose proof (smart_value_wf r m t u ratio Wr Wm Wt Wu) as Wv.
      destruct (if ltb ratio (decimal 2 10) then _ else _) as [v status].
      pose proof (wf_mul_ratio t "smart" Wt) as Wc. cbn in Wc.
      apply nonneg_convert; auto using wf_py_max, wf_py_min.
    + apply nonneg_convert; auto using wf_py_max, wf_add_one.
  - intros _. apply nonneg_convert; auto using wf_py_max.
Qed.

Lemma leb_finite_nonneg m0 e0 x :
  leb (S754_finite false m0 e0) x = true -> nonneg x = true.
Proof.
  unfold leb, SFleb.
  destruct x as [s|[]| |[] mm e]; cbn [SFcompare]; intros H;
    try discriminate; reflexivity.
Qed.

Lemma below_32 : below 5 (decimal 32 1).
Proof.
  replace (decimal 32 1) with (S754_finite false 4503599627370496 (-47))
    by (vm_compute; reflexivity).
  apply below_literal; [reflexivity|]. vm_compute. discriminate.
Qed.

Lemma below_8 : below 3 (decimal 8 1).
Proof.
  replace (decimal 8 1) with (S754_finite false 4503599627370496 (-49))
    by (vm_compute; reflexivity).
  apply below_literal; [reflexivity|]. vm_compute. discriminate.
Qed.

Lemma below_1 : below 0 (decimal 1 1).
Proof.
  rewrite decimal_1.
  apply below_literal; [reflexivity|]. vm_compute. discriminate.
Qed.

Lemma admits_below (wd : Widget.Float) B x m0 e0 :
  Widget.min wd = S754_finite false m0 e0 ->
  below B (Widget.max wd) ->
  valid x = true -> Widget.admits wd x = true -> below B x.
Proof.
  intros Hmin Hmax V A. unfold Widget.admits in A.
  apply andb_true_iff in A. destruct A as [L1 L2]. rewrite Hmin in L1.
  apply (below_leb B x (Widget.max wd)); auto.
  apply wf_split. split; [exact V|]. eapply leb_finite_nonneg; exact L1.
Qed.

Lemma plausible_byte_counts d : plausible d -> byte_counts d.
Proof.
  intros H t i total used free E.
  destruct (H t i total used free E) as (? & ? & ?). lia.
Qed.

Lemma plausible_memory d t idx : plausible d -> ~ reports_no_memory d t idx.
Proof.
  intros H (_ & _ & used & free & E).
  destruct (H t idx 0 used free E) as (? & _). lia.
Qed.

Lemma below_ceiling total mode :
  below 34 total -> below 35 (mul total (ceiling_ratio mode)).
Proof.
  intros H. unfold ceiling_ratio.
  destruct (String.eqb mode "auto").
  - rewrite decimal_85.
    apply (below_mul 34);
      [assumption | lia | lia | reflexivity | vm_compute; discriminate].
  - unfold MAX_RESERVED_RATIO.
    apply (below_mul 34);
      [assumption | lia | lia | reflexivity | vm_compute; discriminate].
Qed.

(** What the calculator needs of a snapshot of a plausible device. *)
Lemma reading_plausible d t idx mode :
  plausible d ->
  match reading d t idx with
  | Some (total, _, _) =>
      is_zero total = false /\
      convertible (mul total (ceiling_ratio mode)) = true
  | None => True
  end.
Proof.
  intros H. unfold reading.
  destruct (pynvml_available d && index_in_range d idx); [|exact I].
  destruct (nvmlDeviceGetMemoryInfo d t idx) as [[[total used] free]|e] eqn:E;
    [|exact I].
  destruct (H t idx total used free E) as (Ht & _). split.
  - destruct (is_zero (truediv_GB total)) eqn:Z; [|reflexivity].
    apply truediv_GB_zero in Z. lia.
  - apply (below_convertible 35); [|lia].
    apply below_ceiling. apply truediv_GB_below. lia.
Qed.

(** X15.  [set_memory] on admitted inputs.  Let NVML, when it answers, report
    unsigned 64-bit byte counts and no device without memory.  Then for a
    target and a floor within the bounds that [INPUT_TYPES] declares,
    every mode string, every index and every setting of the two flags,
    nothing raises inside [set_memory] and the fallback is never taken: the
    call returns [anything] after it has applied the byte count that the
    calculator returns for the index it goes on with, and this byte count
    is not negative. *)
Theorem set_memory_applies_the_calculation {A : Type} d (anything : A)
    r mode idx m clear_memory show_gpu_info w :
  plausible d ->
  valid r = true -> Widget.admits INPUT_TYPES_reserved r = true ->
  valid m = true -> Widget.admits INPUT_TYPES_min_safe_reserve m = true ->
  exists b detail w1 w2,
    ReservedMemorySetter.set_memory d anything r mode idx m
      clear_memory show_gpu_info w
    = (Ok anything, applied b detail w2) /\
    calculate_reserved_memory r mode (effective_index d idx) m
      (manager_of d) w1
    = (Ok (b, detail), w2) /\
    0 <= b.
Proof.
  intros Hp Vr Ar Vm Am.
  assert (Br : below 5 r).
  { eapply (admits_below INPUT_TYPES_reserved); eauto using below_32.
    reflexivity. }
  assert (Bm : below 5 m).
  { apply (below_weaken 3); [|lia].
    eapply (admits_below INPUT_TYPES_min_safe_reserve); eauto using below_8.
    reflexivity. }
  pose proof Br as [Wr _]. pose proof Bm as [Wm _].
  destruct (set_memory_body_applies (fun b => 0 <= b) d r mode
              (effective_index d idx) m clear_memory show_gpu_info
              (indexed d idx w))
    as (b & detail & w1 & w2 & E & Ec & Hb).
  - apply show_gpu_info_returns. intros t. now apply plausible_memory.
  - intros w1.
    destruct (get_gpu_memory_info_run d (effective_index d idx) w1)
      as (w2 & Eg & _ & _ & _).
    pose proof (reading_wf d (clock w1) (effective_index d idx)
                  (plausible_byte_counts d Hp)) as Ws.
    destruct (calculate_returns r mode m _ (manager_of d)
                (effective_index d idx) w1 w2 Wr Wm Ws Eg)
      as (b & detail & Ec).
    + apply (below_convertible 5); [|lia]. now apply below_py_max.
    + apply (below_convertible 7); [|lia].
      apply below_py_max; [|apply (below_weaken 5); [assumption|lia]].
      apply (below_add 5); auto; try lia.
      apply (below_weaken 0); [apply below_1|lia].
    + now apply reading_plausible.
    + pose proof (calculate_nonneg r mode m _ (manager_of d)
                    (effective_index d idx) w1 w2 Wr Wm Ws Eg) as Hn.
      destruct (calculate_reserved_memory r mode (effective_index d idx) m
                  (manager_of d) w1) as [res w3].
      cbn [fst] in Ec, Hn. subst res. exists b, detail, w3.
      split; [reflexivity|exact Hn].
  - exists b, detail, w1, w2. split; [|split; assumption].
    now apply set_memory_applies.
Qed.

Lemma set_memory_applies_the_calculation_witness :
  exists b detail w1 w2,
    ReservedMemorySetter.set_memory one_gpu tt DEFAULT_RESERVED_GB "smart" 5
      MIN_SAFE_RESERVE_GB true true w0
    = (Ok tt, applied b detail w2) /\
    calculate_reserved_memory DEFAULT_RESERVED_GB "smart"
      (effective_index one_gpu 5) MIN_SAFE_RESERVE_GB (manager_of one_gpu) w1
    = (Ok (b, detail), w2) /\
    0 <= b.
Proof.
  apply (set_memory_applies_the_calculation one_gpu tt DEFAULT_RESERVED_GB
           "smart" 5 MIN_SAFE_RESERVE_GB true true w0).
  - intros t i total used free. destruct t; intros [= <- <- <-];
      vm_compute; repeat split; discriminate.
  - reflexivity.
  - reflexivity.
  - reflexivity.
  - reflexivity.
Defined.

(** ** The calculator: order between inputs and between modes *)

Lemma val_clamp pm cap :
  wf pm = true -> wf cap = true ->
  val (if gtb pm cap then cap else pm) = Z.min (val pm) (val cap).
Proof.
  intros Wp Wc. unfold gtb. destruct (ltb cap pm) eqn:L.
  - pose proof (ltb_val_lt cap pm Wc Wp L). lia.
  - apply ltb_false_leb in L; auto using wf_not_nan.
    pose proof (leb_val_le pm cap Wp Wc L). lia.
Qed.

Lemma wf_clamp pm cap :
  wf pm = true -> wf cap = true -> wf (if gtb pm cap then cap else pm) = true.
Proof. intros. destruct (gtb pm cap); assumption. Qed.

(** The byte count of manual mode, with its value. *)
Lemma manual_bytes r m snap w :
  result_bytes (fst (_manual_mode r m snap w))
  = to_bytes
      match snap with
      | Some (total, _, _) =>
          if gtb (py_max r m) (mul total MAX_RESERVED_RATIO)
          then mul total MAX_RESERVED_RATIO else py_max r m
      | None => py_max r m
      end.
Proof.
  rewrite manual_outcome. destruct snap as [[[t u] f]|].
  - destruct (gtb _ _); apply result_bytes_convert.
  - apply result_bytes_convert.
Qed.

Lemma auto_bytes r m snap w :
  result_bytes (fst (_auto_mode r m snap w))
  = to_bytes
      match snap with
      | Some (total, used, _) =>
          py_min (py_max (add used r) m) (mul total (decimal 85 100))
      | None => py_max r m
      end.
Proof.
  rewrite auto_outcome. destruct snap as [[[t u] f]|]; cbv zeta;
    apply result_bytes_convert.
Qed.

Lemma smart_bytes r m t u f w :
  is_zero t = false ->
  result_bytes (fst (_smart_mode r m (Some (t, u, f)) w))
  = to_bytes
      (py_min
         (py_max
            (if ltb (SFdiv prec emax f t) (decimal 2 10)
             then py_max (add u r) (mul t (MEMORY_STRATEGY tight))
             else if ltb (SFdiv prec emax f t) (decimal 4 10)
                  then add u r
                  else py_max (add u r) m)
            m)
         (mul t MAX_RESERVED_RATIO)).
Proof.
  intros Z. rewrite smart_outcome. unfold py_div. rewrite Z. cbv zeta.
  destruct (ltb (SFdiv prec emax f t) (decimal 2 10));
    [|destruct (ltb (SFdiv prec emax f t) (decimal 4 10))];
    apply result_bytes_convert.
Qed.

Lemma smart_raises r m t u f w b :
  result_bytes (fst (_smart_mode r m (Some (t, u, f)) w)) = Ok b ->
  is_zero t = false.
Proof.
  rewrite smart_outcome. unfold py_div.
  destruct (is_zero t); [discriminate | reflexivity].
Qed.

Lemma to_bytes_val_mono v1 v2 b2 :
  wf v1 = true -> wf v2 = true -> val v1 <= val v2 ->
  to_bytes v2 = Ok b2 ->
  exists b1, to_bytes v1 = Ok b1 /\ b1 <= b2.
Proof.
  intros W1 W2 H E. apply (to_bytes_mono v1 v2 b2 W1 W2); [|exact E].
  now apply val_le_leb.
Qed.

Lemma wf_ceiling_90 t : wf t = true -> wf (mul t MAX_RESERVED_RATIO) = true.
Proof. intros W. exact (wf_mul_ratio t "manual" W). Qed.

Lemma wf_ceiling_85 t : wf t = true -> wf (mul t (decimal 85 100)) = true.
Proof. intros W. exact (wf_mul_ratio t "auto" W). Qed.

Create HintDb wellformed.

#[local] Hint Resolve wf_py_max wf_py_min wf_add wf_mul_strategy
  wf_ceiling_90 wf_ceiling_85 wf_clamp wf_add_one : wellformed.

(** Rewrites the value of a [max] or [min] of non-negative floats. *)
Ltac values :=
  repeat first
    [ rewrite val_py_max by auto 7 with wellformed
    | rewrite val_py_min by auto 7 with wellformed
    | rewrite val_clamp by auto 7 with wellformed ].

(** X16.  Raising the floor never lowers the reservation.  For every mode
    string, with or without a snapshot: when the calculator returns a byte
    count for a floor, it returns one for every smaller floor, and that one
    is not larger. *)
Theorem floor_is_monotone r mode m1 m2 snap gm idx w w1 b2 :
  wf r = true -> wf m1 = true -> wf m2 = true ->
  wf_snapshot snap = true -> leb m1 m2 = true ->
  obj_get_gpu_memory_info gm idx w = (Ok snap, w1) ->
  result_bytes (fst (calculate_reserved_memory r mode idx m2 gm w)) = Ok b2 ->
  exists b1,
    result_bytes (fst (calculate_reserved_memory r mode idx m1 gm w)) = Ok b1
    /\ b1 <= b2.
Proof.
  intros Wr W1 W2 Ws L Hget.
  pose proof (leb_val_le m1 m2 W1 W2 L) as Hm.
  apply (modes_dispatch r mode idx m2 gm w snap w1 Hget
           (fun res =>
              result_bytes res = Ok b2 ->
              exists b1,
                result_bytes
                  (fst (calculate_reserved_memory r mode idx m1 gm w)) = Ok b1
                /\ b1 <= b2)).
  - intros ->. rewrite (calculate_manual r m1 snap gm idx w w1 Hget).
    rewrite !manual_bytes. destruct snap as [[[t u] f]|].
    + apply wf_snapshot_some in Ws. destruct Ws as (Wt & Wu & Wf).
      apply to_bytes_val_mono; auto 7 with wellformed. values. lia.
    + apply to_bytes_val_mono; auto 7 with wellformed. values. lia.
  - intros ->. rewrite (calculate_auto r m1 snap gm idx w w1 Hget).
    rewrite !auto_bytes. destruct snap as [[[t u] f]|].
    + apply wf_snapshot_some in Ws. destruct Ws as (Wt & Wu & Wf).
      apply to_bytes_val_mono; auto 7 with wellformed. values. lia.
    + apply to_bytes_val_mono; auto 7 with wellformed. values. lia.
  - intros ->. rewrite (calculate_smart r m1 snap gm idx w w1 Hget).
    destruct snap as [[[t u] f]|].
    + apply wf_snapshot_some in Ws. destruct Ws as (Wt & Wu & Wf).
      intros E. pose proof (smart_raises _ _ _ _ _ _ _ E) as Z.
      revert E. rewrite !smart_bytes by exact Z.
      destruct (ltb (SFdiv prec emax f t) (decimal 2 10));
        [|destruct (ltb (SFdiv prec emax f t) (decimal 4 10))];
        (apply to_bytes_val_mono; [auto 7 with wellformed ..|]);
        values; lia.
    + rewrite !smart_outcome, !result_bytes_convert.
      apply to_bytes_val_mono; auto 7 with wellformed. values. lia.
  - intros Hk.
    rewrite (calculate_unknown r mode m1 snap gm idx w w1 Hk Hget).
    cbn [fst]. rewrite !result_bytes_convert.
    apply to_bytes_val_mono; auto 7 with wellformed. values. lia.
Qed.

Lemma floor_is_monotone_witness :
  exists b1,
    result_bytes
      (fst (calculate_reserved_memory (of_Z 1) "smart" 0 (of_Z 2)
              (constant_manager (Some (of_Z 24, of_Z 4, of_Z 20))) w0))
    = Ok b1 /\ b1 <= 6 * 2 ^ 30.
Proof.
  apply (floor_is_monotone (of_Z 1) "smart" (of_Z 2) (of_Z 6)
           (Some (of_Z 24, of_Z 4, of_Z 20))
           (constant_manager (Some (of_Z 24, of_Z 4, of_Z 20))) 0 w0 w0
           (6 * 2 ^ 30)); reflexivity.
Defined.

(** X17.  In manual mode a larger target never gives a smaller reservation:
    when the calculator returns a byte count for a target, it returns one
    for every smaller target, and that one is not larger. *)
Theorem manual_is_monotone r1 r2 m snap gm idx w w1 b2 :
  wf r1 = true -> wf r2 = true -> wf m = true ->
  wf_snapshot snap = true -> leb r1 r2 = true ->
  obj_get_gpu_memory_info gm idx w = (Ok snap, w1) ->
  result_bytes (fst (calculate_reserved_memory r2 "manual" idx m gm w))
  = Ok b2 ->
  exists b1,
    result_bytes (fst (calculate_reserved_memory r1 "manual" idx m gm w))
    = Ok b1 /\ b1 <= b2.
Proof.
  intros W1 W2 Wm Ws L Hget.
  pose proof (leb_val_le r1 r2 W1 W2 L) as Hr.
  rewrite (calculate_manual r1 m snap gm idx w w1 Hget),
    (calculate_manual r2 m snap gm idx w w1 Hget), !manual_bytes.
  destruct snap as [[[t u] f]|].
  - apply wf_snapshot_some in Ws. destruct Ws as (Wt & Wu & Wf).
    apply to_bytes_val_mono; auto 7 with wellformed. values. lia.
  - apply to_bytes_val_mono; auto 7 with wellformed. values. lia.
Qed.

Lemma manual_is_monotone_witness :
  exists b1,
    result_bytes
      (fst (calculate_reserved_memory (of_Z 3) "manual" 0 (of_Z 2)
              (constant_manager (Some (of_Z 8, of_Z 4, of_Z 4))) w0))
    = Ok b1 /\ b1 <= 7730941132.
Proof.
  apply (manual_is_monotone (of_Z 3) (of_Z 16) (of_Z 2)
           (Some (of_Z 8, of_Z 4, of_Z 4))
           (constant_manager (Some (of_Z 8, of_Z 4, of_Z 4))) 0 w0 w0
           7730941132); reflexivity.
Defined.

(** X18.  Smart mode never reserves less than auto mode.  On the same target,
    floor and snapshot, when smart mode returns a byte count, auto mode
    returns one as well, and the byte count of auto mode is not larger. *)
Theorem smart_at_least_auto r m t u f gm idx w w1 bs :
  wf r = true -> wf m = true -> wf_snapshot (Some (t, u, f)) = true ->
  obj_get_gpu_memory_info gm idx w = (Ok (Some (t, u, f)), w1) ->
  result_bytes (fst (calculate_reserved_memory r "smart" idx m gm w))
  = Ok bs ->
  exists ba,
    result_bytes (fst (calculate_reserved_memory r "auto" idx m gm w))
    = Ok ba /\ ba <= bs.
Proof.
  intros Wr Wm Ws Hget.
  apply wf_snapshot_some in Ws. destruct Ws as (Wt & Wu & Wf).
  rewrite (calculate_smart r m _ gm idx w w1 Hget),
    (calculate_auto r m _ gm idx w w1 Hget), auto_bytes.
  intros E. pose proof (smart_raises _ _ _ _ _ _ _ E) as Z.
  revert E. rewrite smart_bytes by exact Z.
  pose proof (leb_val_le _ _ (wf_ceiling_85 t Wt) (wf_ceiling_90 t Wt)
                (auto_ceiling_below t Wt)) as Hc.
  destruct (ltb (SFdiv prec emax f t) (decimal 2 10));
    [|destruct (ltb (SFdiv prec emax f t) (decimal 4 10))];
    (apply to_bytes_val_mono; [auto 7 with wellformed ..|]);
    values; lia.
Qed.

Lemma smart_at_least_auto_witness :
  exists ba,
    result_bytes
      (fst (calculate_reserved_memory (of_Z 1) "auto" 0 (of_Z 2)
              (constant_manager (Some (of_Z 24, of_Z 20, of_Z 4))) w0))
    = Ok ba /\ ba <= 21 * 2 ^ 30.
Proof.
  apply (smart_at_least_auto (of_Z 1) (of_Z 2) (of_Z 24) (of_Z 20) (of_Z 4)
           (constant_manager (Some (of_Z 24, of_Z 20, of_Z 4))) 0 w0 w0
           (21 * 2 ^ 30)); reflexivity.
Defined.

(** ** The order of byte counts and of gigabyte figures *)

Lemma val_truediv_GB_small z :
  0 < z < 2 ^ 53 -> val (truediv_GB z) = z * 2 ^ 1044.
Proof.
  intros H. rewrite truediv_GB_exact by assumption. cbn [val].
  assert (HD : 1 <= Zdigits2 z <= 53).
  { split; [apply Zdigits2_ge_1; lia | apply Zdigits2_le; lia]. }
  assert (P : 0 < 2 ^ (53 - Zdigits2 z)) by (apply Z.pow_pos_nonneg; lia).
  rewrite Z2Pos.id by lia.
  rewrite <- Z.mul_assoc, <- Z.pow_add_r by lia. do 2 f_equal. lia.
Qed.

Lemma Zdigits2_large z : 2 ^ 53 <= z -> 54 <= Zdigits2 z.
Proof.
  intros H. assert (Hz : 0 < z) by lia.
  pose proof (Zdigits2_bounds z Hz) as [_ B].
  destruct (Z.le_gt_cases 54 (Zdigits2 z)) as [|G]; [assumption|exfalso].
  assert (2 ^ Zdigits2 z <= 2 ^ 53) by (apply Z.pow_le_mono_r; lia). lia.
Qed.

Lemma truediv_GB_large z :
  2 ^ 53 <= z ->
  truediv_GB z = binary_round_aux prec emax false z (-30) loc_Exact /\
  -30 <= fexp prec emax (Zdigits2 z + -30).
Proof.
  intros H. pose proof (Zdigits2_large z H) as D.
  assert (Hz : 0 < z) by lia.
  assert (F : fexp prec emax (Zdigits2 z + -30) = Zdigits2 z - 83)
    by (unfold fexp, emin, prec, emax; lia).
  split; [|lia].
  rewrite truediv_GB_pos by assumption. unfold binary_round.
  change (Zpos (digits2_pos (Z.to_pos z))) with (Zdigits2 (Zpos (Z.to_pos z))).
  rewrite Z2Pos.id by lia. rewrite F.
  destruct (shl_align_spec (Z.to_pos z) (-30) (Zdigits2 z - 83)) as [Hm He].
  destruct (shl_align (Z.to_pos z) (-30) (Zdigits2 z - 83)) as [mz ez].
  cbn [fst snd] in Hm, He. rewrite Z2Pos.id in Hm by lia.
  assert (E1 : Z.min (-30) (Zdigits2 z - 83) = -30) by lia.
  rewrite E1 in He. subst ez. rewrite Z.sub_diag, Z.pow_0_r, Z.mul_1_r in Hm.
  now rewrite Hm.
Qed.

Lemma val_truediv_GB_mono a b :
  0 <= a <= b -> val (truediv_GB a) <= val (truediv_GB b).
Proof.
  intros H. destruct (Z.eq_dec a 0) as [->|Na].
  { change (val (truediv_GB 0)) with 0. apply val_nonneg. }
  assert (P : 0 < 2 ^ 1044) by (apply Z.pow_pos_nonneg; lia).
  destruct (Z.lt_ge_cases b (2 ^ 53)) as [Sb|Lb].
  - rewrite !val_truediv_GB_small by lia.
    apply Z.mul_le_mono_nonneg_r; lia.
  - destruct (truediv_GB_large b Lb) as [Eb Rb].
    pose proof (Zdigits2_large b Lb) as Db.
    destruct (Z.lt_ge_cases a (2 ^ 53)) as [Sa|La].
    + rewrite val_truediv_GB_small by lia. rewrite Eb.
      apply Z.le_trans with (2 ^ 1097).
      * replace 1097 with (53 + 1044) by lia.
        rewrite Z.pow_add_r by lia. apply Z.mul_le_mono_nonneg_r; lia.
      * eapply Z.le_trans; [|apply val_round_lower; lia].
        apply Z.pow_le_mono_r; lia.
    + destruct (truediv_GB_large a La) as [Ea Ra]. rewrite Ea, Eb.
      rewrite !val_round by lia. apply Z.min_le_compat_r.
      apply rounded_value_mono; lia.
Qed.

(** X19.  Gigabyte figures keep the order of byte counts.  On unsigned
    64-bit byte counts, as NVML reports them, the division by [2^30] never
    overflows, and although it rounds it never swaps two byte counts: the
    smaller one has the smaller (or the same) figure in GB, so that a
    snapshot whose used bytes lie under its total shows a used figure that
    lies under its total figure. *)
Theorem gigabytes_keep_the_order a b :
  0 <= a <= b -> b < 2 ^ 64 ->
  is_finite (truediv_GB a) = true /\ is_finite (truediv_GB b) = true /\
  leb (truediv_GB a) (truediv_GB b) = true.
Proof.
  intros H Hb. split; [apply truediv_GB_finite; lia|].
  split; [apply truediv_GB_finite; lia|].
  apply val_le_leb; try (apply truediv_GB_wf; lia).
  now apply val_truediv_GB_mono.
Qed.

Lemma gigabytes_keep_the_order_witness :
  is_finite (truediv_GB (2 ^ 60 + 1)) = true /\
  is_finite (truediv_GB (2 ^ 60 + 2)) = true /\
  leb (truediv_GB (2 ^ 60 + 1)) (truediv_GB (2 ^ 60 + 2)) = true.
Proof.
  apply (gigabytes_keep_the_order (2 ^ 60 + 1) (2 ^ 60 + 2)); lia.
Defined.

(** ** The singleton and its cleanup *)

Ltac run_singleton :=
  cbv beta iota zeta delta
    [cleanup run_op Singleton.GPUManager Singleton.__new__ Singleton.__init__
     Singleton._initialize_pynvml Singleton.cleanup Singleton.is_available
     Singleton.call Singleton.notice Singleton.set_instance
     Singleton.set_initialized Singleton.set_pynvml
     Singleton.set_pynvml_available
     bind ret get modify try_except fst snd negb andb].

(** A construction of the manager once it is built does nothing. *)
Lemma GPUManager_built lib p :
  Singleton._instance p = true -> Singleton._initialized p = true ->
  Singleton.GPUManager lib p = (Ok tt, p).
Proof.
  intros I J. destruct p as [i j n a c l].
  cbn [Singleton._instance Singleton._initialized] in I, J. subst i j.
  reflexivity.
Qed.

Lemma GPUManager_builds lib p :
  exists p',
    Singleton.GPUManager lib p = (Ok tt, p') /\
    Singleton._instance p' = true /\ Singleton._initialized p' = true.
Proof.
  destruct lib as [imp ini sh], p as [i j n a c l].
  destruct i, j, imp; try destruct ini as [[]|e];
    (eexists; split; [reflexivity|]); split; reflexivity.
Qed.

(** The first construction. *)
Lemma GPUManager_start lib :
  exists p,
    Singleton.GPUManager lib Singleton.start = (Ok tt, p) /\
    built lib p /\
    Singleton.calls p
    = match Singleton.import_pynvml lib with
      | Singleton.Imported => [Singleton.CallInit]
      | _ => []
      end.
Proof.
  unfold built, init_succeeds. destruct lib as [imp ini sh].
  destruct imp; try destruct ini as [[]|e];
    (eexists; split; [reflexivity|]); repeat split.
Qed.

Lemma method_cleanup_built lib p :
  built lib p ->
  exists p',
    Singleton.cleanup lib p = (Ok tt, p') /\ built lib p' /\
    Singleton.calls p'
    = if init_succeeds lib
      then Singleton.CallShutdown :: Singleton.calls p
      else Singleton.calls p.
Proof.
  intros B. pose proof B as (I & J & N & Av).
  unfold Singleton.cleanup, bind at 1, get. rewrite Av.
  destruct (init_succeeds lib) eqn:S.
  - assert (Im : Singleton.pynvml p = true).
    { rewrite N. unfold init_succeeds in S.
      destruct (Singleton.import_pynvml lib); congruence. }
    rewrite Im. cbn [andb]. run_singleton.
    destruct (Singleton.nvmlShutdown lib _) as [[]|e];
      eexists; (split; [reflexivity|]);
      (split; [|reflexivity]); unfold built;
      cbn [Singleton._instance Singleton._initialized Singleton.pynvml
           Singleton._pynvml_available Singleton.calls];
      rewrite S; auto.
  - cbn [andb]. exists p. split; [reflexivity|]. split; [exact B|reflexivity].
Qed.

Lemma cleanup_built lib p :
  built lib p ->
  exists p',
    cleanup lib p = (Ok tt, p') /\ built lib p' /\
    Singleton.calls p'
    = if init_succeeds lib
      then Singleton.CallShutdown :: Singleton.calls p
      else Singleton.calls p.
Proof.
  intros B. pose proof B as (I & J & _).
  unfold cleanup, try_except, bind at 1.
  rewrite (GPUManager_built lib p I J).
  destruct (method_cleanup_built lib p B) as (p' & -> & B' & C).
  exists p'. auto.
Qed.

Lemma repeat_shift {A : Type} (x : A) (n : nat) (l : list A) :
  repeat x n ++ x :: l = x :: repeat x n ++ l.
Proof. induction n as [|n IH]; cbn; congruence. Qed.

Lemma run_ops_built lib ops :
  forall p,
    built lib p ->
    exists p',
      run_ops lib ops p = (Ok tt, p') /\ built lib p' /\
      Singleton.calls p'
      = (if init_succeeds lib
         then repeat Singleton.CallShutdown (count_cleanups ops)
         else []) ++ Singleton.calls p.
Proof.
  induction ops as [|o rest IH]; intros p B.
  - exists p. split; [reflexivity|]. split; [exact B|].
    cbn. destruct (init_succeeds lib); reflexivity.
  - cbn [run_ops]. unfold bind at 1. destruct o; cbn [run_op].
    + pose proof B as (I & J & _). rewrite (GPUManager_built lib p I J).
      destruct (IH p B) as (p' & E & B' & C). exists p'.
      split; [exact E|]. split; [exact B'|]. exact C.
    + destruct (cleanup_built lib p B) as (p1 & -> & B1 & C1).
      destruct (IH p1 B1) as (p' & E & B' & C). exists p'.
      split; [exact E|]. split; [exact B'|]. rewrite C, C1.
      unfold count_cleanups. cbn [filter List.length].
      destruct (init_succeeds lib); [|reflexivity].
      cbn [repeat app]. apply repeat_shift.
Qed.

(** X20.  The life cycle of NVML.  Whatever a program does with the singleton
    (constructions of the manager and runs of the module's [cleanup], in
    any number and order), nothing is raised, and the calls made to NVML
    are these: none as long as nothing was done; then, when [pynvml] can be
    imported, one [nvmlInit], made by the first construction (a cleanup on
    a fresh process constructs the manager, so that it initialises NVML as
    well); and, when the initialisation succeeded, one [nvmlShutdown] for
    every run of the cleanup, also after NVML has been shut down.  An
    initialisation that failed is never tried again, and the manager
    reports NVML as available exactly when the initialisation succeeded,
    also after a cleanup. *)
Theorem nvml_life_cycle lib ops :
  exists p,
    run_ops lib ops Singleton.start = (Ok tt, p) /\
    Singleton.calls p = expected_calls lib ops /\
    fst (Singleton.is_available p)
    = Ok (match ops with [] => false | _ :: _ => init_succeeds lib end).
Proof.
  destruct ops as [|o rest].
  - exists Singleton.start. repeat split.
  - cbn [run_ops]. unfold bind at 1.
    assert (H : exists p1,
               run_op lib o Singleton.start = (Ok tt, p1) /\ built lib p1 /\
               Singleton.calls p1
               = (if init_succeeds lib
                  then repeat Singleton.CallShutdown (count_cleanups [o])
                  else []) ++
                 match Singleton.import_pynvml lib with
                 | Singleton.Imported => [Singleton.CallInit]
                 | _ => []
                 end).
    { destruct (GPUManager_start lib) as (p0 & E0 & B0 & C0).
      destruct o; cbn [run_op].
      - exists p0. split; [exact E0|]. split; [exact B0|].
        rewrite C0. cbn. destruct (init_succeeds lib); reflexivity.
      - unfold cleanup, try_except, bind at 1. rewrite E0.
        destruct (method_cleanup_built lib p0 B0) as (p1 & -> & B1 & C1).
        exists p1. split; [reflexivity|]. split; [exact B1|].
        rewrite C1, C0. cbn. destruct (init_succeeds lib); reflexivity. }
    destruct H as (p1 & -> & B1 & C1).
    destruct (run_ops_built lib rest p1 B1) as (p & E & B & C).
    exists p. split; [exact E|]. split.
    + rewrite C, C1. unfold expected_calls, init_succeeds.
      destruct (Singleton.import_pynvml lib); [|reflexivity..].
      destruct (Singleton.nvmlInit lib); [|reflexivity].
      rewrite app_assoc, <- repeat_app. do 2 f_equal.
      unfold count_cleanups. destruct o; cbn [filter List.length]; lia.
    + destruct B as (_ & _ & _ & Av).
      unfold Singleton.is_available, bind, get, ret. cbn [fst].
      now rewrite Av.
Qed.

(** X21.  A second construction changes nothing.  In every state of the class,
    once [GPUManager()] has run, running it again leaves every attribute,
    the calls made to NVML and the log as they are. *)
Theorem construction_is_idempotent lib p :
  exists p1,
    Singleton.GPUManager lib p = (Ok tt, p1) /\
    Singleton.GPUManager lib p1 = (Ok tt, p1).
Proof.
  destruct (GPUManager_builds lib p) as (p1 & E & I & J).
  exists p1. split; [exact E|]. now apply GPUManager_built.
Qed.
